(** * Premier League match predictor: rating, ingestion, features and
    synchronisation, embedded from the Python backend
    (database.py, fix_elo.py, scheduler.py, services/football_api.py,
    services/model_service.py, main.py, backfill_predictions.py).

    Conventions of the embedding:
    - the store is SQLite: a table is the list of its rows in rowid order,
      a query is a filter over it and fetchone() its first row;
    - a Python float is a real number, and [10 ** x] is [Rpower 10 x];
      where a property depends on the rounding of binary64 arithmetic the
      rating computation is given a second time, every operation rounded;
      the windowed averages, which are quotients of small integers, and the
      waits between requests are rationals;
    - a date stored as 'YYYY-MM-DD' is its day number (such strings compare
      as their dates do); a timestamp compared with such a date is the day
      it falls on; a datetime is a number of microseconds;
    - a method that can raise returns an [outcome]; what the world outside
      the program does (the clock, the replies of the API, a failing disk) is
      an argument of the method;
    - the SQLite statements themselves succeed, and the files of the
      prediction model load (ModelService()). *)

From Stdlib Require Import Reals Lra ZArith List String Ascii Bool Lia QArith
  Permutation Sorted DecimalString Qminmax Qreals PrimFloat.
Import ListNotations.

Open Scope Z_scope.

(** ** Exceptions and results *)

Inductive exn : Type :=
| TypeError
| ValueError
| KeyError
| AttributeError
| FileNotFoundError
| OperationalError
| ClientError.

Inductive outcome (A : Type) : Type :=
| Ok (a : A)
| Raise (e : exn).
Arguments Ok {A} a.
Arguments Raise {A} e.

(** ** Calls

    How Python binds the arguments of a call to the parameters of a method
    (self apart): [positional] arguments fill the first parameters, every
    keyword must name one of the others, and every parameter without a
    default must be filled; anything else is a TypeError raised before the
    body runs. *)

Record signature : Type := mk_signature {
  required : list string;
  with_default : list string
}.

Definition bind_arguments (sig : signature) (positional : nat)
    (keywords : list string) : outcome unit :=
  let parameters := (required sig ++ with_default sig)%list in
  let unfilled := skipn positional parameters in
  if (List.length parameters <? positional)%nat then Raise TypeError
  else if negb (forallb (fun k => existsb (String.eqb k) unfilled) keywords)
  then Raise TypeError
  else if negb (forallb (fun p => existsb (String.eqb p) keywords)
                        (skipn positional (required sig)))
  then Raise TypeError
  else Ok tt.

(** ** The rating computation of [update_elo_ratings] (database.py 264-280,
    fix_elo.py 60-76) *)

Record elo_calc : Type := mk_elo_calc {
  home_expected : R;
  away_expected : R;
  home_actual : R;
  away_actual : R;
  new_home_elo : R;
  new_away_elo : R
}.

Definition K_FACTOR : R := 30.
Definition HOME_ADVANTAGE : R := 70.

(** [10 ** x] on floats. *)
Definition pow10 (x : R) : R := Rpower 10 x.

Definition elo_computation (home_elo away_elo : R) (result : Z) : elo_calc :=
  let home_expected :=
    (1 / (1 + pow10 ((away_elo - (home_elo + HOME_ADVANTAGE)) / 400)))%R in
  let away_expected := (1 - home_expected)%R in
  let '(home_actual, away_actual) :=
    if result =? -1 then (1%R, 0%R)
    else if result =? 0 then ((5 / 10)%R, (5 / 10)%R)
    else (0%R, 1%R) in
  let new_home_elo := (home_elo + K_FACTOR * (home_actual - home_expected))%R in
  let new_away_elo := (away_elo + K_FACTOR * (away_actual - away_expected))%R in
  mk_elo_calc home_expected away_expected home_actual away_actual
              new_home_elo new_away_elo.

(** The same lines in the arithmetic of the code.  A Python float is a
    binary64 number: every operation returns the exact result rounded
    ([rnd]), and [10 ** x] is what the pow of the C library returns
    ([pow10_float]). *)
Definition elo_computation_rounded (rnd : R -> R) (pow10_float : R -> R)
    (home_elo away_elo : R) (result : Z) : elo_calc :=
  let home_expected :=
    rnd (1 / rnd (1 + pow10_float
                        (rnd (rnd (away_elo - rnd (home_elo + HOME_ADVANTAGE))
                              / 400))))%R in
  let away_expected := rnd (1 - home_expected)%R in
  let '(home_actual, away_actual) :=
    if result =? -1 then (1%R, 0%R)
    else if result =? 0 then ((5 / 10)%R, (5 / 10)%R)
    else (0%R, 1%R) in
  let new_home_elo :=
    rnd (home_elo + rnd (K_FACTOR * rnd (home_actual - home_expected)))%R in
  let new_away_elo :=
    rnd (away_elo + rnd (K_FACTOR * rnd (away_actual - away_expected)))%R in
  mk_elo_calc home_expected away_expected home_actual away_actual
              new_home_elo new_away_elo.

(** Half the distance from 1 to the next binary64 number, 2^-53, and what
    rounding to nearest guarantees of a result in the normal range: it is
    off by no more than that fraction of the exact result. *)
Definition unit_roundoff : R := (/ 9007199254740992)%R.

Definition rounds_to_nearest (rnd : R -> R) : Prop :=
  forall x : R, (Rabs (rnd x - x) <= unit_roundoff * Rabs x)%R.

(** Lines 265-280 on binary64 numbers themselves, from the value [p] of
    10 ** ((away_elo - (home_elo + HOME_ADVANTAGE)) / 400) on: the two
    increments K_FACTOR * (actual - expected) and the two new ratings. *)
Definition elo_update_binary64 (p home_elo away_elo : float) (result : Z)
  : (float * float) * (float * float) :=
  let home_expected := (1 / (1 + p))%float in
  let away_expected := (1 - home_expected)%float in
  let '(home_actual, away_actual) :=
    if result =? -1 then (1%float, 0%float)
    else if result =? 0 then (0x1p-1%float, 0x1p-1%float)
    else (0%float, 1%float) in
  let home_increment := (30 * (home_actual - home_expected))%float in
  let away_increment := (30 * (away_actual - away_expected))%float in
  ((home_increment, away_increment),
   ((home_elo + home_increment)%float, (away_elo + away_increment)%float)).

(** ** Tables *)

Record team_row : Type := mk_team {
  team_id : Z;
  api_team_id : option Z;
  name : string;
  current_elo_rating : R;
  updated_at : Z
}.

Record match_row : Type := mk_match {
  match_id : Z;
  api_match_id : option Z;
  home_team_id : Z;
  away_team_id : Z;
  date : Z;
  home_goals : Z;
  away_goals : Z;
  result : Z
}.

Record prediction_row : Type := mk_prediction {
  pred_match_id : Z;
  home_win_probability : R;
  draw_probability : R;
  away_win_probability : R
}.

(** [teams_seq] and [matches_seq] are the AUTOINCREMENT counters kept in
    sqlite_sequence; [last_fetched_date] is the 'last_fetched_date' row of
    system_settings. *)
Record db : Type := mk_db {
  teams : list team_row;
  matches : list match_row;
  match_predictions : list prediction_row;
  last_fetched_date : option Z;
  teams_seq : Z;
  matches_seq : Z
}.

Definition set_teams (d : db) (ts : list team_row) : db :=
  mk_db ts (matches d) (match_predictions d) (last_fetched_date d)
        (teams_seq d) (matches_seq d).

(** SELECT ... FROM teams WHERE team_id = ?, fetchone() *)
Definition team_by_id (ts : list team_row) (tid : Z) : option team_row :=
  find (fun t => team_id t =? tid) ts.

(** SELECT ... FROM matches WHERE match_id = ?, fetchone() *)
Definition match_by_id (ms : list match_row) (mid : Z) : option match_row :=
  find (fun m => match_id m =? mid) ms.

(** UPDATE teams SET current_elo_rating = ?, updated_at = CURRENT_TIMESTAMP
    WHERE team_id = ? *)
Definition update_rating (now : Z) (tid : Z) (elo : R) (ts : list team_row)
  : list team_row :=
  map (fun t => if team_id t =? tid
                then mk_team (team_id t) (api_team_id t) (name t) elo now
                else t) ts.

Definition rating_of (d : db) (tid : Z) : option R :=
  option_map current_elo_rating (team_by_id (teams d) tid).

(** Whether teams has a row with this team_id. *)
Definition has_team (ts : list team_row) (tid : Z) : bool :=
  existsb (fun t => team_id t =? tid) ts.

Fixpoint insert_by {A : Type} (le : A -> A -> bool) (x : A) (l : list A)
  : list A :=
  match l with
  | [] => [x]
  | y :: l' => if le x y then x :: l else y :: insert_by le x l'
  end.

(** A stable sort; SQL leaves the order of rows with equal keys open, the
    model keeps them in rowid order. *)
Definition sort_by {A : Type} (le : A -> A -> bool) (l : list A) : list A :=
  fold_right (insert_by le) [] l.

Module Database.

(** database.py 236-295.  [now] is the day CURRENT_TIMESTAMP falls on. *)
Definition update_elo_ratings (now : Z) (d : db) (mid : Z) : outcome db :=
  match match_by_id (matches d) mid with
  | None => Raise ValueError
  | Some m =>
    match team_by_id (teams d) (home_team_id m) with
    | None => Raise TypeError
    | Some ht =>
      match team_by_id (teams d) (away_team_id m) with
      | None => Raise TypeError
      | Some awt =>
        let c := elo_computation (current_elo_rating ht)
                                 (current_elo_rating awt) (result m) in
        Ok (set_teams d
              (update_rating now (away_team_id m) (new_away_elo c)
                 (update_rating now (home_team_id m) (new_home_elo c)
                    (teams d))))
      end
    end
  end.

(** database.py 375-387: INSERT OR REPLACE INTO system_settings. *)
Definition set_last_fetched_date (d : db) (day : Z) : db :=
  mk_db (teams d) (matches d) (match_predictions d) (Some day)
        (teams_seq d) (matches_seq d).

(** database.py 361-373 *)
Definition get_last_fetched_date (d : db) : option Z := last_fetched_date d.

(** *** add_new_match (database.py 530-690) *)

Record match_data : Type := mk_match_data {
  md_match_id : option Z;          (* key 'match_id': the API match id *)
  md_home_team_id : Z;             (* API team ids *)
  md_away_team_id : Z;
  md_home_team_name : option string;
  md_away_team_name : option string;
  md_date : Z;
  md_home_goals : Z;
  md_away_goals : Z;
  md_result : Z
}.

(** f'Team {api_id}' *)
Definition default_team_name (api_id : Z) : string :=
  ("Team " ++ NilZero.string_of_int (Z.to_int api_id))%string.

Definition has_api_id (api_id : Z) (t : team_row) : bool :=
  match api_team_id t with
  | Some a => a =? api_id
  | None => false
  end.

(** SELECT team_id FROM teams WHERE api_team_id = ?, fetchone() *)
Definition team_by_api_id (ts : list team_row) (api_id : Z) : option team_row :=
  find (has_api_id api_id) ts.

(** SELECT team_id FROM teams WHERE name = ?, fetchone() *)
Definition team_by_name (ts : list team_row) (nm : string) : option team_row :=
  find (fun t => String.eqb (name t) nm) ts.

(** UPDATE teams SET api_team_id = ? WHERE team_id = ? *)
Definition set_api_id (tid : Z) (api_id : Z) (ts : list team_row)
  : list team_row :=
  map (fun t => if team_id t =? tid
                then mk_team (team_id t) (Some api_id) (name t)
                             (current_elo_rating t) (updated_at t)
                else t) ts.

(** INSERT INTO teams (api_team_id, name, current_elo_rating)
    VALUES (?, ?, 1500.0); the new rowid is cursor.lastrowid. *)
Definition insert_team (now : Z) (d : db) (api_id : Z) (nm : string) : db * Z :=
  let tid := teams_seq d + 1 in
  (mk_db (teams d ++ [mk_team tid (Some api_id) nm 1500%R now])
         (matches d) (match_predictions d) (last_fetched_date d)
         tid (matches_seq d),
   tid).

(** Lines 541-566 for the home side and 568-593 for the away side: find the
    team by API id, else by name (and store the API id on it), else create it. *)
Definition resolve_team (now : Z) (d : db) (api_id : Z) (nm : string) : db * Z :=
  match team_by_api_id (teams d) api_id with
  | Some t => (d, team_id t)
  | None =>
    match team_by_name (teams d) nm with
    | Some t => (set_teams d (set_api_id (team_id t) api_id (teams d)), team_id t)
    | None => insert_team now d api_id nm
    end
  end.

(** JOIN teams ht ON m.home_team_id = ht.team_id
    JOIN teams at ON m.away_team_id = at.team_id *)
Definition joins_teams (ts : list team_row) (m : match_row) : bool :=
  has_team ts (home_team_id m) && has_team ts (away_team_id m).

Definition same_api_match_id (api_mid : Z) (m : match_row) : bool :=
  match api_match_id m with
  | Some a => a =? api_mid
  | None => false
  end.

Definition same_date_and_teams (day home away : Z) (m : match_row) : bool :=
  (date m =? day) && (home_team_id m =? home) && (away_team_id m =? away).

(** The two duplicate queries (lines 596-658), fetchone(). *)
Definition existing_match (d : db) (api_mid : option Z) (day home away : Z)
  : option match_row :=
  match api_mid with
  | Some a =>
    find (fun m => joins_teams (teams d) m &&
                   (same_api_match_id a m || same_date_and_teams day home away m))
         (matches d)
  | None =>
    find (fun m => joins_teams (teams d) m && same_date_and_teams day home away m)
         (matches d)
  end.

(** The constraints of the matches table an INSERT can break: UNIQUE on
    api_match_id, and the partial unique index unique_match_constraint on
    (date, home_team_id, away_team_id) WHERE api_match_id IS NULL. *)
Definition violates_integrity (ms : list match_row) (r : match_row) : bool :=
  match api_match_id r with
  | Some a => existsb (same_api_match_id a) ms
  | None =>
    existsb (fun m => match api_match_id m with
                      | None => same_date_and_teams (date r) (home_team_id r)
                                                    (away_team_id r) m
                      | Some _ => false
                      end) ms
  end.

(** Lines 536-593: both sides of the match, the home side first. *)
Definition resolve_teams (now : Z) (d : db) (md : match_data) : db * Z * Z :=
  let home_team_name :=
    match md_home_team_name md with
    | Some n => n
    | None => default_team_name (md_home_team_id md)
    end in
  let away_team_name :=
    match md_away_team_name md with
    | Some n => n
    | None => default_team_name (md_away_team_id md)
    end in
  let '(d1, home_id) := resolve_team now d (md_home_team_id md) home_team_name in
  let '(d2, away_id) := resolve_team now d1 (md_away_team_id md) away_team_name in
  (d2, home_id, away_id).

Definition add_new_match (now : Z) (d : db) (md : match_data) : db * option Z :=
  let '(d2, home_id, away_id) := resolve_teams now d md in
  match existing_match d2 (md_match_id md) (md_date md) home_id away_id with
  | Some _ => (d2, None)
  | None =>
    let mid := matches_seq d2 + 1 in
    let row := mk_match mid (md_match_id md) home_id away_id (md_date md)
                        (md_home_goals md) (md_away_goals md) (md_result md) in
    if violates_integrity (matches d2) row
    then (d2, None)                      (* sqlite3.IntegrityError, caught *)
    else (mk_db (teams d2) (matches d2 ++ [row]) (match_predictions d2)
                (last_fetched_date d2) (teams_seq d2) mid,
          Some mid)
  end.

(** What scheduler.py 133-148 does with a record, the prediction apart:
    add_new_match and, for a new row, update_elo_ratings; the result is the
    id of the new row. *)
Definition add_and_rate (now : Z) (d : db) (md : match_data) : db * option Z :=
  let '(d1, added) := add_new_match now d md in
  match added with
  | Some mid =>
    if mid =? 0 then (d1, None)
    else match update_elo_ratings now d1 mid with
         | Ok d2 => (d2, Some mid)
         | Raise _ => (d1, Some mid)
         end
  | None => (d1, None)
  end.

(** INSERT OR IGNORE INTO match_predictions (UNIQUE(match_id)),
    database.py 841-849. *)
Definition insert_match_prediction (d : db) (mid : Z) (p : R * R * R) : db :=
  if existsb (fun r => pred_match_id r =? mid) (match_predictions d) then d
  else mk_db (teams d) (matches d)
             (match_predictions d ++
                [mk_prediction mid (fst (fst p)) (snd (fst p)) (snd p)])
             (last_fetched_date d) (teams_seq d) (matches_seq d).

(** *** Feature computation *)

Record features : Type := mk_features {
  Away_Elo : R;
  Home_Elo : R;
  H2H_Draws_Last_5 : Z;
  Draw_Tendency_Home : Q;
  Draw_Tendency_Away : Q;
  Avg_Home_GD_Last_5 : Q;
  Avg_Away_GD_Last_5 : Q;
  Elo_Difference : R
}.

(** ROW_NUMBER() OVER (ORDER BY date DESC) as rn ... WHERE rn <= 5 *)
Definition last_5 (rows : list match_row) : list match_row :=
  firstn 5 (sort_by (fun x y => date y <=? date x) rows).

Definition count_draws (rows : list match_row) : Z :=
  Z.of_nat (List.length (filter (fun m => result m =? 0) rows)).

Definition sum_Z (l : list Z) : Z := fold_right Z.add 0 l.

(** AVG(CAST(goal_diff AS FLOAT)): NULL over no rows. *)
Definition avg (l : list Z) : option Q :=
  match l with
  | [] => None
  | _ => Some (Qmake (sum_Z l) (Pos.of_nat (List.length l)))
  end.

(** CAST(SUM(CASE WHEN result = 0 THEN 1 ELSE 0 END) AS FLOAT)
    / NULLIF(COUNT( * ), 0): NULL over no rows. *)
Definition draw_tendency (rows : list match_row) : option Q :=
  match rows with
  | [] => None
  | _ => Some (Qmake (count_draws rows) (Pos.of_nat (List.length rows)))
  end.

(** [x if x is not None else 0], and [x or 0]: the same number. *)
Definition or_zero (x : option Q) : Q :=
  match x with
  | Some q => q
  | None => 0%Q
  end.

(** The body of get_match_features inside its try (database.py 393-521). *)
Definition get_match_features_body (d : db) (home_team_api_id away_team_api_id : Z)
  : outcome (option features) :=
  match team_by_api_id (teams d) home_team_api_id with
  | None => Ok None
  | Some hrow =>
    let home_team_id' := team_id hrow in
    match team_by_api_id (teams d) away_team_api_id with
    | None => Ok None
    | Some arow =>
      let away_team_id' := team_id arow in
      match team_by_id (teams d) home_team_id' with
      | None => Raise TypeError
      | Some ht =>
        match team_by_id (teams d) away_team_id' with
        | None => Raise TypeError
        | Some awt =>
          let home_elo := current_elo_rating ht in
          let away_elo := current_elo_rating awt in
          let elo_difference := (home_elo - away_elo)%R in
          let h2h := last_5 (filter (fun m =>
                       ((home_team_id m =? home_team_id') &&
                        (away_team_id m =? away_team_id')) ||
                       ((home_team_id m =? away_team_id') &&
                        (away_team_id m =? home_team_id'))) (matches d)) in
          let home_rows := last_5 (filter (fun m => home_team_id m =? home_team_id')
                                          (matches d)) in
          let away_rows := last_5 (filter (fun m => away_team_id m =? away_team_id')
                                          (matches d)) in
          Ok (Some (mk_features away_elo home_elo
                 (count_draws h2h)
                 (or_zero (draw_tendency home_rows))
                 (or_zero (draw_tendency away_rows))
                 (or_zero (avg (map (fun m => home_goals m - away_goals m) home_rows)))
                 (or_zero (avg (map (fun m => away_goals m - home_goals m) away_rows)))
                 elo_difference))
        end
      end
    end
  end.

(** database.py 389-528: every exception is caught and turned into None. *)
Definition get_match_features (d : db) (home_team_api_id away_team_api_id : Z)
  : option features :=
  match get_match_features_body d home_team_api_id away_team_api_id with
  | Ok r => r
  | Raise _ => None
  end.

(** def get_match_features(self, home_team_api_id, away_team_api_id) *)
Definition get_match_features_signature : signature :=
  mk_signature ["home_team_api_id"; "away_team_api_id"]%string [].

(** def get_match_features2(self, home_team_api_id, away_team_api_id,
    match_date=None) *)
Definition get_match_features2_signature : signature :=
  mk_signature ["home_team_api_id"; "away_team_api_id"]%string
               ["match_date"%string].

(** [cursor.fetchone()[0] if cursor.fetchone() else 1500.0] over the rows the
    query returned (database.py 720, 723): the condition takes the first row,
    the value is read off the next fetchone(). *)
Definition elo_of_cursor (rows : list team_row) : outcome R :=
  match rows with
  | [] => Ok 1500%R
  | _ :: rest =>
    match rest with
    | [] => Raise TypeError               (* None[0] *)
    | r :: _ => Ok (current_elo_rating r)
    end
  end.

(** SELECT current_elo_rating FROM teams WHERE team_id = ?
    [AND updated_at < ?] *)
Definition elo_query (ts : list team_row) (tid : Z) (match_date : option Z)
  : list team_row :=
  filter (fun t => (team_id t =? tid) &&
                   match match_date with
                   | Some md => updated_at t <? md
                   | None => true
                   end) ts.

(** [AND date < ?] appended to a WHERE clause when match_date is given. *)
Definition before (match_date : option Z) (m : match_row) : bool :=
  match match_date with
  | Some md => date m <? md
  | None => true
  end.

(** database.py 693-836.  In the head-to-head query the appended
    [AND date < ?] follows [... OR (home_team_id = ? AND away_team_id = ?)]
    with no enclosing parentheses, and AND binds tighter than OR. *)
Definition get_match_features2 (d : db) (home_team_api_id away_team_api_id : Z)
    (match_date : option Z) : outcome (option features) :=
  match team_by_api_id (teams d) home_team_api_id with
  | None => Ok None
  | Some hrow =>
    let home_team_id' := team_id hrow in
    match team_by_api_id (teams d) away_team_api_id with
    | None => Ok None
    | Some arow =>
      let away_team_id' := team_id arow in
      match elo_of_cursor (elo_query (teams d) home_team_id' match_date) with
      | Raise e => Raise e
      | Ok home_elo =>
        match elo_of_cursor (elo_query (teams d) away_team_id' match_date) with
        | Raise e => Raise e
        | Ok away_elo =>
          let elo_difference := (home_elo - away_elo)%R in
          let h2h := last_5 (filter (fun m =>
                       ((home_team_id m =? home_team_id') &&
                        (away_team_id m =? away_team_id')) ||
                       (((home_team_id m =? away_team_id') &&
                         (away_team_id m =? home_team_id')) &&
                        before match_date m)) (matches d)) in
          let home_rows := last_5 (filter (fun m =>
                       (home_team_id m =? home_team_id') && before match_date m)
                       (matches d)) in
          let away_rows := last_5 (filter (fun m =>
                       (away_team_id m =? away_team_id') && before match_date m)
                       (matches d)) in
          Ok (Some (mk_features away_elo home_elo
                 (count_draws h2h)
                 (or_zero (draw_tendency home_rows))
                 (or_zero (draw_tendency away_rows))
                 (or_zero (avg (map (fun m => home_goals m - away_goals m) home_rows)))
                 (or_zero (avg (map (fun m => away_goals m - home_goals m) away_rows)))
                 elo_difference))
        end
      end
    end
  end.

End Database.

(** UPDATE teams SET current_elo_rating = 1500.0 *)
Definition reset_ratings (ts : list team_row) : list team_row :=
  map (fun t => mk_team (team_id t) (api_team_id t) (name t) 1500%R (updated_at t))
      ts.

(** SELECT match_id, date FROM matches ORDER BY date ASC *)
Definition matches_by_date (ms : list match_row) : list match_row :=
  sort_by (fun x y => date x <=? date y) ms.

(** SELECT MAX(date) FROM matches: NULL over no rows. *)
Definition max_date (ms : list match_row) : option Z :=
  match ms with
  | [] => None
  | m :: rest => Some (fold_left Z.max (map date rest) (date m))
  end.

Module Rebuild.

(** The loop of process_historical_matches (database.py 329-343): an event
    id already in processed_matches is skipped, an exception of
    update_elo_ratings is logged and the loop goes on. *)
Fixpoint historical_loop (now : Z) (processed : list Z) (d : db)
    (ms : list match_row) : db * list Z :=
  match ms with
  | [] => (d, processed)
  | m :: rest =>
    if existsb (Z.eqb (match_id m)) processed
    then historical_loop now processed d rest
    else match Database.update_elo_ratings now d (match_id m) with
         | Ok d' => historical_loop now (match_id m :: processed) d' rest
         | Raise _ => historical_loop now processed d rest
         end
  end.

(** database.py 297-359. *)
Definition process_historical_matches (now : Z) (d : db) : db :=
  let d0 := set_teams d (reset_ratings (teams d)) in
  let ms := matches_by_date (matches d0) in
  match ms with
  | [] => d0
  | _ =>
    let '(d1, _) := historical_loop now [] d0 ms in
    match max_date (matches d1) with
    | Some day => Database.set_last_fetched_date d1 day
    | None => d1
    end
  end.

End Rebuild.

(** ** fix_elo.py *)

Module EloFixer.

(** The database file and its backup copy, when they exist. *)
Record files : Type := mk_files {
  db_path : option db;
  backup_path : option db
}.

(** Where the environment (SQLite, the disk) can make a stage raise: inside
    reset_elo_ratings, at the SELECT or at the final commit of
    process_matches_chronologically, or inside verify_elo_ratings. *)
Inductive fault : Type :=
| InReset
| AtSelect
| AtFinalCommit
| InVerify.

Definition fault_eqb (a b : fault) : bool :=
  match a, b with
  | InReset, InReset | AtSelect, AtSelect
  | AtFinalCommit, AtFinalCommit | InVerify, InVerify => true
  | _, _ => false
  end.

Definition hits (env : option fault) (f : fault) : bool :=
  match env with
  | Some g => fault_eqb g f
  | None => false
  end.

(** fix_elo.py 17-24 *)
Definition backup_database (fs : files) : outcome files :=
  match db_path fs with
  | Some d => Ok (mk_files (Some d) (Some d))
  | None => Raise FileNotFoundError
  end.

(** fix_elo.py 26-32 *)
Definition reset_elo_ratings (d : db) : db :=
  set_teams d (reset_ratings (teams d)).

(** fix_elo.py 34-94: an unknown match id is logged and ignored. *)
Definition update_elo_ratings (now : Z) (d : db) (mid : Z) : outcome db :=
  match match_by_id (matches d) mid with
  | None => Ok d
  | Some m =>
    match team_by_id (teams d) (home_team_id m) with
    | None => Raise TypeError
    | Some ht =>
      match team_by_id (teams d) (away_team_id m) with
      | None => Raise TypeError
      | Some awt =>
        let c := elo_computation (current_elo_rating ht)
                                 (current_elo_rating awt) (result m) in
        Ok (set_teams d
              (update_rating now (away_team_id m) (new_away_elo c)
                 (update_rating now (home_team_id m) (new_home_elo c)
                    (teams d))))
      end
    end
  end.

(** The loop of process_matches_chronologically (fix_elo.py 116-130). *)
Fixpoint chronological_loop (now : Z) (processed : list Z) (d : db)
    (ms : list match_row) : db * list Z :=
  match ms with
  | [] => (d, processed)
  | m :: rest =>
    if existsb (Z.eqb (match_id m)) processed
    then chronological_loop now processed d rest
    else match update_elo_ratings now d (match_id m) with
         | Ok d' => chronological_loop now (match_id m :: processed) d' rest
         | Raise _ => chronological_loop now processed d rest
         end
  end.

(** fix_elo.py 96-133 *)
Definition process_matches_chronologically (env : option fault) (now : Z)
    (d : db) : db * outcome unit :=
  if hits env AtSelect then (d, Raise OperationalError)
  else
    let '(d1, _) := chronological_loop now [] d (matches_by_date (matches d)) in
    if hits env AtFinalCommit then (d1, Raise OperationalError)
    else (d1, Ok tt).

(** fix_elo.py 167-195.  Every stage after the backup works on the database
    file; the handler copies the backup over it when the backup exists, and
    re-raises. *)
Definition fix_elo_ratings (env : option fault) (now : Z) (fs : files)
  : files * outcome unit :=
  let restore (cur : files) (e : exn) : files * outcome unit :=
    match backup_path cur with
    | Some b => (mk_files (Some b) (Some b), Raise e)
    | None => (cur, Raise e)
    end in
  match backup_database fs with
  | Raise e => restore fs e
  | Ok fs1 =>
    match db_path fs1 with
    | None => restore fs1 OperationalError    (* no such table: teams *)
    | Some d =>
      if hits env InReset then restore fs1 OperationalError
      else
        let d1 := reset_elo_ratings d in
        let '(d2, r) := process_matches_chronologically env now d1 in
        let fs2 := mk_files (Some d2) (backup_path fs1) in
        match r with
        | Raise e => restore fs2 e
        | Ok _ =>
          if hits env InVerify then restore fs2 OperationalError
          else (fs2, Ok tt)
        end
    end
  end.

End EloFixer.

(** ** services/football_api.py *)

Module FootballAPIService.

Definition max_retries : nat := 3.
Definition initial_retry_delay : Z := 5.

(** async def _make_request(self, endpoint, params=None) *)
Definition _make_request_signature : signature :=
  mk_signature ["endpoint"%string] ["params"%string].

(** What json.loads makes of the body of a 429 reply, as far as line 74
    looks at it: an object with or without the key 'message', whose value is
    a string or not, or some other JSON value. *)
Inductive json_value : Type :=
| JString (s : string)
| JNotString.

Inductive json : Type :=
| JObject (message : option json_value)
| JNotObject.

(** One HTTP exchange.  [SessionError]: session.get raises.  [Status200 r]:
    what response.json() and the logging of lines 56-68 give, a payload or an
    exception.  [Status429 body]: json.loads of the error text, None when it
    raises JSONDecodeError. *)
Inductive http_reply (payload : Type) : Type :=
| SessionError
| Status200 (r : outcome payload)
| Status429 (body : option json)
| StatusOther (status : Z).
Arguments SessionError {payload}.
Arguments Status200 {payload} r.
Arguments Status429 {payload} body.
Arguments StatusOther {payload} status.

(** The dict a request resolves to: the payload, or one with the key 'error'. *)
Inductive error_value : Type :=
| RequestFailedWithStatus (status : Z)
| RequestErrorAfterAttempts
| FailedToCompleteRequest.

Inductive api_result (payload : Type) : Type :=
| Data (data : payload)
| ErrorDict (e : error_value).
Arguments Data {payload} data.
Arguments ErrorDict {payload} e.

(** The parts of [s] before and after the first occurrence of [sep]. *)
Definition find_sep (sep s : string) : option (string * string) :=
  match index 0 sep s with
  | Some i =>
    Some (substring 0 i s,
          substring (i + String.length sep)
                    (String.length s - (i + String.length sep)) s)
  | None => None
  end.

(** s.split(sep)[0] *)
Definition split_0 (sep s : string) : string :=
  match find_sep sep s with
  | Some (b, _) => b
  | None => s
  end.

(** s.split(sep)[1]: None is IndexError. *)
Definition split_1 (sep s : string) : option string :=
  match find_sep sep s with
  | Some (_, rest) => Some (split_0 sep rest)
  | None => None
  end.

Section Request.

Context {payload : Type}.

(** float() on a string: None is ValueError; the values are the finite ones. *)
Variable float : string -> option Q.

(** initial_retry_delay * (2 ** attempt) *)
Definition exponential_delay (attempt : nat) : Q :=
  inject_Z (initial_retry_delay * 2 ^ Z.of_nat attempt).

(** Lines 72-76: the wait a 429 reply asks for, the exponential delay when
    json.loads, the indexing or float() raise one of the three exceptions
    caught there; AttributeError (a body that is no object, a message that is
    no string) is not among them. *)
Definition wait_time_of (attempt : nat) (body : option json) : outcome Q :=
  match body with
  | None => Ok (exponential_delay attempt)
  | Some JNotObject => Raise AttributeError
  | Some (JObject (Some JNotString)) => Raise AttributeError
  | Some (JObject msg) =>
    let message := match msg with
                   | Some (JString s) => s
                   | _ => EmptyString
                   end in
    match split_1 "Wait " message with
    | None => Ok (exponential_delay attempt)
    | Some after_wait =>
      match float (split_0 " seconds" after_wait) with
      | Some w => Ok w
      | None => Ok (exponential_delay attempt)
      end
    end
  end.

(** The for loop of lines 48-94 from [attempt] on, [remaining] iterations
    left; [slept] lists, oldest first, the attempt and the argument of each
    asyncio.sleep. *)
Fixpoint request_loop (reply : nat -> http_reply payload) (attempt remaining : nat)
    (slept : list (nat * Q)) : api_result payload * list (nat * Q) :=
  match remaining with
  | O => (ErrorDict FailedToCompleteRequest, slept)
  | S k =>
    let on_exception :=
      if (attempt <? max_retries)%nat
      then request_loop reply (S attempt) k
                        (slept ++ [(attempt, exponential_delay attempt)])
      else (ErrorDict RequestErrorAfterAttempts, slept) in
    match reply attempt with
    | SessionError => on_exception
    | Status200 (Ok data) => (Data data, slept)
    | Status200 (Raise _) => on_exception
    | Status429 body =>
      match wait_time_of attempt body with
      | Ok wait_time =>
        request_loop reply (S attempt) k
                     (slept ++ [(attempt, Qmin wait_time 60)])
      | Raise _ => on_exception
      end
    | StatusOther status => (ErrorDict (RequestFailedWithStatus status), slept)
    end
  end.

(** football_api.py 35-94 *)
Definition _make_request (reply : nat -> http_reply payload)
  : api_result payload * list (nat * Q) :=
  request_loop reply 0 (max_retries + 1) [].

End Request.

(** float() on plain decimal literals: digits with an optional fraction. *)
Definition digit_of (c : ascii) : option Z :=
  let n := Z.of_nat (nat_of_ascii c) in
  if (48 <=? n) && (n <=? 57) then Some (n - 48) else None.

Fixpoint decimal_digits (s : string) (acc : Z) (scale : positive)
    (in_fraction : bool) : option Q :=
  match s with
  | EmptyString => Some (Qmake acc scale)
  | String c rest =>
    if Ascii.eqb c "."%char
    then if in_fraction then None
         else match rest with
              | EmptyString => None
              | _ => decimal_digits rest acc scale true
              end
    else match digit_of c with
         | Some dgt =>
           decimal_digits rest (10 * acc + dgt)
                          (if in_fraction then (10 * scale)%positive else scale)
                          in_fraction
         | None => None
         end
  end.

Definition float_decimal (s : string) : option Q :=
  match s with
  | EmptyString => None
  | String c _ => if Ascii.eqb c "."%char then None
                  else decimal_digits s 0 1 false
  end.

End FootballAPIService.

(** ** scheduler.py *)

Module MatchUpdater.

Import FootballAPIService.

(** A datetime is its number of microseconds since 1970-01-01T00:00 UTC. *)
Definition day_us : Z := 86400000000.
Definition timedelta_days (n : Z) : Z := n * day_us.
(** dt.date(), as a day number *)
Definition date_of (dt : Z) : Z := dt / day_us.
(** datetime(2024, 8, 1, tzinfo=timezone.utc) *)
Definition season_start : Z := 19936 * day_us.

Record team_ref : Type := mk_team_ref {
  ref_id : Z;
  ref_name : string
}.

(** The dict update_matches builds for one upstream match (lines 239-253). *)
Record raw_match : Type := mk_raw_match {
  rm_match_id : Z;
  rm_date : Z;
  rm_home_team : team_ref;
  rm_away_team : team_ref;
  rm_status : string;
  rm_home_goals : option Z;
  rm_away_goals : option Z
}.

(** What the environment hands to one synchronisation pass: the clock read
    in _get_season_end_date and at line 174, what the request for the season
    resolves to (the currentSeason.endDate of the payload, when it has one),
    and what _make_request('matches', params) resolves to for dateFrom and
    dateTo.  An upstream match is the dict lines 226-253 build from it, or
    None when building it raises. *)
Record environment : Type := mk_environment {
  season_clock : Z;
  clock : Z;
  season_request : api_result (option Z);
  request : Z -> Z -> api_result (option (list (option raw_match)))
}.

Definition chunk_size : Z := 5.

(** scheduler.py 39-56 *)
Definition get_last_match_date (d : db) : option Z :=
  option_map (fun day => day * day_us) (max_date (matches d)).

(** scheduler.py 58-72.  Line 61 calls _make_request() with no argument;
    every exception is caught at line 70 and answered with
    datetime.now(timezone.utc). *)
Definition _get_season_end_date (env : environment) : Z :=
  match bind_arguments _make_request_signature 0 [] with
  | Raise _ => season_clock env
  | Ok _ =>
    match season_request env with
    | ErrorDict _ => season_clock env
    | Data (Some end_date) => end_date
    | Data None => season_clock env
    end
  end.

(** The while loop of _get_date_chunks; None when the fuel runs out. *)
Fixpoint date_chunks_loop (fuel : nat) (current_start end_date size : Z)
  : option (list (Z * Z)) :=
  if current_start <? end_date then
    match fuel with
    | O => None
    | S f =>
      let chunk_end := Z.min (current_start + timedelta_days size) end_date in
      option_map (cons (current_start, chunk_end))
                 (date_chunks_loop f (chunk_end + timedelta_days 1) end_date size)
    end
  else Some [].

(** scheduler.py 160-168 *)
Definition _get_date_chunks (start_date end_date size : Z)
  : option (list (Z * Z)) :=
  date_chunks_loop (Z.to_nat ((end_date - start_date) / day_us + 1))
                   start_date end_date size.

Section Passes.

(** model_service.predict (model_service.prepare_features features) *)
Variable predict : Database.features -> R * R * R.

(** The body of the for loop of process_new_matches (lines 80-151): the
    store (it keeps what was committed before an exception), whether
    added_count was incremented, and the exception that ended the iteration.
    Lines 97-101 call get_match_features with two positional arguments and
    the keyword match_date. *)
Definition process_match (now : Z) (d : db) (m : raw_match)
  : db * bool * option exn :=
  if negb (String.eqb (rm_status m) "FINISHED") then (d, false, None)
  else if existsb (Database.same_api_match_id (rm_match_id m)) (matches d)
  then (d, false, None)
  else
    match bind_arguments Database.get_match_features_signature 2
                         ["match_date"%string] with
    | Raise e => (d, false, Some e)
    | Ok _ =>
      let feats := Database.get_match_features d (ref_id (rm_home_team m))
                                               (ref_id (rm_away_team m)) in
      let probs := option_map predict feats in
      match rm_home_goals m, rm_away_goals m with
      | Some hg, Some ag =>
        let match_data :=
          Database.mk_match_data (Some (rm_match_id m))
            (ref_id (rm_home_team m)) (ref_id (rm_away_team m))
            (Some (ref_name (rm_home_team m))) (Some (ref_name (rm_away_team m)))
            (rm_date m) hg ag
            (if ag <? hg then -1 else if hg =? ag then 0 else 1) in
        let '(d1, added) := Database.add_new_match now d match_data in
        match added with
        | Some mid =>
          if mid =? 0 then (d1, false, None)
          else
            let d2 := match probs with
                      | Some p => Database.insert_match_prediction d1 mid p
                      | None => d1
                      end in
            match Database.update_elo_ratings now d2 mid with
            | Ok d3 => (d3, true, None)
            | Raise e => (d2, true, Some e)
            end
        | None => (d1, false, None)
        end
      | _, _ => (d, false, Some TypeError)   (* None > None, int > None *)
      end
    end.

(** scheduler.py 74-158: the exception of one match is logged and the loop
    goes on; the result is added_count. *)
Fixpoint process_new_matches (now : Z) (d : db) (ms : list raw_match)
  : db * Z :=
  match ms with
  | [] => (d, 0)
  | m :: rest =>
    let '(d1, added, _) := process_match now d m in
    let '(d2, n) := process_new_matches now d1 rest in
    (d2, if added then 1 + n else n)
  end.

(** Lines 225-254: the matches of one chunk are appended to all_matches
    until building one raises, which ends the chunk (line 257). *)
Fixpoint append_matches (upstream : list (option raw_match))
    (all_matches : list raw_match) : list raw_match :=
  match upstream with
  | [] => all_matches
  | Some m :: rest => append_matches rest (all_matches ++ [m])
  | None :: _ => all_matches
  end.

(** The for loop of lines 209-259; [asked] lists the (dateFrom, dateTo) of
    the requests made, oldest first. *)
Fixpoint fetch_chunks (env : environment) (chunks : list (Z * Z))
    (all_matches : list raw_match) (asked : list (Z * Z))
  : list raw_match * list (Z * Z) :=
  match chunks with
  | [] => (all_matches, asked)
  | (chunk_start, chunk_end) :: rest =>
    let params := (date_of chunk_start, date_of chunk_end) in
    let all_matches' :=
      match request env (fst params) (snd params) with
      | ErrorDict _ => all_matches
      | Data None => all_matches
      | Data (Some upstream) => append_matches upstream all_matches
      end in
    fetch_chunks env rest all_matches' (asked ++ [params])
  end.

(** scheduler.py 170-272.  The result is the store and the requests made;
    None stands for a pass whose chunking loop does not come to an end. *)
Definition update_matches (env : environment) (d : db)
  : option (db * list (Z * Z)) :=
  let season_end_date := _get_season_end_date env in
  let now := clock env in
  let last_match_date := get_last_match_date d in
  if match last_match_date with
     | Some l => date_of season_end_date <=? date_of l
     | None => false
     end
  then Some (Database.set_last_fetched_date d (date_of now), [])
  else
    let to_date := season_end_date + timedelta_days 1 in
    let from_date :=
      match last_match_date with
      | Some l => date_of (l - timedelta_days 10) * day_us
      | None => season_start
      end in
    if to_date <? from_date
    then Some (Database.set_last_fetched_date d (date_of now), [])
    else
      match _get_date_chunks from_date to_date chunk_size with
      | None => None
      | Some date_chunks =>
        let '(all_matches, asked) := fetch_chunks env date_chunks [] [] in
        let d1 := match all_matches with
                  | [] => d
                  | _ => fst (process_new_matches (date_of now) d all_matches)
                  end in
        Some (Database.set_last_fetched_date d1 (date_of now), asked)
      end.

End Passes.

End MatchUpdater.

(** ** Notions the properties are stated with *)

(** The natural key of an event. *)
Definition triple (m : match_row) : Z * Z * Z :=
  (date m, home_team_id m, away_team_id m).

(** No two events share a natural key, and the two teams of every event
    have a row (the duplicate queries of add_new_match join teams). *)
Definition store_ok (d : db) : Prop :=
  NoDup (map triple (matches d)) /\
  forall m, In m (matches d) -> Database.joins_teams (teams d) m = true.

(** The store _init_db creates. *)
Definition empty_db : db := mk_db [] [] [] None 0 0.

(** A sequence of add_new_match calls, each with the day it is made on. *)
Definition add_all (d : db) (steps : list (Z * Database.match_data)) : db :=
  fold_left (fun d s => fst (Database.add_new_match (fst s) d (snd s))) steps d.

(** The row the lookup by API id returns has this team_id. *)
Definition first_api (ts : list team_row) (api tid : Z) : Prop :=
  exists t, Database.team_by_api_id ts api = Some t /\ team_id t = tid.

(** The rebuild in the words of the specification: one event folded into
    the ratings of its two sides, and the events of a list folded in turn. *)
Definition rate (now : Z) (ts : list team_row) (m : match_row) : list team_row :=
  match team_by_id ts (home_team_id m), team_by_id ts (away_team_id m) with
  | Some ht, Some awt =>
    let c := elo_computation (current_elo_rating ht) (current_elo_rating awt)
                             (result m) in
    update_rating now (away_team_id m) (new_away_elo c)
      (update_rating now (home_team_id m) (new_home_elo c) ts)
  | _, _ => ts
  end.

Definition replay (now : Z) (ts : list team_row) (ms : list match_row)
  : list team_row :=
  fold_left (rate now) ms ts.

(** What is slept after attempt [a] that met [r]. *)
Definition wait_after {payload : Type} (float : string -> option Q)
    (r : FootballAPIService.http_reply payload) (a : nat) (w : Q) : Prop :=
  match r with
  | FootballAPIService.Status429 body =>
    match FootballAPIService.wait_time_of float a body with
    | Ok suggested => w = Qmin suggested 60
    | Raise _ => w = FootballAPIService.exponential_delay a
    end
  | _ => w = FootballAPIService.exponential_delay a
  end.

(** ** Stores, events and replies used as examples *)

Import FootballAPIService.
Import MatchUpdater.

(** Two teams at the default rating, and a 2-0 home win between them. *)
Definition example_teams : list team_row :=
  [mk_team 1 (Some 57) "Arsenal" 1500%R 0;
   mk_team 2 (Some 61) "Chelsea" 1500%R 0].

Definition example_match : match_row := mk_match 1 (Some 9001) 1 2 1 2 0 (-1).

Definition example_db : db := mk_db example_teams [example_match] [] None 2 1.

(** The record of that match as add_new_match receives it, with and
    without an API match id, and as process_new_matches receives it. *)
Definition arsenal_chelsea (api_mid : option Z) : Database.match_data :=
  Database.mk_match_data api_mid 57 61 (Some "Arsenal"%string)
    (Some "Chelsea"%string) 20000 2 0 (-1).


Definition fresh_match : MatchUpdater.raw_match :=
  MatchUpdater.mk_raw_match 9001 20000
    (MatchUpdater.mk_team_ref 57 "Arsenal") (MatchUpdater.mk_team_ref 61 "Chelsea")
    "FINISHED" (Some 2) (Some 0).

Definition three_records : list (Z * Database.match_data) :=
  [(1, arsenal_chelsea (Some 9001));
   (2, arsenal_chelsea (Some 9002));
   (3, arsenal_chelsea None)].



(** Two stores with the same teams, both last updated on day 30, that hold
    the same events before day 20: none.  The second holds a draw of day 25
    between team 1 at home and team 2. *)
Definition teams_updated_30 : list team_row :=
  [mk_team 1 (Some 57) "Arsenal" 1500%R 30;
   mk_team 2 (Some 61) "Chelsea" 1500%R 30].

Definition store_without_later : db := mk_db teams_updated_30 [] [] None 2 0.

Definition store_with_later : db :=
  mk_db teams_updated_30 [mk_match 1 (Some 9001) 1 2 25 1 1 0] [] None 2 1.

(** A store with an event whose away team has no row (SQLite does not
    enforce the foreign keys of matches unless asked to). *)
Definition dangling_store : db :=
  mk_db [mk_team 1 (Some 57) "Arsenal" 1600%R 0]
        [mk_match 1 (Some 9001) 1 99 1 2 0 (-1)] [] None 1 1.

(** A store whose teams are not at the default rating, with three events
    stored out of the order of their dates, the second by date referring to
    a team that has no row. *)
Definition rebuild_store : db :=
  mk_db [mk_team 1 (Some 57) "Arsenal" 1600%R 0;
         mk_team 2 (Some 61) "Chelsea" 1400%R 0]
        [mk_match 1 (Some 9001) 1 2 5 2 0 (-1);
         mk_match 2 (Some 9002) 2 1 3 1 1 0;
         mk_match 3 (Some 9003) 1 99 4 0 1 1] [] None 2 3.

(** A 429 reply that suggests a wait, then a 200 reply. *)
Definition limited_once (seconds : string) (attempt : nat) : http_reply unit :=
  match attempt with
  | O => Status429 (Some (JObject (Some (JString
           ("You reached your request limit. Wait " ++ seconds ++ " seconds.")%string))))
  | _ => Status200 (Ok tt)
  end.

(** 429 replies whose body is not JSON, for ever. *)
Definition always_limited (attempt : nat) : http_reply unit := Status429 None.

(** A pass on day 20000 over a store with no match: the window runs from
    the season start to the next day, and every request fails. *)
Definition failing_environment : environment :=
  mk_environment (20000 * day_us) (20000 * day_us)
                 (ErrorDict RequestErrorAfterAttempts)
                 (fun _ _ => ErrorDict RequestErrorAfterAttempts).

(** ** Further methods of database.py *)

Module DatabaseReads.

(** database.py 851-867: SELECT ... FROM match_predictions WHERE match_id = ?,
    fetchone(). *)
Definition get_prediction_for_match (d : db) (mid : Z) : option (R * R * R) :=
  option_map (fun r => (home_win_probability r, draw_probability r,
                        away_win_probability r))
             (find (fun r => pred_match_id r =? mid) (match_predictions d)).

End DatabaseReads.

(** ** services/football_api.py: the current matchday and the fixtures *)

Module Matchday.

(** self.current_matchday and self.last_matchday_update *)
Record service : Type := mk_service {
  current_matchday : option Z;
  last_matchday_update : option Z
}.

(** timedelta(hours=6), in microseconds *)
Definition update_interval : Z := 6 * 3600 * 1000000.
Definition max_matchday : Z := 38.

(** What the methods read off the payload of competitions/PL:
    data['currentSeason']['endDate'] parsed as a datetime, and
    min(data['currentSeason']['currentMatchday'], self.max_matchday); each
    raises when the key is missing, the date does not parse (ValueError) or
    the value is not a number (TypeError). *)
Record competition : Type := mk_competition {
  endDate : outcome Z;
  currentMatchday : outcome Z
}.

(** The handler of update_current_matchday (lines 140-143): the exception is
    raised again only when no matchday is known. *)
Definition swallow_if_known (s : service) (e : exn) : service * outcome unit :=
  match current_matchday s with
  | None => (s, Raise e)
  | Some _ => (s, Ok tt)
  end.

(** football_api.py 104-143; [reply] is what _make_request('competitions/PL')
    resolves to.  The request of _get_matches_for_matchday (line 130) changes
    nothing: both branches of lines 131-136 store api_matchday. *)
Definition update_current_matchday (now : Z) (reply : api_result competition)
    (s : service) : service * outcome unit :=
  if match last_matchday_update s, current_matchday s with
     | Some last, Some _ => now - last <? update_interval
     | _, _ => false
     end
  then (s, Ok tt)
  else
    match reply with
    | ErrorDict _ => swallow_if_known s ValueError
    | Data data =>
      match endDate data with
      | Raise e => swallow_if_known s e
      | Ok end_date =>
        if end_date <? now
        then (mk_service (Some 38) (Some now), Ok tt)
        else
          match currentMatchday data with
          | Raise e => swallow_if_known s e
          | Ok m => (mk_service (Some (Z.min m max_matchday)) (Some now), Ok tt)
          end
      end
    end.

(** football_api.py 160-164 *)
Definition get_current_matchday (s : service) : outcome Z :=
  match current_matchday s with
  | None => Raise ValueError
  | Some m => Ok m
  end.

(** The dict get_upcoming_fixtures builds for one upstream match
    (lines 202-230), as far as its callers read it. *)
Record fixture : Type := mk_fixture {
  fx_match_id : Z;
  fx_date : Z;                      (* a datetime *)
  fx_home_team : team_ref;
  fx_away_team : team_ref;
  fx_status : string
}.

(** What the environment hands to one call of get_upcoming_fixtures: the
    clock and the reply read by update_current_matchday, the clock and the
    reply of its own request for the competition, and what the request for
    the matches of a matchday resolves to: the value of the key 'matches'
    when the payload has it, each match being the dict built from it, or None
    when building it raises. *)
Record fixtures_environment : Type := mk_fixtures_environment {
  update_clock : Z;
  update_reply : api_result competition;
  fixtures_clock : Z;
  competition_reply : api_result competition;
  matches_reply : Z -> api_result (option (list (option fixture)))
}.

(** The for loop of lines 201-231: None when building a dict raises. *)
Fixpoint build_fixtures (upstream : list (option fixture)) : option (list fixture) :=
  match upstream with
  | [] => Some []
  | Some f :: rest => option_map (cons f) (build_fixtures rest)
  | None :: _ => None
  end.

(** football_api.py 166-239: the service, the matchday asked for when the
    request for the matches was made, and the fixtures.  Every exception ends
    in the empty list (line 237). *)
Definition get_upcoming_fixtures (env : fixtures_environment)
    (matchday : option Z) (s : service) : service * option Z * list fixture :=
  let '(s1, known) :=
    match matchday with
    | Some m => (s, Ok m)
    | None =>
      match update_current_matchday (update_clock env) (update_reply env) s with
      | (s', Raise e) => (s', Raise e)
      | (s', Ok _) => (s', get_current_matchday s')
      end
    end in
  match known with
  | Raise _ => (s1, None, [])
  | Ok m =>
    match competition_reply env with
    | ErrorDict _ => (s1, None, [])
    | Data data =>
      match endDate data with
      | Raise _ => (s1, None, [])
      | Ok end_date =>
        if end_date <? fixtures_clock env then (s1, None, [])
        else
          let asked := Z.min m max_matchday in
          match matches_reply env asked with
          | ErrorDict _ => (s1, Some asked, [])
          | Data None => (s1, Some asked, [])
          | Data (Some upstream) =>
            match build_fixtures upstream with
            | None => (s1, Some asked, [])
            | Some fixtures =>
              (s1, Some asked,
               sort_by (fun x y => fx_date x <=? fx_date y) fixtures)
            end
          end
      end
    end
  end.

End Matchday.

(** ** services/model_service.py *)

Module ModelService.

(** np.clip(x, a_min, a_max) *)
Definition clip (x a_min a_max : R) : R := Rmin a_max (Rmax x a_min).

Section Model.

(** self.scaler.transform on a frame of one row: the scaled row.  The
    scaler is taken to return one (it does not raise). *)
Variable transform : list R -> list R.

(** self.model.predict_proba(X)[0], read at its first three entries; an
    exception of the model or of the indexing is a [Raise]. *)
Variable predict_proba : list R -> outcome (R * R * R).

(** The values lines 67-76 put in the frame: every key is in the dict
    get_match_features returns, the difference is computed again. *)
Definition feature_values (f : Database.features) : list R :=
  let home_elo := Database.Home_Elo f in
  let away_elo := Database.Away_Elo f in
  let elo_difference := (home_elo - away_elo)%R in
  [away_elo;
   home_elo;
   IZR (Database.H2H_Draws_Last_5 f);
   Q2R (Database.Draw_Tendency_Home f);
   Q2R (Database.Draw_Tendency_Away f);
   Q2R (Database.Avg_Home_GD_Last_5 f);
   Q2R (Database.Avg_Away_GD_Last_5 f);
   elo_difference].

(** model_service.py 45-95 *)
Definition prepare_features (f : Database.features) : list R :=
  map (fun x => clip x (-3) 3) (transform (feature_values f)).

(** model_service.py 97-126 *)
Definition predict (x : list R) : R * R * R :=
  match predict_proba x with
  | Ok probabilities => probabilities
  | Raise _ => ((4 / 10)%R, (3 / 10)%R, (3 / 10)%R)
  end.

End Model.

End ModelService.

(** ** main.py: POST /predict/ *)

Module Main.

(** What an endpoint does: it returns a body or raises an HTTPException. *)
Inductive response (A : Type) : Type :=
| Returns (body : A)
| HTTPException (status_code : Z).
Arguments Returns {A} body.
Arguments HTTPException {A} status_code.

Record prediction_response : Type := mk_prediction_response {
  probabilities : R * R * R;          (* home win, draw, away win *)
  response_features : Database.features
}.

Section Endpoints.

Variable transform : list R -> list R.
Variable predict_proba : list R -> outcome (R * R * R).

(** The scalar subquery (SELECT team_id FROM teams WHERE api_team_id = ?):
    NULL when no row has the id. *)
Definition team_id_of_api_id (d : db) (api_id : Z) : option Z :=
  option_map team_id (Database.team_by_api_id (teams d) api_id).

(** Lines 92-99: SELECT match_id FROM matches WHERE home_team_id = (...) AND
    away_team_id = (...) AND date >= ? ORDER BY date ASC LIMIT 1. *)
Definition next_match (today : Z) (d : db) (home_api_id away_api_id : Z)
  : option match_row :=
  match team_id_of_api_id d home_api_id, team_id_of_api_id d away_api_id with
  | Some home, Some away =>
    hd_error
      (matches_by_date
         (filter (fun m => (home_team_id m =? home) && (away_team_id m =? away)
                           && (today <=? date m)) (matches d)))
  | _, _ => None
  end.

(** The try block of predict_match_new (lines 80-112). *)
Definition predict_match_new_body (today : Z) (d : db)
    (home_api_id away_api_id : Z) : db * response prediction_response :=
  match Database.get_match_features d home_api_id away_api_id with
  | None => (d, HTTPException 404)
  | Some feats =>
    let prepared := ModelService.prepare_features transform feats in
    let probs := ModelService.predict predict_proba prepared in
    let d' := match next_match today d home_api_id away_api_id with
              | Some m => Database.insert_match_prediction d (match_id m) probs
              | None => d
              end in
    (d', Returns (mk_prediction_response probs feats))
  end.

(** main.py 77-116: the handler of line 115 catches every Exception, the
    HTTPException of line 83 among them, and raises one with status 500. *)
Definition predict_match_new (today : Z) (d : db) (home_api_id away_api_id : Z)
  : db * response prediction_response :=
  match predict_match_new_body today d home_api_id away_api_id with
  | (d', HTTPException _) => (d', HTTPException 500)
  | (d', Returns body) => (d', Returns body)
  end.

End Endpoints.

End Main.

(** ** database.py: the start-up of Database() *)

Module Startup.

(** A database file with the tables of the current schema, or a new one:
    whether the matches table is there before _init_db runs, the row
    'historical_matches_processed' of system_settings ('true', 'false', or no
    row), and the rows of the tables. *)
Record database_file : Type := mk_database_file {
  matches_table_exists : bool;
  historical_matches_processed : option bool;
  content : db
}.

(** database.py 50-214, for such a file: the tables that are missing are
    created, and lines 184-207 decide on the rebuild.  [skip] is
    self.skip_historical_processing. *)
Definition _init_db (skip : bool) (now : Z) (f : database_file) : database_file :=
  match historical_matches_processed f with
  | None =>
    if matches_table_exists f && negb skip
    then mk_database_file true (Some true)
           (Rebuild.process_historical_matches now (content f))
    else mk_database_file true (Some false) (content f)
  | Some value =>
    if negb value && negb skip
    then mk_database_file true (Some true)
           (Rebuild.process_historical_matches now (content f))
    else mk_database_file true (Some value) (content f)
  end.

(** database.py 228-234 *)
Definition is_historical_matches_processed (f : database_file) : bool :=
  match historical_matches_processed f with
  | Some true => true
  | _ => false
  end.

End Startup.

(** ** backfill_predictions.py *)

Module Backfill.

Section Script.

Variable transform : list R -> list R.
Variable predict_proba : list R -> outcome (R * R * R).

(** The rows of the SELECT of lines 22-29: match_id and the API ids of the
    two teams, for the matches that join a team on both sides, ordered by
    date.  The bounds are bound as datetimes, which SQLite compares as the
    texts 'YYYY-MM-DD HH:MM:SS' with the stored 'YYYY-MM-DD': a match on the
    day of [season_start] is below the lower bound, a match on the day of
    [now] is below the upper one.  [season_start] is the first of August of
    the year of [now], or of the year before when [now] is before August;
    home_goals and away_goals are NOT NULL by the schema. *)
Definition season_rows (season_start now : Z) (d : db)
  : list (Z * option Z * option Z) :=
  flat_map
    (fun m =>
       match team_by_id (teams d) (home_team_id m),
             team_by_id (teams d) (away_team_id m) with
       | Some ht, Some awt => [(match_id m, api_team_id ht, api_team_id awt)]
       | _, _ => []
       end)
    (matches_by_date
       (filter (fun m => (season_start <? date m) && (date m <=? now))
               (matches d))).

(** db.get_match_features(home_api_id, away_api_id): no team has the API id
    NULL. *)
Definition features_of (d : db) (home_api_id away_api_id : option Z)
  : option Database.features :=
  match home_api_id, away_api_id with
  | Some h, Some a => Database.get_match_features d h a
  | _, _ => None
  end.

(** The for loop of lines 35-57; LIMIT is None, so that line 56 is never
    evaluated. *)
Fixpoint backfill_loop (d : db) (rows : list (Z * option Z * option Z))
    (count : Z) : db * Z :=
  match rows with
  | [] => (d, count)
  | (mid, home_api_id, away_api_id) :: rest =>
    match DatabaseReads.get_prediction_for_match d mid with
    | Some _ => backfill_loop d rest count
    | None =>
      match features_of d home_api_id away_api_id with
      | None => backfill_loop d rest count
      | Some feats =>
        let prepared := ModelService.prepare_features transform feats in
        let probs := ModelService.predict predict_proba prepared in
        backfill_loop (Database.insert_match_prediction d mid probs) rest
                      (count + 1)
      end
    end
  end.

(** backfill_predictions.py 11-60.  Line 12, db = Database(), runs _init_db
    on the file (on day [started], without skip_historical_processing);
    ModelService() is taken to load; then the rows are read and the loop
    runs.  The result is the file and the count the script prints. *)
Definition main (started season_start now : Z) (f : Startup.database_file)
  : Startup.database_file * Z :=
  let f1 := Startup._init_db false started f in
  let '(d', count) :=
    backfill_loop (Startup.content f1)
                  (season_rows season_start now (Startup.content f1)) 0 in
  (Startup.mk_database_file (Startup.matches_table_exists f1)
                            (Startup.historical_matches_processed f1) d',
   count).

End Script.

End Backfill.

(** ** Further notions the properties are stated with *)

(** The values of a column that are not NULL. *)
Fixpoint somes {A : Type} (l : list (option A)) : list A :=
  match l with
  | [] => []
  | Some x :: l' => x :: somes l'
  | None :: l' => somes l'
  end.

(** What the schema of _init_db asks of the teams and matches tables: the
    primary keys are distinct and not above the AUTOINCREMENT counters,
    api_team_id and api_match_id are UNIQUE where they are not NULL, and
    unique_match_constraint holds among the rows whose api_match_id is
    NULL. *)
Definition schema_ok (d : db) : Prop :=
  NoDup (map team_id (teams d)) /\
  (forall t, In t (teams d) -> team_id t <= teams_seq d) /\
  NoDup (somes (map api_team_id (teams d))) /\
  NoDup (map match_id (matches d)) /\
  (forall m, In m (matches d) -> match_id m <= matches_seq d) /\
  NoDup (somes (map api_match_id (matches d))) /\
  NoDup (map triple
           (filter (fun m => match api_match_id m with
                             | None => true
                             | Some _ => false
                             end) (matches d))).

(** The part of [schema_ok] that is about teams. *)
Definition teams_ok (d : db) : Prop :=
  NoDup (map team_id (teams d)) /\
  (forall t, In t (teams d) -> team_id t <= teams_seq d) /\
  NoDup (somes (map api_team_id (teams d))).

(** A team row without its API id. *)
Definition team_core (t : team_row) : Z * string * R * Z :=
  (team_id t, name t, current_elo_rating t, updated_at t).

(** The ratings of a teams table, by team_id. *)
Definition ratings (ts : list team_row) : list (Z * R) :=
  map (fun t => (team_id t, current_elo_rating t)) ts.

(** A reply that does not end the loop of _make_request by itself: neither
    a 200 reply whose payload could be read nor a status other than 200 and
    429. *)
Definition retryable {payload : Type}
    (r : FootballAPIService.http_reply payload) : bool :=
  match r with
  | FootballAPIService.Status200 (Ok _) => false
  | FootballAPIService.StatusOther _ => false
  | _ => true
  end.

(** * Properties *)

(** ** The rating computation *)

Lemma team_by_id_update_rating now tid elo ts tid' :
  team_by_id (update_rating now tid elo ts) tid' =
  if tid' =? tid
  then option_map (fun t => mk_team (team_id t) (api_team_id t) (name t) elo now)
                  (team_by_id ts tid')
  else team_by_id ts tid'.
Proof.
  unfold team_by_id, update_rating.
  induction ts as [|t ts IH]; simpl.
  - now destruct (tid' =? tid).
  - destruct (team_id t =? tid) eqn:Et; simpl.
    + destruct (team_id t =? tid') eqn:Et'.
      * apply Z.eqb_eq in Et, Et'. subst. rewrite Z.eqb_refl. reflexivity.
      * exact IH.
    + destruct (team_id t =? tid') eqn:Et'.
      * apply Z.eqb_eq in Et'. subst. rewrite Et. reflexivity.
      * exact IH.
Qed.

Lemma pow10_home_advantage_power :
  (pow10 ((1500 - (1500 + HOME_ADVANTAGE)) / 400) ^ 40 = / 10 ^ 7)%R.
Proof.
  unfold pow10, HOME_ADVANTAGE.
  rewrite <- Rpower_pow by apply exp_pos.
  rewrite Rpower_mult.
  replace ((1500 - (1500 + 70)) / 400 * INR 40)%R with (- INR 7)%R
    by (simpl; lra).
  rewrite Rpower_Ropp, Rpower_pow by lra.
  reflexivity.
Qed.

Lemma frac_lt_inv (a b c : R) :
  (0 < b -> 0 < c -> a * c < b -> a * / b < / c)%R.
Proof.
  intros Hb Hc H.
  apply Rmult_lt_reg_r with (r := (b * c)%R); [apply Rmult_lt_0_compat; lra|].
  replace (a * / b * (b * c))%R with (a * c)%R by (field; lra).
  replace (/ c * (b * c))%R with b by (field; lra).
  exact H.
Qed.

Lemma inv_lt_frac (a b c : R) :
  (0 < b -> 0 < c -> b < a * c -> / c < a * / b)%R.
Proof.
  intros Hb Hc H.
  apply Rmult_lt_reg_r with (r := (b * c)%R); [apply Rmult_lt_0_compat; lra|].
  replace (a * / b * (b * c))%R with (a * c)%R by (field; lra).
  replace (/ c * (b * c))%R with b by (field; lra).
  exact H.
Qed.

Lemma pow10_home_advantage_bounds :
  (6681 / 10000 < pow10 ((1500 - (1500 + HOME_ADVANTAGE)) / 400) < 6686 / 10000)%R.
Proof.
  pose proof pow10_home_advantage_power as Hp.
  set (x := pow10 _) in *.
  assert (Hx : (0 < x)%R) by apply exp_pos.
  split.
  - apply Rnot_le_lt. intro Hle.
    assert (H1 : (x ^ 40 <= (6681 / 10000) ^ 40)%R) by (apply pow_incr; lra).
    rewrite Hp in H1.
    assert (H2 : ((6681 / 10000) ^ 40 < / 10 ^ 7)%R).
    { unfold Rdiv. rewrite Rpow_mult_distr, pow_inv.
      apply frac_lt_inv; try (apply pow_lt; lra).
      rewrite !pow_IZR, <- !mult_IZR. apply IZR_lt. reflexivity. }
    lra.
  - apply Rnot_le_lt. intro Hle.
    assert (H1 : ((6686 / 10000) ^ 40 <= x ^ 40)%R) by (apply pow_incr; lra).
    rewrite Hp in H1.
    assert (H2 : (/ 10 ^ 7 < (6686 / 10000) ^ 40)%R).
    { unfold Rdiv. rewrite Rpow_mult_distr, pow_inv.
      apply inv_lt_frac; try (apply pow_lt; lra).
      rewrite !pow_IZR, <- !mult_IZR. apply IZR_lt. reflexivity. }
    lra.
Qed.

Lemma default_home_win_numbers :
  let c := elo_computation 1500 1500 (-1) in
  (Rabs (home_expected c - 599 / 1000) < 5 / 10000 /\
   Rabs (new_home_elo c - 1512) < 5 / 100 /\
   new_away_elo c - 1500 = - (new_home_elo c - 1500))%R.
Proof.
  pose proof pow10_home_advantage_bounds as [Hl Hu].
  unfold elo_computation. simpl.
  set (x := pow10 _) in *.
  assert (He : (5993 / 10000 < 1 / (1 + x) < 5995 / 10000)%R).
  { split.
    - apply Rmult_lt_reg_r with (r := (1 + x)%R); [lra|].
      replace (1 / (1 + x) * (1 + x))%R with 1%R by (field; lra). lra.
    - apply Rmult_lt_reg_r with (r := (1 + x)%R); [lra|].
      replace (1 / (1 + x) * (1 + x))%R with 1%R by (field; lra). lra. }
  unfold K_FACTOR.
  repeat split.
  - apply Rabs_def1; lra.
  - apply Rabs_def1; lra.
  - lra.
Qed.

Lemma rating_of_update_rating_same now d tid elo ts t :
  team_by_id ts tid = Some t ->
  rating_of (set_teams d (update_rating now tid elo ts)) tid = Some elo.
Proof.
  intro H. unfold rating_of. simpl.
  rewrite team_by_id_update_rating, Z.eqb_refl, H. reflexivity.
Qed.

Lemma update_rating_twice_ratings now d home away eh ea ht awt :
  team_by_id (teams d) home = Some ht ->
  team_by_id (teams d) away = Some awt ->
  home <> away ->
  let d' := set_teams d (update_rating now away ea
                           (update_rating now home eh (teams d))) in
  rating_of d' home = Some eh /\ rating_of d' away = Some ea.
Proof.
  intros Hh Ha Hne. unfold rating_of. simpl.
  rewrite !team_by_id_update_rating, !Z.eqb_refl.
  apply Z.eqb_neq in Hne. rewrite Hne.
  rewrite Z.eqb_sym in Hne. rewrite Hne, Hh, Ha. simpl. split; reflexivity.
Qed.

Lemma elo_computation_zero_sum rH rA res :
  let c := elo_computation rH rA res in
  (home_actual c + away_actual c = 1 /\
   home_expected c + away_expected c = 1 /\
   new_home_elo c - rH = - (new_away_elo c - rA) /\
   new_home_elo c + new_away_elo c = rH + rA)%R.
Proof.
  unfold elo_computation, K_FACTOR.
  destruct (res =? -1); [|destruct (res =? 0)]; simpl; repeat split; lra.
Qed.

(** C3: update_elo_ratings computes the expected score of the home side as
    1/(1 + 10^((rA - (rH + 70))/400)), that of the away side as its
    complement, takes the actual scores 1, 0.5 or 0 from the stored result,
    and stores rating + 30 (actual - expected) for each side; for two sides
    at 1500 and a home win the expected home score is 0.599 to three places
    and the new home rating 1512.0 to one place. *)
Theorem C3_update_elo_ratings_formula :
  forall (now : Z) (d : db) (mid : Z) (m : match_row) (ht awt : team_row),
    match_by_id (matches d) mid = Some m ->
    team_by_id (teams d) (home_team_id m) = Some ht ->
    team_by_id (teams d) (away_team_id m) = Some awt ->
    home_team_id m <> away_team_id m ->
    let rH := current_elo_rating ht in
    let rA := current_elo_rating awt in
    let expectedHome := (1 / (1 + Rpower 10 ((rA - (rH + 70)) / 400)))%R in
    let expectedAway := (1 - expectedHome)%R in
    let actualHome :=
      if result m =? -1 then 1%R else if result m =? 0 then (1 / 2)%R else 0%R in
    let actualAway :=
      if result m =? -1 then 0%R else if result m =? 0 then (1 / 2)%R else 1%R in
    exists d',
      Database.update_elo_ratings now d mid = Ok d' /\
      rating_of d' (home_team_id m) =
        Some (rH + 30 * (actualHome - expectedHome))%R /\
      rating_of d' (away_team_id m) =
        Some (rA + 30 * (actualAway - expectedAway))%R /\
      (rH = 1500%R -> rA = 1500%R -> result m = -1 ->
       (Rabs (expectedHome - 599 / 1000) < 5 / 10000 /\
        Rabs (rH + 30 * (actualHome - expectedHome) - 1512) < 5 / 100)%R).
Proof.
  intros now d mid m ht awt Hm Hh Ha Hne rH rA eH eA aH aA.
  unfold Database.update_elo_ratings. rewrite Hm, Hh, Ha.
  eexists. split; [reflexivity|].
  destruct (update_rating_twice_ratings now d _ _
              (new_home_elo (elo_computation rH rA (result m)))
              (new_away_elo (elo_computation rH rA (result m)))
              _ _ Hh Ha Hne) as [H1 H2].
  fold rH rA. rewrite H1, H2.
  assert (Hcalc :
    new_home_elo (elo_computation rH rA (result m)) = (rH + 30 * (aH - eH))%R /\
    new_away_elo (elo_computation rH rA (result m)) = (rA + 30 * (aA - eA))%R).
  { unfold elo_computation, K_FACTOR, HOME_ADVANTAGE, pow10, aH, aA, eA, eH.
    destruct (result m =? -1); [|destruct (result m =? 0)]; simpl; split; lra. }
  destruct Hcalc as [-> ->].
  split; [reflexivity|]. split; [reflexivity|].
  intros HrH HrA Hres.
  pose proof default_home_win_numbers as Hn.
  unfold elo_computation, K_FACTOR, HOME_ADVANTAGE, pow10 in Hn. simpl in Hn.
  destruct Hn as (Hn1 & Hn2 & _).
  unfold eH, aH. rewrite Hres, HrH, HrA. simpl. split; assumption.
Qed.

Lemma one_neq_two : 1 <> 2.
Proof. discriminate. Defined.

Lemma C3_update_elo_ratings_formula_witness :
  exists d',
    Database.update_elo_ratings 1 example_db 1 = Ok d' /\
    rating_of d' 1 =
      Some (1500 + 30 * (1 - 1 / (1 + Rpower 10 ((1500 - (1500 + 70)) / 400))))%R /\
    (Rabs (1500 + 30 * (1 - 1 / (1 + Rpower 10 ((1500 - (1500 + 70)) / 400))) - 1512)
     < 5 / 100)%R.
Proof.
  destruct (C3_update_elo_ratings_formula 1 example_db 1 example_match
              (mk_team 1 (Some 57) "Arsenal" 1500%R 0)
              (mk_team 2 (Some 61) "Chelsea" 1500%R 0)
              eq_refl eq_refl eq_refl one_neq_two)
    as (d' & Hrun & Hhome & _ & Hnum).
  exists d'. split; [exact Hrun|]. split; [exact Hhome|].
  exact (proj2 (Hnum eq_refl eq_refl eq_refl)).
Defined.

Lemma unit_roundoff_small : (0 < unit_roundoff < / 1000000000000000)%R.
Proof. unfold unit_roundoff. lra. Qed.

Lemma Rabs_le_between (x b : R) : (Rabs x <= b)%R -> (- b <= x <= b)%R.
Proof.
  intro H. pose proof (Rle_abs x) as H1. pose proof (Rle_abs (- x)) as H2.
  rewrite Rabs_Ropp in H2. lra.
Qed.

Lemma rnd_between (rnd : R -> R) (x B : R) :
  rounds_to_nearest rnd ->
  (- B <= x <= B)%R ->
  (- (unit_roundoff * B) <= rnd x - x <= unit_roundoff * B)%R.
Proof.
  intros Hr Hx. apply Rabs_le_between.
  apply Rle_trans with (unit_roundoff * Rabs x)%R; [apply Hr|].
  apply Rmult_le_compat_l; [pose proof unit_roundoff_small; lra|].
  now apply Rabs_le.
Qed.

(** With every operation rounded the two changes cancel up to the rounding
    errors, which add up to less than 216 units of the last place of 1, plus
    one for each rating. *)
Lemma elo_computation_rounded_zero_sum (rnd pow10_float : R -> R) (h a : R) (res : Z) :
  rounds_to_nearest rnd ->
  (forall x, 0 <= pow10_float x)%R ->
  let c := elo_computation_rounded rnd pow10_float h a res in
  (home_actual c + away_actual c = 1 /\
   0 <= home_expected c <= 1 + 4 * unit_roundoff /\
   Rabs (home_expected c + away_expected c - 1) <= unit_roundoff /\
   Rabs ((new_home_elo c - h) + (new_away_elo c - a))
     <= unit_roundoff * (Rabs h + Rabs a + 216))%R.
Proof.
  intros Hr Hp. unfold elo_computation_rounded.
  set (p := pow10_float _).
  assert (Hp0 : (0 <= p)%R) by apply Hp.
  set (s := rnd (1 + p)%R).
  pose proof (rnd_between rnd (1 + p) (1 + p) Hr ltac:(lra)) as Hs. fold s in Hs.
  pose proof unit_roundoff_small as Hu.
  assert (Hs1 : (1 - unit_roundoff <= s)%R).
  { unfold unit_roundoff in *. nra. }
  set (q := (1 / s)%R).
  assert (Hq : (0 < q <= 1 + 2 * unit_roundoff)%R).
  { assert (Hspos : (0 < s)%R) by lra.
    assert (Hqs : (q * s = 1)%R) by (unfold q; field; lra).
    assert (Hqpos : (0 < q)%R).
    { unfold q. apply Rdiv_lt_0_compat; lra. }
    split; [exact Hqpos|].
    assert (H1 : (q * (1 - unit_roundoff) <= 1)%R).
    { rewrite <- Hqs. apply Rmult_le_compat_l; lra. }
    unfold unit_roundoff in *. nra. }
  set (he := rnd q).
  pose proof (rnd_between rnd q (1 + 2 * unit_roundoff) Hr ltac:(lra)) as Hhe.
  fold he in Hhe.
  assert (Hhe0 : (0 <= he <= 1 + 4 * unit_roundoff)%R).
  { pose proof (rnd_between rnd q q Hr ltac:(lra)) as Hhe'. fold he in Hhe'.
    unfold unit_roundoff in *. split; nra. }
  set (ae := rnd (1 - he)%R).
  pose proof (rnd_between rnd (1 - he) 1 Hr ltac:(unfold unit_roundoff in *; lra)) as Hae.
  fold ae in Hae.
  assert (Hmain : forall ha aa : R,
             (ha + aa = 1)%R -> (0 <= ha <= 1)%R ->
             (Rabs ((rnd (h + rnd (K_FACTOR * rnd (ha - he))) - h) +
                    (rnd (a + rnd (K_FACTOR * rnd (aa - ae))) - a))
              <= unit_roundoff * (Rabs h + Rabs a + 216))%R).
  { intros ha aa Hsum Hha. unfold K_FACTOR.
    set (x := rnd (ha - he)%R). set (y := rnd (aa - ae)%R).
    pose proof (rnd_between rnd (ha - he) (1 + 4 * unit_roundoff) Hr
                  ltac:(unfold unit_roundoff in *; lra)) as Hx. fold x in Hx.
    pose proof (rnd_between rnd (aa - ae) (1 + 5 * unit_roundoff) Hr
                  ltac:(unfold unit_roundoff in *; lra)) as Hy. fold y in Hy.
    set (dh := rnd (30 * x)%R). set (da := rnd (30 * y)%R).
    pose proof (rnd_between rnd (30 * x) 31 Hr
                  ltac:(unfold unit_roundoff in *; lra)) as Hdh. fold dh in Hdh.
    pose proof (rnd_between rnd (30 * y) 31 Hr
                  ltac:(unfold unit_roundoff in *; lra)) as Hda. fold da in Hda.
    pose proof (Rle_abs h) as Hh1. pose proof (Rle_abs (- h)) as Hh2.
    rewrite Rabs_Ropp in Hh2.
    pose proof (Rle_abs a) as Ha1. pose proof (Rle_abs (- a)) as Ha2.
    rewrite Rabs_Ropp in Ha2.
    pose proof (rnd_between rnd (h + dh) (Rabs h + 31) Hr
                  ltac:(unfold unit_roundoff in *; lra)) as Hnh.
    pose proof (rnd_between rnd (a + da) (Rabs a + 31) Hr
                  ltac:(unfold unit_roundoff in *; lra)) as Hna.
    apply Rabs_le. unfold unit_roundoff in *. lra. }
  destruct (res =? -1); [|destruct (res =? 0)]; cbn [home_actual away_actual
    home_expected away_expected new_home_elo new_away_elo].
  - split; [lra|]. split; [exact Hhe0|]. split.
    + apply Rabs_le. fold he ae. unfold unit_roundoff in *. lra.
    + apply Hmain; lra.
  - split; [lra|]. split; [exact Hhe0|]. split.
    + apply Rabs_le. fold he ae. unfold unit_roundoff in *. lra.
    + apply Hmain; lra.
  - split; [lra|]. split; [exact Hhe0|]. split.
    + apply Rabs_le. fold he ae. unfold unit_roundoff in *. lra.
    + apply Hmain; lra.
Qed.

(** C9, as the code has it: the rating update is zero-sum up to rounding.
    For every stored match, in database.py and in fix_elo.py alike, the
    actual scores of the two sides add up to 1; in exact arithmetic so do
    the expected scores, the change of the home rating is the negation of
    the change of the away rating, and the two stored ratings add up to what
    they added up to before.  In the binary64 arithmetic of the code, every
    operation rounded to nearest, the actual scores still add up to 1, the
    expected scores add up to 1 within 2^-53, and the changes of the two
    ratings cancel within 2^-53 (|home| + |away| + 216), whatever pow
    returns. *)
Theorem C9_rating_update_zero_sum :
  (forall (now : Z) (d : db) (mid : Z) (m : match_row) (ht awt : team_row),
      match_by_id (matches d) mid = Some m ->
      team_by_id (teams d) (home_team_id m) = Some ht ->
      team_by_id (teams d) (away_team_id m) = Some awt ->
      home_team_id m <> away_team_id m ->
      let rH := current_elo_rating ht in
      let rA := current_elo_rating awt in
      let c := elo_computation rH rA (result m) in
      (home_actual c + away_actual c = 1)%R /\
      (home_expected c + away_expected c = 1)%R /\
      (new_home_elo c - rH = - (new_away_elo c - rA))%R /\
      exists d1 d2 : db,
        Database.update_elo_ratings now d mid = Ok d1 /\
        EloFixer.update_elo_ratings now d mid = Ok d2 /\
        teams d2 = teams d1 /\
        exists rH' rA' : R,
          rating_of d1 (home_team_id m) = Some rH' /\
          rating_of d1 (away_team_id m) = Some rA' /\
          (rH' - rH = - (rA' - rA))%R /\
          (rH' + rA' = rH + rA)%R) /\
  (forall (rnd pow10_float : R -> R) (rH rA : R) (res : Z),
      rounds_to_nearest rnd ->
      (forall x, 0 <= pow10_float x)%R ->
      let c := elo_computation_rounded rnd pow10_float rH rA res in
      (home_actual c + away_actual c = 1)%R /\
      (Rabs (home_expected c + away_expected c - 1) <= unit_roundoff)%R /\
      (Rabs ((new_home_elo c - rH) + (new_away_elo c - rA))
         <= unit_roundoff * (Rabs rH + Rabs rA + 216))%R /\
      (Rabs ((new_home_elo c + new_away_elo c) - (rH + rA))
         <= unit_roundoff * (Rabs rH + Rabs rA + 216))%R).
Proof.
  split.
  - intros now d mid m ht awt Hm Hh Ha Hne rH rA c.
    destruct (elo_computation_zero_sum rH rA (result m)) as (Hact & Hexp & Hneg & Hsum).
    fold c in Hact, Hexp, Hneg, Hsum.
    split; [exact Hact|]. split; [exact Hexp|]. split; [exact Hneg|].
    unfold Database.update_elo_ratings, EloFixer.update_elo_ratings.
    rewrite Hm, Hh, Ha. fold rH rA c.
    do 2 eexists. split; [reflexivity|]. split; [reflexivity|].
    split; [reflexivity|].
    destruct (update_rating_twice_ratings now d _ _ (new_home_elo c) (new_away_elo c)
                _ _ Hh Ha Hne) as [H1 H2].
    exists (new_home_elo c), (new_away_elo c).
    split; [exact H1|]. split; [exact H2|]. split; [exact Hneg|exact Hsum].
  - intros rnd pow10_float rH rA res Hr Hp c.
    destruct (elo_computation_rounded_zero_sum rnd pow10_float rH rA res Hr Hp)
      as (Hact & _ & Hexp & Hsum).
    fold c in Hact, Hexp, Hsum.
    split; [exact Hact|]. split; [exact Hexp|]. split; [exact Hsum|].
    replace (new_home_elo c + new_away_elo c - (rH + rA))%R
      with (new_home_elo c - rH + (new_away_elo c - rA))%R by lra.
    exact Hsum.
Qed.

(** C9 fails as stated: in binary64 the two increments are not exact
    negations of each other.  For a home side at 1300, an away side at 1755
    and a draw, 10 ** 0.9625 is 9.172759353897796 and the increments are
    12.050947638065852 and -12.05094763806585; the changes of the two stored
    ratings add up to 2^-42, not to 0.  For 1300 against 1380 and a draw the
    increments are 0.4316155249799597 and -0.43161552497995803, for the
    binary64 number nearest to 10 ** 0.025 and for its two neighbours. *)
Lemma C9_increments_are_not_exact_negations :
  ((1755 - (1300 + 70)) / 400 = 0x1.ecccccccccccdp-1)%float /\
  fst (elo_update_binary64 0x1.25873e9fe2364p+3 1300 1755 0)
    = (0x1.81a15cf0e9a41p+3, - 0x1.81a15cf0e9a4p+3)%float /\
  (let '(new_home_elo, new_away_elo) :=
     snd (elo_update_binary64 0x1.25873e9fe2364p+3 1300 1755 0) in
   (new_home_elo - 1300) + (new_away_elo - 1755))%float = 0x1p-42%float /\
  fst (elo_update_binary64 0x1.0f2b408bcd78fp+0 1300 1380 0)
    = (0x1.b9f96b90f06eep-2, - 0x1.b9f96b90f06dp-2)%float /\
  fst (elo_update_binary64 0x1.0f2b408bcd79p+0 1300 1380 0)
    = (0x1.b9f96b90f06eep-2, - 0x1.b9f96b90f06dp-2)%float /\
  fst (elo_update_binary64 0x1.0f2b408bcd791p+0 1300 1380 0)
    = (0x1.b9f96b90f06eep-2, - 0x1.b9f96b90f06dp-2)%float /\
  PrimFloat.eqb (0x1.81a15cf0e9a41p+3 + - 0x1.81a15cf0e9a4p+3) 0 = false /\
  PrimFloat.eqb (0x1.b9f96b90f06eep-2 + - 0x1.b9f96b90f06dp-2) 0 = false.
Proof. vm_compute. repeat split. Qed.

(** Arithmetic that is off by half a unit of the last place, always
    upwards, rounds to nearest in the sense above. *)
Lemma rounds_to_nearest_inflated :
  rounds_to_nearest (fun x => x * (1 + unit_roundoff / 2))%R.
Proof.
  intro x. replace (x * (1 + unit_roundoff / 2) - x)%R
    with (x * (unit_roundoff / 2))%R by ring.
  rewrite Rabs_mult, (Rabs_pos_eq (unit_roundoff / 2))
    by (pose proof unit_roundoff_small; lra).
  pose proof (Rabs_pos x). pose proof unit_roundoff_small. nra.
Defined.

Lemma pow10_nonnegative : forall x : R, (0 <= pow10 x)%R.
Proof. intro x. unfold pow10, Rpower. left. apply exp_pos. Defined.

Lemma C9_rating_update_zero_sum_witness :
  (exists d1 : db,
      Database.update_elo_ratings 1 example_db 1 = Ok d1 /\
      exists rH' rA' : R,
        rating_of d1 1 = Some rH' /\ rating_of d1 2 = Some rA' /\
        (rH' + rA' = 1500 + 1500)%R) /\
  (let c := elo_computation_rounded (fun x => x * (1 + unit_roundoff / 2))%R
                                    pow10 1300 1755 0 in
   Rabs ((new_home_elo c - 1300) + (new_away_elo c - 1755))
     <= unit_roundoff * (Rabs 1300 + Rabs 1755 + 216))%R.
Proof.
  split.
  - destruct (proj1 C9_rating_update_zero_sum 1 example_db 1 example_match
                (mk_team 1 (Some 57) "Arsenal" 1500%R 0)
                (mk_team 2 (Some 61) "Chelsea" 1500%R 0)
                eq_refl eq_refl eq_refl one_neq_two)
      as (_ & _ & _ & d1 & d2 & Hrun & _ & _ & rH' & rA' & H1 & H2 & _ & Hsum).
    exists d1. split; [exact Hrun|].
    exists rH', rA'. split; [exact H1|]. split; [exact H2|exact Hsum].
  - exact (proj1 (proj2 (proj2
             (proj2 C9_rating_update_zero_sum _ pow10 1300%R 1755%R 0
                rounds_to_nearest_inflated pow10_nonnegative)))).
Defined.

(** ** add_new_match and the duplicate check *)

Section ListFacts.
Context {A : Type}.

Lemma find_map_preserved (p : A -> bool) (f : A -> A) (l : list A) :
  (forall x, p (f x) = p x) ->
  find p (map f l) = option_map f (find p l).
Proof.
  intro Hp. induction l as [|x l IH]; simpl; [reflexivity|].
  rewrite Hp. destruct (p x); [reflexivity|exact IH].
Qed.

Lemma existsb_map_preserved (p : A -> bool) (f : A -> A) (l : list A) :
  (forall x, p (f x) = p x) ->
  existsb p (map f l) = existsb p l.
Proof.
  intro Hp. induction l as [|x l IH]; simpl; [reflexivity|].
  now rewrite Hp, IH.
Qed.

Lemma find_app_some (p : A -> bool) (l l' : list A) (x : A) :
  find p l = Some x -> find p (l ++ l') = Some x.
Proof.
  induction l as [|y l IH]; simpl; [discriminate|].
  destruct (p y); [trivial|exact IH].
Qed.

Lemma find_app_none (p : A -> bool) (l l' : list A) :
  find p l = None -> find p (l ++ l') = find p l'.
Proof.
  induction l as [|y l IH]; simpl; [reflexivity|].
  destruct (p y); [discriminate|exact IH].
Qed.

Lemma find_is_some (p : A -> bool) (l : list A) (x : A) :
  In x l -> p x = true -> exists y, find p l = Some y.
Proof.
  intros Hin Hpx. destruct (find p l) as [y|] eqn:E; [now exists y|].
  rewrite (find_none _ _ E _ Hin) in Hpx. discriminate.
Qed.

Lemma existsb_find (p : A -> bool) (l : list A) :
  existsb p l = true <-> exists y, find p l = Some y.
Proof.
  induction l as [|x l IH]; simpl.
  - split; [discriminate|intros [y Hy]; discriminate].
  - destruct (p x); simpl; [split; eauto|exact IH].
Qed.
End ListFacts.

Lemma has_team_set_api_id tid api ts x :
  has_team (Database.set_api_id tid api ts) x = has_team ts x.
Proof.
  unfold has_team, Database.set_api_id. apply existsb_map_preserved.
  intro t. now destruct (team_id t =? tid).
Qed.

Lemma has_team_update_rating now tid elo ts x :
  has_team (update_rating now tid elo ts) x = has_team ts x.
Proof.
  unfold has_team, update_rating. apply existsb_map_preserved.
  intro t. now destruct (team_id t =? tid).
Qed.

Lemma has_team_app ts t x :
  has_team (ts ++ [t]) x = has_team ts x || (team_id t =? x).
Proof.
  unfold has_team. rewrite existsb_app. simpl. now rewrite orb_false_r.
Qed.

Lemma team_by_id_set_api_id tid api ts x :
  option_map current_elo_rating (team_by_id (Database.set_api_id tid api ts) x) =
  option_map current_elo_rating (team_by_id ts x).
Proof.
  unfold team_by_id, Database.set_api_id.
  rewrite find_map_preserved by (intro t; now destruct (team_id t =? tid)).
  destruct (find _ ts) as [t|]; simpl; [|reflexivity].
  now destruct (team_id t =? tid).
Qed.

(** What one side's resolution does to the store. *)
Lemma resolve_team_facts now d api nm d' tid :
  Database.resolve_team now d api nm = (d', tid) ->
  matches d' = matches d /\
  matches_seq d' = matches_seq d /\
  has_team (teams d') tid = true /\
  (forall x, has_team (teams d) x = true -> has_team (teams d') x = true) /\
  (forall x r, rating_of d x = Some r -> rating_of d' x = Some r).
Proof.
  unfold Database.resolve_team, Database.team_by_api_id, Database.team_by_name.
  destruct (find (Database.has_api_id api) (teams d)) as [t|] eqn:Eapi.
  - intro H. inversion H; subst. repeat split; auto.
    apply find_some in Eapi. unfold has_team. apply existsb_exists.
    exists t. split; [tauto|apply Z.eqb_refl].
  - destruct (find (fun t => String.eqb (name t) nm) (teams d)) as [t|] eqn:Ename.
    + intro H. inversion H; subst.
      cbn [teams matches matches_seq set_teams]. repeat split.
      * rewrite has_team_set_api_id. apply find_some in Ename.
        unfold has_team. apply existsb_exists.
        exists t. split; [tauto|apply Z.eqb_refl].
      * intros x Hx. now rewrite has_team_set_api_id.
      * intros x r. unfold rating_of. simpl.
        now rewrite team_by_id_set_api_id.
    + unfold Database.insert_team. intro H. inversion H; subst.
      cbn [teams matches matches_seq]. repeat split.
      * rewrite has_team_app. simpl. rewrite Z.eqb_refl. apply orb_true_r.
      * intros x Hx. rewrite has_team_app, Hx. reflexivity.
      * intros x r. unfold rating_of, team_by_id. cbn [teams].
        destruct (find (fun t => team_id t =? x) (teams d)) as [t|] eqn:E;
          [|discriminate].
        now rewrite (find_app_some _ _ _ _ E).
Qed.

Lemma resolve_teams_facts now d md d' h a :
  Database.resolve_teams now d md = (d', h, a) ->
  matches d' = matches d /\
  matches_seq d' = matches_seq d /\
  has_team (teams d') h = true /\
  has_team (teams d') a = true /\
  (forall x, has_team (teams d) x = true -> has_team (teams d') x = true) /\
  (forall x r, rating_of d x = Some r -> rating_of d' x = Some r).
Proof.
  unfold Database.resolve_teams.
  destruct (Database.resolve_team now d _ _) as [d1 h1] eqn:E1.
  destruct (Database.resolve_team now d1 _ _) as [d2 a2] eqn:E2.
  intro H. inversion H; subst.
  destruct (resolve_team_facts _ _ _ _ _ _ E1) as (M1 & S1 & T1 & Mono1 & R1).
  destruct (resolve_team_facts _ _ _ _ _ _ E2) as (M2 & S2 & T2 & Mono2 & R2).
  repeat split; try congruence; auto.
Qed.

Lemma joins_teams_mono ts ts' m :
  (forall x, has_team ts x = true -> has_team ts' x = true) ->
  Database.joins_teams ts m = true -> Database.joins_teams ts' m = true.
Proof.
  unfold Database.joins_teams. intros Hmono H.
  apply andb_true_iff in H. destruct H as [H1 H2].
  apply andb_true_iff. split; apply Hmono; assumption.
Qed.

Lemma same_date_and_teams_triple day home away m :
  Database.same_date_and_teams day home away m = true <->
  triple m = (day, home, away).
Proof.
  unfold Database.same_date_and_teams, triple.
  rewrite !andb_true_iff, !Z.eqb_eq. split.
  - intros [[-> ->] ->]. reflexivity.
  - intro H. inversion H. auto.
Qed.

(** The rows the duplicate query sees contain every stored row with the
    incoming date and pair, whether or not the record carries an API id. *)
Lemma existing_match_none_triple d api_mid day home away :
  (forall m, In m (matches d) -> Database.joins_teams (teams d) m = true) ->
  Database.existing_match d api_mid day home away = None ->
  ~ In (day, home, away) (map triple (matches d)).
Proof.
  intros Hjoin Hnone Hin.
  apply in_map_iff in Hin. destruct Hin as (m & Htr & Hm).
  apply same_date_and_teams_triple in Htr.
  unfold Database.existing_match in Hnone.
  destruct api_mid as [a|];
    pose proof (find_none _ _ Hnone m Hm) as Hf; cbv beta in Hf;
    rewrite (Hjoin m Hm), Htr in Hf; simpl in Hf;
    [rewrite orb_true_r in Hf|]; discriminate.
Qed.

Lemma existing_match_some_triple d api_mid day home away m :
  Database.joins_teams (teams d) m = true ->
  In m (matches d) ->
  triple m = (day, home, away) ->
  exists m', Database.existing_match d api_mid day home away = Some m'.
Proof.
  intros Hjoin Hm Htr.
  apply same_date_and_teams_triple in Htr.
  unfold Database.existing_match.
  destruct api_mid as [a|]; apply (find_is_some _ _ m Hm);
    rewrite Hjoin, Htr; simpl; [apply orb_true_r|reflexivity].
Qed.

Lemma add_new_match_store_ok now d md :
  store_ok d -> store_ok (fst (Database.add_new_match now d md)).
Proof.
  intros [Hnd Hjoin]. unfold Database.add_new_match.
  destruct (Database.resolve_teams now d md) as [[d2 h] a] eqn:Eres.
  destruct (resolve_teams_facts _ _ _ _ _ _ Eres) as (Hm & _ & Hh & Ha & Hmono & _).
  assert (Hok2 : store_ok d2).
  { split; rewrite Hm; [exact Hnd|].
    intros m Hin. apply (joins_teams_mono (teams d)); auto. }
  destruct (Database.existing_match d2 _ _ h a) as [e|] eqn:Eex; [exact Hok2|].
  destruct (Database.violates_integrity _ _); [exact Hok2|].
  destruct Hok2 as [Hnd2 Hjoin2]. unfold store_ok. cbn [fst matches teams]. split.
  - rewrite map_app. cbn [map].
    apply NoDup_app; [exact Hnd2|repeat constructor; intros []|].
    intros x Hx [<-|[]]. unfold triple in Hx at 1. simpl in Hx.
    exact (existing_match_none_triple _ _ _ _ _ Hjoin2 Eex Hx).
  - intros m Hin. apply in_app_or in Hin. destruct Hin as [Hin|[<-|[]]].
    + apply Hjoin2, Hin.
    + unfold Database.joins_teams. cbn [home_team_id away_team_id].
      now rewrite Hh, Ha.
Qed.

Lemma add_all_store_ok steps : forall d, store_ok d -> store_ok (add_all d steps).
Proof.
  induction steps as [|s steps IH]; intros d Hok; [exact Hok|].
  simpl. apply IH, add_new_match_store_ok, Hok.
Qed.

(** C10: after any sequence of add_new_match calls on a store with at most
    one row per (date, home, away) there is still at most one such row, and
    a record whose date and resolved pair are those of a stored row is
    skipped (no id returned, no row added) whatever API match id it carries
    or lacks. *)
Theorem C10_one_row_per_date_and_pair :
  forall (d : db) (steps : list (Z * Database.match_data)),
    store_ok d ->
    let d' := add_all d steps in
    NoDup (map triple (matches d')) /\
    forall (now : Z) (md : Database.match_data),
      let '(_, home, away) := Database.resolve_teams now d' md in
      (exists m, In m (matches d') /\
                 triple m = (Database.md_date md, home, away)) ->
      exists d'', Database.add_new_match now d' md = (d'', None) /\
                  matches d'' = matches d'.
Proof.
  intros d steps Hok d'.
  pose proof (add_all_store_ok steps d Hok) as [Hnd Hjoin]. fold d' in Hnd, Hjoin.
  split; [exact Hnd|].
  intros now md.
  destruct (Database.resolve_teams now d' md) as [[d2 h] a] eqn:Eres.
  intros (m & Hin & Htr).
  destruct (resolve_teams_facts _ _ _ _ _ _ Eres) as (Hm & _ & _ & _ & Hmono & _).
  unfold Database.add_new_match. rewrite Eres.
  destruct (existing_match_some_triple d2 (Database.md_match_id md)
              (Database.md_date md) h a m) as [m' ->].
  - apply (joins_teams_mono (teams d')); auto.
  - now rewrite Hm.
  - exact Htr.
  - exists d2. split; [reflexivity|exact Hm].
Qed.

Lemma C10_one_row_per_date_and_pair_witness :
  NoDup (map triple (matches (add_all empty_db three_records))) /\
  List.length (matches (add_all empty_db three_records)) = 1%nat.
Proof.
  split.
  - exact (proj1 (C10_one_row_per_date_and_pair empty_db three_records
                    (conj (NoDup_nil _) (fun m (H : In m []) => match H with end)))).
  - reflexivity.
Defined.

(** *** process_new_matches *)

Lemma process_match_stores_nothing predict now d m :
  exists e, MatchUpdater.process_match predict now d m = (d, false, e).
Proof.
  unfold MatchUpdater.process_match.
  destruct (negb _); [eauto|].
  destruct (existsb _ _); [eauto|].
  cbn. eauto.
Qed.

Lemma process_new_matches_stores_nothing predict now ms :
  forall d, MatchUpdater.process_new_matches predict now d ms = (d, 0).
Proof.
  induction ms as [|m ms IH]; intro d; simpl; [reflexivity|].
  destruct (process_match_stores_nothing predict now d m) as [e ->].
  now rewrite IH.
Qed.

(** *** Stability of the resolution of a team *)

Lemma find_api_after_set_api_id api tid ts :
  find (Database.has_api_id api) ts = None ->
  has_team ts tid = true ->
  first_api (Database.set_api_id tid api ts) api tid.
Proof.
  unfold first_api, Database.team_by_api_id, has_team, Database.set_api_id.
  induction ts as [|x ts IH]; simpl; [discriminate|].
  destruct (Database.has_api_id api x) eqn:Ex; [discriminate|].
  intros Hnone Hhas.
  destruct (team_id x =? tid) eqn:Eid; simpl.
  - unfold Database.has_api_id at 1. simpl. rewrite Z.eqb_refl.
    eexists. split; [reflexivity|]. simpl. now apply Z.eqb_eq.
  - rewrite Ex. apply IH; assumption.
Qed.


Lemma resolve_team_first_api now d api nm d' tid :
  Database.resolve_team now d api nm = (d', tid) ->
  first_api (teams d') api tid.
Proof.
  unfold Database.resolve_team, Database.team_by_api_id, Database.team_by_name.
  destruct (find (Database.has_api_id api) (teams d)) as [t|] eqn:Eapi.
  - intro H. inversion H; subst. exists t. split; [exact Eapi|reflexivity].
  - destruct (find (fun t => String.eqb (name t) nm) (teams d)) as [t|] eqn:Ename.
    + intro H. inversion H; subst. cbn [teams set_teams].
      apply find_api_after_set_api_id; [exact Eapi|].
      apply find_some in Ename. unfold has_team. apply existsb_exists.
      exists t. split; [tauto|apply Z.eqb_refl].
    + unfold Database.insert_team. intro H. inversion H; subst.
      cbn [teams]. unfold first_api, Database.team_by_api_id.
      rewrite (find_app_none _ _ _ Eapi). simpl.
      unfold Database.has_api_id. simpl. rewrite Z.eqb_refl.
      eexists. split; reflexivity.
Qed.



Lemma resolve_team_found now d api nm tid :
  first_api (teams d) api tid ->
  Database.resolve_team now d api nm = (d, tid).
Proof.
  intros (t & Ht & Hid). unfold Database.resolve_team. now rewrite Ht, Hid.
Qed.








(** C2: a finished, well-formed match that is not in the store is not
    stored by process_new_matches.  The call of get_match_features with the
    keyword match_date raises TypeError, the handler of the loop logs it, and
    the loop goes on: no row is inserted and no rating is updated, although
    add_new_match would have stored the record. *)
Theorem C2_finished_match_is_not_stored :
  forall (predict : Database.features -> R * R * R) (now : Z),
    (forall d ms, MatchUpdater.process_new_matches predict now d ms = (d, 0)) /\
    MatchUpdater.process_match predict now empty_db fresh_match
      = (empty_db, false, Some TypeError) /\
    MatchUpdater.process_new_matches predict now empty_db [fresh_match]
      = (empty_db, 0) /\
    snd (Database.add_new_match now empty_db (arsenal_chelsea (Some 9001))) = Some 1.
Proof.
  intros predict now. split.
  - intros d ms. apply process_new_matches_stores_nothing.
  - repeat split.
Qed.

(** ** Feature computation *)

Section FilterFacts.
Context {A : Type}.
Lemma filter_andb (p q : A -> bool) (l : list A) :
  filter (fun x => p x && q x) l = filter p (filter q l).
Proof.
  induction l as [|x l IH]; simpl; [reflexivity|].
  destruct (q x); simpl; rewrite ?andb_true_r, ?andb_false_r;
    [destruct (p x)|]; now rewrite IH.
Qed.
End FilterFacts.

Lemma team_by_api_id_has_id ts api t :
  Database.team_by_api_id ts api = Some t ->
  exists t', team_by_id ts (team_id t) = Some t'.
Proof.
  intro H. apply find_some in H. destruct H as [Hin _].
  unfold team_by_id.
  destruct (find (fun r => team_id r =? team_id t) ts) as [t'|] eqn:E; [eauto|].
  pose proof (find_none _ _ E t Hin) as Hf. cbv beta in Hf.
  rewrite Z.eqb_refl in Hf. discriminate.
Qed.

(** get_match_features gives None exactly for an unknown team. *)
Lemma get_match_features_none_iff d h a :
  Database.get_match_features d h a = None <->
  Database.team_by_api_id (teams d) h = None \/
  Database.team_by_api_id (teams d) a = None.
Proof.
  unfold Database.get_match_features, Database.get_match_features_body.
  destruct (Database.team_by_api_id (teams d) h) as [hrow|] eqn:Eh;
    [|split; auto].
  destruct (Database.team_by_api_id (teams d) a) as [arow|] eqn:Ea;
    [|split; auto].
  destruct (team_by_api_id_has_id _ _ _ Eh) as [ht ->].
  destruct (team_by_api_id_has_id _ _ _ Ea) as [awt ->].
  split; [discriminate|intros [H|H]; discriminate].
Qed.

(** With no cutoff, the rating query of get_match_features2 returns the row
    of the team, and the second fetchone() of line 720 finds none. *)
Lemma elo_query_absent ts tid :
  ~ In tid (map team_id ts) -> Database.elo_query ts tid None = [].
Proof.
  unfold Database.elo_query.
  induction ts as [|x ts IH]; simpl; [reflexivity|].
  intro Hnotin. rewrite andb_true_r.
  destruct (team_id x =? tid) eqn:E.
  - apply Z.eqb_eq in E. exfalso. apply Hnotin. now left.
  - apply IH. intro H. apply Hnotin. now right.
Qed.

Lemma elo_query_single ts tid t :
  NoDup (map team_id ts) -> In t ts -> team_id t = tid ->
  Database.elo_query ts tid None = [t].
Proof.
  intros Hnd Hin Hid.
  induction ts as [|x ts IH]; [destruct Hin|].
  simpl in Hnd. inversion Hnd as [|? ? Hnotin Hnd']; subst.
  destruct Hin as [->|Hin].
  - pose proof (elo_query_absent ts (team_id t) Hnotin) as Habs.
    unfold Database.elo_query in *. simpl.
    rewrite Z.eqb_refl. simpl. now rewrite Habs.
  - specialize (IH Hnd' Hin).
    unfold Database.elo_query in *. simpl. rewrite andb_true_r.
    destruct (team_id x =? team_id t) eqn:E; [|exact IH].
    apply Z.eqb_eq in E. exfalso. apply Hnotin. rewrite E. now apply in_map.
Qed.

Lemma get_match_features2_raises d h a :
  NoDup (map team_id (teams d)) ->
  Database.team_by_api_id (teams d) h <> None ->
  Database.team_by_api_id (teams d) a <> None ->
  Database.get_match_features2 d h a None = Raise TypeError.
Proof.
  intros Hnd Hh Ha. unfold Database.get_match_features2.
  destruct (Database.team_by_api_id (teams d) h) as [hrow|] eqn:Eh; [|congruence].
  destruct (Database.team_by_api_id (teams d) a) as [arow|] eqn:Ea; [|congruence].
  apply find_some in Eh. destruct Eh as [Hin _].
  now rewrite (elo_query_single _ _ hrow Hnd Hin eq_refl).
Qed.

(** C6: for two teams that are both in the store, get_match_features2
    called without a cutoff produces no feature vector: the rating of the home
    side is read with two fetchone() calls on a one-row result and the second
    gives None, so the call raises TypeError.  get_match_features, on the same
    store, does produce the vector. *)
Theorem C6_known_teams_raise_in_get_match_features2 :
  Database.team_by_api_id (teams example_db) 57 <> None /\
  Database.team_by_api_id (teams example_db) 61 <> None /\
  Database.get_match_features example_db 57 61 <> None /\
  Database.get_match_features2 example_db 57 61 None = Raise TypeError.
Proof.
  repeat split; discriminate.
Qed.

(** The four windowed aggregates of get_match_features2 that are taken over
    one side's home or away matches read only the rows dated before the
    cutoff. *)
Lemma side_aggregates_depend_on_earlier_rows d d' h a T f f' :
  teams d' = teams d ->
  filter (fun m => date m <? T) (matches d') = filter (fun m => date m <? T) (matches d) ->
  Database.get_match_features2 d h a (Some T) = Ok (Some f) ->
  Database.get_match_features2 d' h a (Some T) = Ok (Some f') ->
  Database.Draw_Tendency_Home f' = Database.Draw_Tendency_Home f /\
  Database.Draw_Tendency_Away f' = Database.Draw_Tendency_Away f /\
  Database.Avg_Home_GD_Last_5 f' = Database.Avg_Home_GD_Last_5 f /\
  Database.Avg_Away_GD_Last_5 f' = Database.Avg_Away_GD_Last_5 f.
Proof.
  intros Hteams Hrows. unfold Database.get_match_features2. rewrite Hteams.
  destruct (Database.team_by_api_id (teams d) h) as [hrow|]; [|discriminate].
  destruct (Database.team_by_api_id (teams d) a) as [arow|]; [|discriminate].
  destruct (Database.elo_of_cursor _) as [he|]; [|discriminate].
  destruct (Database.elo_of_cursor _) as [ae|]; [|discriminate].
  unfold Database.before.
  rewrite !(filter_andb _ (fun m => date m <? T)), Hrows.
  intros H H'. inversion H; inversion H'; subst. simpl. repeat split.
Qed.

(** C4: a cutoff does not keep later events out of the head-to-head count.
    The two stores hold the same events before day 20 and the same teams; the
    second also holds a draw of day 25 with team 57 at home against team 61.
    With the cutoff at day 20, get_match_features2 counts 0 head-to-head draws
    on the first store and 1 on the second: the [AND date < ?] it appends
    binds to the second alternative of the OR only. *)
Theorem C4_cutoff_leaks_into_head_to_head :
  teams store_with_later = teams store_without_later /\
  filter (fun m => date m <? 20) (matches store_with_later) =
    filter (fun m => date m <? 20) (matches store_without_later) /\
  exists f f' : Database.features,
    Database.get_match_features2 store_without_later 57 61 (Some 20) = Ok (Some f) /\
    Database.get_match_features2 store_with_later 57 61 (Some 20) = Ok (Some f') /\
    Database.H2H_Draws_Last_5 f = 0 /\
    Database.H2H_Draws_Last_5 f' = 1.
Proof.
  split; [reflexivity|]. split; [reflexivity|].
  do 2 eexists. split; [reflexivity|]. split; [reflexivity|].
  split; reflexivity.
Qed.

(** ** The full rebuild *)

(** *** The stable sort *)

Section Sorting.
Context {A : Type} (key : A -> Z).

Lemma insert_by_perm (x : A) (l : list A) :
  Permutation (insert_by (fun a b => key a <=? key b) x l) (x :: l).
Proof.
  induction l as [|y l IH]; simpl; [reflexivity|].
  destruct (key x <=? key y); [reflexivity|].
  rewrite IH. apply perm_swap.
Qed.

Lemma sort_by_perm (l : list A) :
  Permutation (sort_by (fun a b => key a <=? key b) l) l.
Proof.
  induction l as [|x l IH]; simpl; [reflexivity|].
  unfold sort_by in *. simpl. rewrite insert_by_perm. now constructor.
Qed.

Lemma insert_by_sorted (x : A) (l : list A) :
  Sorted (fun a b => key a <= key b) l ->
  Sorted (fun a b => key a <= key b) (insert_by (fun a b => key a <=? key b) x l).
Proof.
  induction l as [|y l IH]; simpl; intro Hs.
  - repeat constructor.
  - destruct (key x <=? key y) eqn:E.
    + apply Z.leb_le in E. constructor; [exact Hs|now constructor].
    + apply Z.leb_gt in E. inversion Hs as [|? ? Hs' Hhd]; subst.
      constructor; [now apply IH|].
      destruct l as [|z l]; simpl.
      * constructor. lia.
      * destruct (key x <=? key z); constructor; [lia|].
        now inversion Hhd.
Qed.

Lemma sort_by_sorted (l : list A) :
  Sorted (fun a b => key a <= key b) (sort_by (fun a b => key a <=? key b) l).
Proof.
  induction l as [|x l IH]; [constructor|].
  unfold sort_by in *. simpl. now apply insert_by_sorted.
Qed.
End Sorting.

Lemma matches_by_date_perm ms : Permutation (matches_by_date ms) ms.
Proof. apply (sort_by_perm date). Qed.

Lemma matches_by_date_sorted ms :
  Sorted (fun a b => date a <= date b) (matches_by_date ms).
Proof. apply (sort_by_sorted date). Qed.

(** *** The chronological pass *)

Lemma match_by_id_unique ms m :
  NoDup (map match_id ms) -> In m ms -> match_by_id ms (match_id m) = Some m.
Proof.
  unfold match_by_id. induction ms as [|x ms IH]; intros Hnd Hin; [destruct Hin|].
  simpl in Hnd. inversion Hnd as [|? ? Hnotin Hnd']; subst. simpl.
  destruct Hin as [->|Hin]; [now rewrite Z.eqb_refl|].
  destruct (match_id x =? match_id m) eqn:E; [|now apply IH].
  apply Z.eqb_eq in E. exfalso. apply Hnotin. rewrite E. now apply in_map.
Qed.

Lemma existsb_eqb_false (x : Z) (l : list Z) :
  ~ In x l -> existsb (Z.eqb x) l = false.
Proof.
  intro H. destruct (existsb (Z.eqb x) l) eqn:E; [|reflexivity].
  apply existsb_exists in E. destruct E as (y & Hy & Heq).
  apply Z.eqb_eq in Heq. subst. contradiction.
Qed.

Lemma update_elo_ratings_rate now d m :
  match_by_id (matches d) (match_id m) = Some m ->
  Database.joins_teams (teams d) m = true ->
  Database.update_elo_ratings now d (match_id m)
    = Ok (set_teams d (rate now (teams d) m)) /\
  EloFixer.update_elo_ratings now d (match_id m)
    = Ok (set_teams d (rate now (teams d) m)).
Proof.
  intros Hm Hj. unfold Database.joins_teams, has_team in Hj.
  apply andb_true_iff in Hj. destruct Hj as [Hh Ha].
  apply existsb_find in Hh. destruct Hh as [ht Hh].
  apply existsb_find in Ha. destruct Ha as [awt Ha].
  unfold Database.update_elo_ratings, EloFixer.update_elo_ratings, rate, team_by_id.
  now rewrite Hm, Hh, Ha.
Qed.

Lemma has_team_false_team_by_id ts x :
  has_team ts x = false -> team_by_id ts x = None.
Proof.
  unfold has_team, team_by_id. intro H.
  destruct (find (fun t => team_id t =? x) ts) as [t|] eqn:E; [|reflexivity].
  assert (Hex : existsb (fun t => team_id t =? x) ts = true)
    by (apply existsb_find; eauto).
  congruence.
Qed.

(** An event one of whose teams has no row: fetchone() returns None, the
    subscript raises TypeError in both modules, and folding the event
    changes no rating. *)
Lemma update_elo_ratings_raises now d m :
  match_by_id (matches d) (match_id m) = Some m ->
  Database.joins_teams (teams d) m = false ->
  Database.update_elo_ratings now d (match_id m) = Raise TypeError /\
  EloFixer.update_elo_ratings now d (match_id m) = Raise TypeError /\
  rate now (teams d) m = teams d.
Proof.
  intros Hm Hj. unfold Database.joins_teams in Hj.
  unfold Database.update_elo_ratings, EloFixer.update_elo_ratings, rate.
  rewrite Hm. apply andb_false_iff in Hj.
  destruct (team_by_id (teams d) (home_team_id m)) as [ht|] eqn:Eh.
  - destruct Hj as [Hj|Hj].
    + rewrite (has_team_false_team_by_id _ _ Hj) in Eh. discriminate.
    + rewrite (has_team_false_team_by_id _ _ Hj). repeat split.
  - repeat split.
Qed.

Lemma joins_teams_rate now ts m m' :
  Database.joins_teams (rate now ts m) m' = Database.joins_teams ts m'.
Proof.
  unfold rate.
  destruct (team_by_id ts (home_team_id m)); [|reflexivity].
  destruct (team_by_id ts (away_team_id m)); [|reflexivity].
  unfold Database.joins_teams.
  now rewrite !has_team_update_rating.
Qed.

(** Both loops fold the events they are given, in the order given, each
    once, when the ids are those of distinct stored rows; an event whose
    update raises is folded as well, to no effect. *)
Lemma loops_replay now all :
  NoDup (map match_id all) ->
  forall ms processed d,
    (forall m, In m ms -> In m all) ->
    NoDup (map match_id ms) ->
    (forall m, In m ms -> ~ In (match_id m) processed) ->
    matches d = all ->
    fst (Rebuild.historical_loop now processed d ms) =
      set_teams d (replay now (teams d) ms) /\
    fst (EloFixer.chronological_loop now processed d ms) =
      set_teams d (replay now (teams d) ms).
Proof.
  intro Hall.
  induction ms as [|m ms IH]; intros processed d Hsub Hnd Hfresh Hm.
  - simpl. destruct d. split; reflexivity.
  - cbn [Rebuild.historical_loop EloFixer.chronological_loop].
    rewrite (existsb_eqb_false _ _ (Hfresh m (or_introl eq_refl))).
    assert (Hin : In m all) by (apply Hsub; now left).
    assert (Hrow : match_by_id (matches d) (match_id m) = Some m)
      by (rewrite Hm; now apply match_by_id_unique).
    simpl in Hnd. inversion Hnd as [|? ? Hnotin Hnd']; subst.
    assert (Hsub' : forall x, In x ms -> In x (matches d))
      by (intros x Hx; apply Hsub; now right).
    destruct (Database.joins_teams (teams d) m) eqn:Hj.
    + destruct (update_elo_ratings_rate now d m Hrow Hj) as [-> ->].
      destruct (IH (match_id m :: processed) (set_teams d (rate now (teams d) m)))
        as [H1 H2]; [exact Hsub'|exact Hnd'| |reflexivity|].
      * intros x Hx [Heq|Hp].
        -- apply Hnotin. rewrite Heq. now apply in_map.
        -- apply (Hfresh x); [now right|exact Hp].
      * rewrite H1, H2. cbn [teams set_teams replay fold_left]. split; reflexivity.
    + destruct (update_elo_ratings_raises now d m Hrow Hj) as (-> & -> & Hskip).
      destruct (IH processed d) as [H1 H2]; [exact Hsub'|exact Hnd'| |reflexivity|].
      * intros x Hx. apply Hfresh. now right.
      * rewrite H1, H2. cbn [replay fold_left]. rewrite Hskip. split; reflexivity.
Qed.

Lemma has_team_reset_ratings ts x :
  has_team (reset_ratings ts) x = has_team ts x.
Proof.
  unfold has_team, reset_ratings. now apply existsb_map_preserved.
Qed.

Lemma reset_ratings_default ts t :
  In t (reset_ratings ts) -> current_elo_rating t = 1500%R.
Proof.
  unfold reset_ratings. intro H. apply in_map_iff in H.
  destruct H as (t0 & <- & _). reflexivity.
Qed.

(** C5, as the code has it.  On a store whose events have distinct ids,
    the rebuild resets every rating to 1500.0 and folds the stored events,
    each once, in ascending order of date, process_historical_matches and
    fix_elo_ratings alike.  An event whose rating update raises (one of its
    teams has no row) is caught and skipped: it changes no rating at
    whatever point of the pass it comes, the pass goes on, and
    fix_elo_ratings returns normally with the rebuilt ratings in the file,
    not the backup.  On any store an event whose id the pass has processed
    is passed over.  When one of the stages of fix_elo_ratings itself raises
    (the reset, the SELECT or the final commit of the chronological pass, the
    verification) the database file is the backup copy of the file as it was
    before the rebuild, and the error is raised again. *)
Theorem C5_rebuild_and_restore :
  (forall (now : Z) (d : db) (backup0 : option db),
      NoDup (map match_id (matches d)) ->
      let chronological := matches_by_date (matches d) in
      let rebuilt := replay now (reset_ratings (teams d)) chronological in
      Sorted (fun a b => date a <= date b) chronological /\
      Permutation chronological (matches d) /\
      (forall t, In t (reset_ratings (teams d)) -> current_elo_rating t = 1500%R) /\
      teams (Rebuild.process_historical_matches now d) = rebuilt /\
      EloFixer.fix_elo_ratings None now (EloFixer.mk_files (Some d) backup0) =
        (EloFixer.mk_files (Some (set_teams d rebuilt)) (Some d), Ok tt) /\
      (forall (ts : list team_row) (m : match_row),
          In m (matches d) ->
          Database.joins_teams ts m = false ->
          Database.update_elo_ratings now (set_teams d ts) (match_id m)
            = Raise TypeError /\
          EloFixer.update_elo_ratings now (set_teams d ts) (match_id m)
            = Raise TypeError /\
          rate now ts m = ts) /\
      (forall (ts : list team_row) (m : match_row),
          In m (matches d) ->
          Database.joins_teams ts m = true ->
          Database.update_elo_ratings now (set_teams d ts) (match_id m)
            = Ok (set_teams d (rate now ts m)) /\
          EloFixer.update_elo_ratings now (set_teams d ts) (match_id m)
            = Ok (set_teams d (rate now ts m)))) /\
  (forall (now : Z) (processed : list Z) (d : db) (m : match_row)
          (rest : list match_row),
      In (match_id m) processed ->
      Rebuild.historical_loop now processed d (m :: rest) =
        Rebuild.historical_loop now processed d rest /\
      EloFixer.chronological_loop now processed d (m :: rest) =
        EloFixer.chronological_loop now processed d rest) /\
  (forall (f : EloFixer.fault) (now : Z) (d : db) (backup0 : option db),
      EloFixer.fix_elo_ratings (Some f) now (EloFixer.mk_files (Some d) backup0) =
        (EloFixer.mk_files (Some d) (Some d), Raise OperationalError)).
Proof.
  split; [|split].
  3:{ intros f now d backup0.
      unfold EloFixer.fix_elo_ratings, EloFixer.backup_database,
        EloFixer.process_matches_chronologically.
      cbn [EloFixer.db_path EloFixer.backup_path].
      destruct f; cbn [EloFixer.hits EloFixer.fault_eqb]; try reflexivity;
        destruct (EloFixer.chronological_loop _ _ _ _); reflexivity. }
  2:{ intros now processed d m rest Hin.
      assert (Hseen : existsb (Z.eqb (match_id m)) processed = true).
      { apply existsb_exists. exists (match_id m). split; [exact Hin|apply Z.eqb_refl]. }
      cbn [Rebuild.historical_loop EloFixer.chronological_loop].
      rewrite Hseen. split; reflexivity. }
  - intros now d backup0 Hnd chronological rebuilt.
    pose proof (matches_by_date_perm (matches d)) as Hperm.
    fold chronological in Hperm.
    split; [apply matches_by_date_sorted|]. split; [exact Hperm|].
    split; [apply reset_ratings_default|].
    destruct (loops_replay now (matches d) Hnd chronological []
                (set_teams d (reset_ratings (teams d)))) as [Hhist Hchron].
    + intros m Hm. now apply (Permutation_in _ Hperm).
    + apply (Permutation_NoDup (Permutation_sym (Permutation_map match_id Hperm)) Hnd).
    + intros m _ [].
    + reflexivity.
    + cbn [teams set_teams] in Hhist, Hchron. fold rebuilt in Hhist, Hchron.
      split; [|split; [|split]].
      * unfold Rebuild.process_historical_matches. cbn [matches set_teams].
        fold chronological.
        destruct chronological as [|m0 rest] eqn:E; [reflexivity|].
        destruct (Rebuild.historical_loop now [] _ (m0 :: rest)) as [d1 p].
        cbn [fst] in Hhist. subst d1. cbn [matches set_teams].
        destruct (max_date (matches d)); reflexivity.
      * unfold EloFixer.fix_elo_ratings, EloFixer.backup_database,
          EloFixer.process_matches_chronologically, EloFixer.reset_elo_ratings.
        cbn [EloFixer.db_path EloFixer.backup_path EloFixer.hits matches set_teams].
        fold chronological.
        destruct (EloFixer.chronological_loop now [] _ chronological) as [d1 p].
        cbn [fst] in Hchron. subst d1. destruct d. reflexivity.
      * intros ts m Hin Hj.
        assert (Hrow : match_by_id (matches (set_teams d ts)) (match_id m) = Some m)
          by (cbn [matches set_teams]; now apply match_by_id_unique).
        exact (update_elo_ratings_raises now (set_teams d ts) m Hrow Hj).
      * intros ts m Hin Hj.
        assert (Hrow : match_by_id (matches (set_teams d ts)) (match_id m) = Some m)
          by (cbn [matches set_teams]; now apply match_by_id_unique).
        destruct (update_elo_ratings_rate now (set_teams d ts) m Hrow Hj) as [H1 H2].
        rewrite H1, H2. destruct d. split; reflexivity.
Qed.

(** C5 fails as stated: on [dangling_store] the rating update of the one
    stored event raises TypeError during the rebuild, yet fix_elo_ratings
    returns normally and leaves the ratings reset, not as they were. *)
Lemma C5_event_error_is_swallowed :
  EloFixer.update_elo_ratings 1 (EloFixer.reset_elo_ratings dangling_store) 1
    = Raise TypeError /\
  EloFixer.fix_elo_ratings None 1 (EloFixer.mk_files (Some dangling_store) None)
    = (EloFixer.mk_files (Some (EloFixer.reset_elo_ratings dangling_store))
                         (Some dangling_store), Ok tt) /\
  rating_of dangling_store 1 = Some 1600%R /\
  rating_of (EloFixer.reset_elo_ratings dangling_store) 1 = Some 1500%R.
Proof. repeat split. Qed.

Lemma rebuild_store_ids : NoDup (map match_id (matches rebuild_store)).
Proof.
  cbn. repeat constructor; cbn; intro H;
    repeat (destruct H as [H|H]; [discriminate H|]); exact H.
Defined.

(** On [rebuild_store] the ratings found are 1600 and 1400, the events are
    stored out of order, and the event of day 4 refers to a team without a
    row: the pass takes them as 2, 3, 1, skips event 3 and ends normally. *)
Lemma C5_rebuild_and_restore_witness :
  map match_id (matches_by_date (matches rebuild_store)) = [2; 3; 1] /\
  map current_elo_rating (reset_ratings (teams rebuild_store)) = [1500%R; 1500%R] /\
  EloFixer.fix_elo_ratings None 5 (EloFixer.mk_files (Some rebuild_store) None) =
    (EloFixer.mk_files
       (Some (set_teams rebuild_store
                (replay 5 (reset_ratings (teams rebuild_store))
                        (matches_by_date (matches rebuild_store)))))
       (Some rebuild_store), Ok tt) /\
  EloFixer.update_elo_ratings 5
    (set_teams rebuild_store (reset_ratings (teams rebuild_store))) 3
    = Raise TypeError /\
  replay 5 (reset_ratings (teams rebuild_store))
         (matches_by_date (matches rebuild_store)) =
  replay 5 (reset_ratings (teams rebuild_store))
         [mk_match 2 (Some 9002) 2 1 3 1 1 0; mk_match 1 (Some 9001) 1 2 5 2 0 (-1)].
Proof.
  destruct (proj1 C5_rebuild_and_restore 5 rebuild_store None rebuild_store_ids)
    as (_ & _ & _ & _ & Hfix & Hskip & _).
  split; [reflexivity|]. split; [reflexivity|]. split; [exact Hfix|].
  split.
  - destruct (Hskip (reset_ratings (teams rebuild_store))
                    (mk_match 3 (Some 9003) 1 99 4 0 1 1))
      as (_ & Hraise & _); [right; right; left; reflexivity|reflexivity|].
    exact Hraise.
  - destruct (Hskip (rate 5 (reset_ratings (teams rebuild_store))
                          (mk_match 2 (Some 9002) 2 1 3 1 1 0))
                    (mk_match 3 (Some 9003) 1 99 4 0 1 1))
      as (_ & _ & Hid);
      [right; right; left; reflexivity|rewrite joins_teams_rate; reflexivity|].
    change (matches_by_date (matches rebuild_store))
      with [mk_match 2 (Some 9002) 2 1 3 1 1 0;
            mk_match 3 (Some 9003) 1 99 4 0 1 1;
            mk_match 1 (Some 9001) 1 2 5 2 0 (-1)].
    unfold replay. cbn [fold_left]. rewrite Hid. reflexivity.
Defined.

(** ** Requests and the synchronisation pass *)

Lemma exponential_delay_le_60 a : (a < 4)%nat -> (exponential_delay a <= 60)%Q.
Proof.
  intro H. unfold exponential_delay, initial_retry_delay.
  destruct a as [|[|[|[|a]]]]; try lia; vm_compute; discriminate.
Qed.

Section RequestFacts.
Context {payload : Type} (float : string -> option Q)
        (reply : nat -> http_reply payload).

(** One more sleep, then the rest of the loop. *)
Lemma request_loop_continue (k attempt : nat) (slept : list (nat * Q)) (w : Q) :
  (attempt < 4)%nat -> (w <= 60)%Q -> wait_after float (reply attempt) attempt w ->
  (exists extra,
      snd (request_loop float reply (S attempt) k (slept ++ [(attempt, w)]))
        = (slept ++ [(attempt, w)]) ++ extra /\
      (List.length extra <= k)%nat /\
      forall a v, In (a, v) extra ->
        (a < 4)%nat /\ (v <= 60)%Q /\ wait_after float (reply a) a v) ->
  exists extra,
    snd (request_loop float reply (S attempt) k (slept ++ [(attempt, w)]))
      = slept ++ extra /\
    (List.length extra <= S k)%nat /\
    forall a v, In (a, v) extra ->
      (a < 4)%nat /\ (v <= 60)%Q /\ wait_after float (reply a) a v.
Proof.
  intros Ha Hw Hwait (extra & Heq & Hlen & Hall).
  exists ((attempt, w) :: extra).
  rewrite Heq, <- app_assoc. split; [reflexivity|]. split; [simpl; lia|].
  intros a v [Hin|Hin]; [inversion Hin; subst; auto|now apply Hall].
Qed.

Lemma request_loop_stop (k : nat) (slept : list (nat * Q)) :
  exists extra : list (nat * Q),
    slept = slept ++ extra /\
    (List.length extra <= S k)%nat /\
    forall a v, In (a, v) extra ->
      (a < 4)%nat /\ (v <= 60)%Q /\ wait_after float (reply a) a v.
Proof.
  exists []. rewrite app_nil_r.
  split; [reflexivity|]. split; [simpl; lia|]. intros a v [].
Qed.

Lemma request_loop_sleeps :
  forall remaining attempt slept,
    (attempt + remaining = 4)%nat ->
    exists extra,
      snd (request_loop float reply attempt remaining slept) = slept ++ extra /\
      (List.length extra <= remaining)%nat /\
      forall a w, In (a, w) extra ->
        (a < 4)%nat /\ (w <= 60)%Q /\ wait_after float (reply a) a w.
Proof.
  induction remaining as [|k IH]; intros attempt slept Hsum.
  - exists []. simpl. rewrite app_nil_r.
    split; [reflexivity|]. split; [lia|]. intros a w [].
  - assert (Hlt : (attempt < 4)%nat) by lia.
    pose proof (exponential_delay_le_60 attempt Hlt) as Hexp.
    cbn [request_loop].
    destruct (reply attempt) as [|[data|e]|body|status] eqn:Er.
    + destruct (attempt <? max_retries)%nat; [|apply request_loop_stop].
      apply request_loop_continue; auto; [now rewrite Er|apply IH; lia].
    + apply request_loop_stop.
    + destruct (attempt <? max_retries)%nat; [|apply request_loop_stop].
      apply request_loop_continue; auto; [now rewrite Er|apply IH; lia].
    + destruct (wait_time_of float attempt body) as [suggested|e] eqn:Ew.
      * apply request_loop_continue; auto;
          [apply Q.le_min_r|rewrite Er; simpl; now rewrite Ew|apply IH; lia].
      * destruct (attempt <? max_retries)%nat; [|apply request_loop_stop].
        apply request_loop_continue; auto;
          [rewrite Er; simpl; now rewrite Ew|apply IH; lia].
    + apply request_loop_stop.
Qed.

(** While the replies are 429 the loop goes on, and four of them end it
    with an error value. *)
Lemma request_loop_limited :
  forall remaining attempt slept,
    (forall a, (a < 4)%nat -> exists body, reply a = Status429 body) ->
    (attempt + remaining = 4)%nat ->
    exists e, fst (request_loop float reply attempt remaining slept) = ErrorDict e.
Proof.
  induction remaining as [|k IH]; intros attempt slept Hall Hsum.
  - eexists. reflexivity.
  - cbn [request_loop]. destruct (Hall attempt) as [body ->]; [lia|].
    destruct (wait_time_of float attempt body).
    + apply IH; [exact Hall|lia].
    + destruct (attempt <? max_retries)%nat; [apply IH; [exact Hall|lia]|].
      eexists. reflexivity.
Qed.
End RequestFacts.

(** C8: how _make_request waits on 429 replies.  Every sleep follows an
    attempt numbered below 4 and is at most 60 seconds; after a 429 reply it
    is min(w, 60) for the wait w parsed from the message, and
    min(5 * 2^attempt, 60) when nothing can be parsed; at most 4 sleeps are
    made; when every reply is a 429 the request resolves to an error value.
    A suggested wait of 3 s is slept as 3 s, one of 120 s as 60 s, and with
    nothing to parse the waits are 5, 10, 20 and 40 s. *)
Theorem C8_rate_limit_backoff :
  forall (payload : Type) (float : string -> option Q)
         (reply : nat -> http_reply payload),
    let result := _make_request float reply in
    (List.length (snd result) <= 4)%nat /\
    (forall a w, In (a, w) (snd result) ->
       (a < 4)%nat /\ (w <= 60)%Q /\
       match reply a with
       | Status429 body =>
         match wait_time_of float a body with
         | Ok suggested => w = Qmin suggested 60
         | Raise _ => w = exponential_delay a
         end
       | _ => w = exponential_delay a
       end) /\
    (forall a message after_wait w,
       split_1 "Wait " message = Some after_wait ->
       float (split_0 " seconds" after_wait) = Some w ->
       wait_time_of float a (Some (JObject (Some (JString message)))) = Ok w) /\
    (forall a message,
       split_1 "Wait " message = None ->
       wait_time_of float a (Some (JObject (Some (JString message))))
         = Ok (exponential_delay a) /\
       wait_time_of float a None = Ok (exponential_delay a)) /\
    ((forall a, (a < 4)%nat -> exists body, reply a = Status429 body) ->
     exists e, fst result = ErrorDict e) /\
    _make_request float_decimal (limited_once "3") = (Data tt, [(0%nat, 3%Q)]) /\
    _make_request float_decimal (limited_once "120") = (Data tt, [(0%nat, 60%Q)]) /\
    _make_request float_decimal always_limited =
      (ErrorDict FailedToCompleteRequest,
       [(0%nat, 5%Q); (1%nat, 10%Q); (2%nat, 20%Q); (3%nat, 40%Q)]).
Proof.
  intros payload float reply result.
  destruct (request_loop_sleeps float reply 4 0 [] eq_refl) as (extra & Heq & Hlen & Hall).
  unfold result, _make_request. cbn [max_retries Nat.add].
  rewrite Heq. cbn [app].
  split; [exact Hlen|]. split; [exact Hall|].
  split.
  { intros a message after_wait w Hs Hf. unfold wait_time_of. now rewrite Hs, Hf. }
  split.
  { intros a message Hs. unfold wait_time_of. now rewrite Hs. }
  split.
  { intro Hlim. now apply request_loop_limited. }
  repeat split.
Qed.

(** *** The chunking loop comes to an end *)

Lemma date_chunks_loop_some end_date size :
  0 <= size ->
  forall fuel current_start,
    end_date - current_start < Z.of_nat fuel * day_us ->
    exists chunks, date_chunks_loop fuel current_start end_date size = Some chunks.
Proof.
  intro Hsize.
  induction fuel as [|f IH]; intros current_start Hfuel; cbn [date_chunks_loop].
  - destruct (current_start <? end_date) eqn:E; [|eauto].
    apply Z.ltb_lt in E. unfold day_us in Hfuel. lia.
  - destruct (current_start <? end_date) eqn:E; [|eauto].
    destruct (IH (Z.min (current_start + timedelta_days size) end_date
                  + timedelta_days 1)) as [chunks ->]; [|simpl; eauto].
    unfold timedelta_days, day_us in *. lia.
Qed.

Lemma _get_date_chunks_some start_date end_date size :
  0 <= size ->
  exists chunks, _get_date_chunks start_date end_date size = Some chunks.
Proof.
  intro Hsize. unfold _get_date_chunks.
  destruct (Z.le_gt_cases end_date start_date) as [Hle|Hgt].
  - destruct (Z.to_nat _); simpl;
      (destruct (start_date <? end_date) eqn:E;
       [apply Z.ltb_lt in E; lia|eauto]).
  - apply date_chunks_loop_some; [exact Hsize|].
    rewrite Z2Nat.id.
    + pose proof (Z.mul_succ_div_gt (end_date - start_date) day_us) as H.
      unfold day_us in *. lia.
    + assert (0 <= (end_date - start_date) / day_us)
        by (apply Z.div_pos; unfold day_us; lia).
      lia.
Qed.

Lemma _get_date_chunks_empty start_date :
  forall size, _get_date_chunks start_date start_date size = Some [].
Proof.
  intro size. unfold _get_date_chunks. rewrite Z.sub_diag. simpl.
  now rewrite Z.ltb_irrefl.
Qed.

Lemma fetch_chunks_asked env :
  forall chunks all_matches asked,
    snd (fetch_chunks env chunks all_matches asked) =
    asked ++ map (fun c => (date_of (fst c), date_of (snd c))) chunks.
Proof.
  induction chunks as [|[s e] chunks IH]; intros all_matches asked; simpl.
  - now rewrite app_nil_r.
  - rewrite IH, <- app_assoc. reflexivity.
Qed.

(** C7: every synchronisation pass ends with last_fetched_date set to the
    current date.  When the last stored match is on or after the season end,
    or the window is inverted or empty, no request is made and the matches
    and teams are untouched; otherwise one request is made for every chunk of
    the window, whatever the earlier requests resolved to, and the watermark
    is set afterwards. *)
Theorem C7_watermark_always_advances :
  forall (predict : Database.features -> R * R * R) (env : environment) (d : db),
    let season_end_date := _get_season_end_date env in
    let last_match_date := get_last_match_date d in
    let season_over :=
      match last_match_date with
      | Some l => date_of season_end_date <= date_of l
      | None => False
      end in
    let to_date := season_end_date + timedelta_days 1 in
    let from_date :=
      match last_match_date with
      | Some l => date_of (l - timedelta_days 10) * day_us
      | None => season_start
      end in
    exists (d' : db) (asked : list (Z * Z)),
      update_matches predict env d = Some (d', asked) /\
      last_fetched_date d' = Some (date_of (clock env)) /\
      (season_over \/ to_date <= from_date ->
       asked = [] /\ matches d' = matches d /\ teams d' = teams d) /\
      (~ season_over -> from_date <= to_date ->
       exists chunks,
         _get_date_chunks from_date to_date chunk_size = Some chunks /\
         asked = map (fun c => (date_of (fst c), date_of (snd c))) chunks).
Proof.
  intros predict env d season_end_date last_match_date season_over to_date from_date.
  unfold update_matches.
  fold season_end_date last_match_date to_date from_date.
  destruct (match last_match_date with
            | Some l => date_of season_end_date <=? date_of l
            | None => false
            end) eqn:Eover.
  { (* the last match is on or after the season end *)
    assert (Hover : season_over).
    { unfold season_over. destruct last_match_date; [now apply Z.leb_le|discriminate]. }
    do 2 eexists. split; [reflexivity|]. split; [reflexivity|].
    split; [intros _; repeat split|intro Hn; contradiction]. }
  assert (Hnot : ~ season_over).
  { unfold season_over. destruct last_match_date; [|tauto].
    apply Z.leb_gt in Eover. lia. }
  destruct (to_date <? from_date) eqn:Einv.
  { (* the window is inverted *)
    apply Z.ltb_lt in Einv.
    do 2 eexists. split; [reflexivity|]. split; [reflexivity|].
    split; [intros _; repeat split|intros _ Hle; lia]. }
  apply Z.ltb_ge in Einv.
  destruct (_get_date_chunks_some from_date to_date chunk_size) as [chunks Hchunks];
    [unfold chunk_size; lia|].
  rewrite Hchunks.
  destruct (fetch_chunks env chunks [] []) as [all_matches asked] eqn:Efetch.
  pose proof (fetch_chunks_asked env chunks [] []) as Hasked.
  rewrite Efetch in Hasked. simpl in Hasked.
  do 2 eexists. split; [reflexivity|]. split; [reflexivity|]. split.
  - intros [Hover|Hempty]; [contradiction|].
    assert (Heq : to_date = from_date) by lia.
    rewrite Heq, _get_date_chunks_empty in Hchunks.
    inversion Hchunks; subst chunks. simpl in Efetch.
    inversion Efetch; subst. repeat split.
  - intros _ _. exists chunks. split; [reflexivity|exact Hasked].
Qed.

(** As process_new_matches stores nothing, a pass changes the store in its
    watermark only. *)
Lemma update_matches_only_sets_watermark predict env d d' asked :
  update_matches predict env d = Some (d', asked) ->
  d' = Database.set_last_fetched_date d (date_of (clock env)).
Proof.
  unfold update_matches.
  destruct (match get_last_match_date d with
            | Some l => date_of (_get_season_end_date env) <=? date_of l
            | None => false
            end); [intro H; now inversion H|].
  destruct (_ <? _); [intro H; now inversion H|].
  destruct (_get_date_chunks _ _ _) as [chunks|]; [|discriminate].
  destruct (fetch_chunks env chunks [] []) as [all_matches asked'].
  rewrite process_new_matches_stores_nothing.
  destruct all_matches; intro H; now inversion H.
Qed.

(** A pass on day 20000 over the empty store, every request failing: the
    eleven chunks from 2024-08-01 to day 20001 are all asked for, and the
    watermark is day 20000. *)
Lemma update_matches_when_every_request_fails predict :
  exists asked,
    update_matches predict failing_environment empty_db =
      Some (Database.set_last_fetched_date empty_db 20000, asked) /\
    List.length asked = 11%nat /\
    hd_error asked = Some (19936, 19941) /\
    last asked (0, 0) = (19996, 20001).
Proof.
  eexists. split; [vm_compute; reflexivity|]. repeat split.
Qed.

(** * Further properties *)

(** ** The rating computation *)

Lemma home_expected_between rH rA res :
  (0 < home_expected (elo_computation rH rA res) < 1)%R.
Proof.
  unfold elo_computation.
  destruct (res =? -1); [|destruct (res =? 0)]; cbn [home_expected];
    (set (x := pow10 _);
     assert (Hx : (0 < x)%R) by apply exp_pos;
     split;
     [apply Rdiv_lt_0_compat; lra
     |apply Rmult_lt_reg_r with (r := (1 + x)%R); [lra|];
      replace (1 / (1 + x) * (1 + x))%R with 1%R by (field; lra); lra]).
Qed.

(** X1: the expected score of the home side lies strictly between 0 and 1,
    so one match moves each rating by less than the K-factor of 30 points;
    the winner's rating goes up and the loser's goes down, whatever the two
    ratings were. *)
Theorem X1_rating_change_is_bounded :
  forall (rH rA : R) (res : Z),
    let c := elo_computation rH rA res in
    (0 < home_expected c < 1)%R /\
    (Rabs (new_home_elo c - rH) < 30)%R /\
    (Rabs (new_away_elo c - rA) < 30)%R /\
    (res = -1 -> (rH < new_home_elo c /\ new_away_elo c < rA)%R) /\
    (res <> -1 -> res <> 0 -> (new_home_elo c < rH /\ rA < new_away_elo c)%R).
Proof.
  intros rH rA res c.
  pose proof (home_expected_between rH rA res) as He. fold c in He.
  split; [exact He|].
  assert (Hnew : new_home_elo c = (rH + 30 * (home_actual c - home_expected c))%R /\
                 new_away_elo c = (rA + 30 * (away_actual c - (1 - home_expected c)))%R /\
                 ((res = -1 /\ home_actual c = 1%R /\ away_actual c = 0%R) \/
                  (res = 0 /\ home_actual c = (5 / 10)%R /\ away_actual c = (5 / 10)%R) \/
                  (res <> -1 /\ res <> 0 /\ home_actual c = 0%R /\ away_actual c = 1%R))).
  { unfold c, elo_computation, K_FACTOR.
    destruct (res =? -1) eqn:E1; [|destruct (res =? 0) eqn:E0]; cbn;
      repeat split; auto.
    - left. apply Z.eqb_eq in E1. auto.
    - right. left. apply Z.eqb_eq in E0. auto.
    - right. right. apply Z.eqb_neq in E1, E0. auto. }
  destruct Hnew as (-> & -> & Hcase).
  destruct Hcase as [(Hr & -> & ->)|[(Hr & -> & ->)|(Hr1 & Hr0 & -> & ->)]];
    (split; [apply Rabs_def1; lra|]); (split; [apply Rabs_def1; lra|]);
    split; intros; try lia; try lra.
Qed.




(** ** update_elo_ratings *)

Lemma update_rating_keeps_identity now tid elo ts :
  map team_id (update_rating now tid elo ts) = map team_id ts /\
  map name (update_rating now tid elo ts) = map name ts /\
  map api_team_id (update_rating now tid elo ts) = map api_team_id ts.
Proof.
  unfold update_rating. rewrite !map_map.
  repeat split; apply map_ext; intro t; now destruct (team_id t =? tid).
Qed.

Lemma update_elo_ratings_frame :
  forall (now : Z) (d d' : db) (mid : Z),
    Database.update_elo_ratings now d mid = Ok d' ->
    matches d' = matches d /\
    match_predictions d' = match_predictions d /\
    last_fetched_date d' = last_fetched_date d /\
    teams_seq d' = teams_seq d /\
    matches_seq d' = matches_seq d /\
    map team_id (teams d') = map team_id (teams d) /\
    map name (teams d') = map name (teams d) /\
    map api_team_id (teams d') = map api_team_id (teams d) /\
    exists m,
      match_by_id (matches d) mid = Some m /\
      forall tid, tid <> home_team_id m -> tid <> away_team_id m ->
                  team_by_id (teams d') tid = team_by_id (teams d) tid.
Proof.
  intros now d d' mid. unfold Database.update_elo_ratings.
  destruct (match_by_id (matches d) mid) as [m|]; [|discriminate].
  destruct (team_by_id (teams d) (home_team_id m)) as [ht|]; [|discriminate].
  destruct (team_by_id (teams d) (away_team_id m)) as [awt|]; [|discriminate].
  intro H. inversion H; subst. cbn [matches match_predictions last_fetched_date
    teams_seq matches_seq teams set_teams].
  set (c := elo_computation _ _ _).
  destruct (update_rating_keeps_identity now (home_team_id m) (new_home_elo c) (teams d))
    as (I1 & N1 & A1).
  destruct (update_rating_keeps_identity now (away_team_id m) (new_away_elo c)
              (update_rating now (home_team_id m) (new_home_elo c) (teams d)))
    as (I2 & N2 & A2).
  repeat (split; [reflexivity || congruence|]).
  exists m. split; [reflexivity|].
  intros tid Hh Ha. rewrite !team_by_id_update_rating.
  apply Z.eqb_neq in Hh, Ha. now rewrite Hh, Ha.
Qed.


(** X3: a successful update_elo_ratings rewrites the rating and the
    timestamp of the two sides of the match and nothing else: the matches,
    the predictions, the watermark and the counters are as before, every team
    keeps its id, its name and its API id, and the row of any third team is
    unchanged. *)
Theorem X3_update_elo_ratings_touches_two_rows :
  forall (now : Z) (d d' : db) (mid : Z),
    Database.update_elo_ratings now d mid = Ok d' ->
    matches d' = matches d /\
    match_predictions d' = match_predictions d /\
    last_fetched_date d' = last_fetched_date d /\
    teams_seq d' = teams_seq d /\
    matches_seq d' = matches_seq d /\
    map team_id (teams d') = map team_id (teams d) /\
    map name (teams d') = map name (teams d) /\
    map api_team_id (teams d') = map api_team_id (teams d) /\
    exists m,
      match_by_id (matches d) mid = Some m /\
      forall tid, tid <> home_team_id m -> tid <> away_team_id m ->
                  team_by_id (teams d') tid = team_by_id (teams d) tid.
Proof. exact update_elo_ratings_frame. Qed.

Lemma X3_update_elo_ratings_touches_two_rows_witness :
  exists d',
    Database.update_elo_ratings 7 example_db 1 = Ok d' /\
    matches d' = matches example_db /\
    map name (teams d') = map name (teams example_db).
Proof.
  exists (match Database.update_elo_ratings 7 example_db 1 with
          | Ok d' => d'
          | Raise _ => example_db
          end).
  split; [reflexivity|].
  destruct (X3_update_elo_ratings_touches_two_rows 7 example_db _ 1 eq_refl)
    as (Hm & _ & _ & _ & _ & _ & Hn & _).
  split; [exact Hm|exact Hn].
Defined.

(** ** add_new_match *)

(** X4: after a team has been resolved, the lookup by its API id returns
    the resolved team, and resolving it again, under whatever name, changes
    nothing; resolution adds at most one row, and none when the API id or the
    name was known. *)
Theorem X4_resolve_team_is_stable :
  forall (now now' : Z) (d d' : db) (api tid : Z) (nm nm' : string),
    Database.resolve_team now d api nm = (d', tid) ->
    (exists t, Database.team_by_api_id (teams d') api = Some t /\ team_id t = tid) /\
    Database.resolve_team now' d' api nm' = (d', tid) /\
    (List.length (teams d) <= List.length (teams d') <= S (List.length (teams d)))%nat /\
    (Database.team_by_api_id (teams d) api <> None \/
     Database.team_by_name (teams d) nm <> None ->
     List.length (teams d') = List.length (teams d)).
Proof.
  intros now now' d d' api tid nm nm' Hres.
  pose proof (resolve_team_first_api _ _ _ _ _ _ Hres) as Hfirst.
  split; [exact Hfirst|]. split; [now apply resolve_team_found|].
  unfold Database.resolve_team in Hres.
  destruct (Database.team_by_api_id (teams d) api) as [t|].
  - inversion Hres; subst. split; [lia|auto].
  - destruct (Database.team_by_name (teams d) nm) as [t|].
    + inversion Hres; subst. cbn [teams set_teams]. unfold Database.set_api_id.
      rewrite length_map. split; [lia|auto].
    + unfold Database.insert_team in Hres. inversion Hres; subst. cbn [teams].
      rewrite length_app. simpl. split; [lia|].
      intros [H|H]; congruence.
Qed.

Lemma X4_resolve_team_is_stable_witness :
  Database.resolve_team 9
    (fst (Database.resolve_team 3 empty_db 57 "Arsenal")) 57 "Arsenal FC"
  = Database.resolve_team 3 empty_db 57 "Arsenal".
Proof.
  exact (proj1 (proj2 (X4_resolve_team_is_stable 3 9 empty_db
                         (fst (Database.resolve_team 3 empty_db 57 "Arsenal"))
                         57 1 "Arsenal" "Arsenal FC" eq_refl))).
Defined.

Lemma set_api_id_core tid api ts :
  map team_core (Database.set_api_id tid api ts) = map team_core ts.
Proof.
  unfold Database.set_api_id. rewrite map_map. apply map_ext.
  intro t. now destruct (team_id t =? tid).
Qed.

Lemma resolve_team_core now d api nm d' tid :
  Database.resolve_team now d api nm = (d', tid) ->
  matches d' = matches d /\
  match_predictions d' = match_predictions d /\
  last_fetched_date d' = last_fetched_date d /\
  exists extra,
    map team_core (teams d') = map team_core (teams d) ++ map team_core extra /\
    (List.length extra <= 1)%nat /\
    forall t, In t extra -> current_elo_rating t = 1500%R /\ updated_at t = now.
Proof.
  unfold Database.resolve_team.
  destruct (Database.team_by_api_id (teams d) api) as [t|].
  - intro H. inversion H; subst. repeat split.
    exists []. rewrite app_nil_r. repeat split; [simpl; lia|destruct H0|destruct H0].
  - destruct (Database.team_by_name (teams d) nm) as [t|].
    + intro H. inversion H; subst. cbn [teams matches match_predictions
        last_fetched_date set_teams]. repeat split.
      exists []. rewrite app_nil_r, set_api_id_core.
      repeat split; [simpl; lia|destruct H0|destruct H0].
    + unfold Database.insert_team. intro H. inversion H; subst.
      cbn [teams matches match_predictions last_fetched_date]. repeat split.
      exists [mk_team (teams_seq d + 1) (Some api) nm 1500%R now].
      rewrite map_app. split; [reflexivity|]. split; [simpl; lia|].
      intros t [<-|[]]. split; reflexivity.
Qed.

(** X5: add_new_match appends at most one match row, whose id it returns,
    and at most two team rows, each with the rating 1500.0; it keeps every
    stored match as it is and the id, name, rating and timestamp of every
    stored team (only an API id can be written on it), and it touches neither
    the predictions nor the watermark. *)
Theorem X5_add_new_match_only_appends :
  forall (now : Z) (d : db) (md : Database.match_data),
    let result := Database.add_new_match now d md in
    ((matches (fst result) = matches d /\ snd result = None) \/
     (exists row, matches (fst result) = matches d ++ [row] /\
                  snd result = Some (match_id row))) /\
    (exists new_teams,
        map team_core (teams (fst result)) =
          map team_core (teams d) ++ map team_core new_teams /\
        (List.length new_teams <= 2)%nat /\
        forall t, In t new_teams ->
                  current_elo_rating t = 1500%R /\ updated_at t = now) /\
    match_predictions (fst result) = match_predictions d /\
    last_fetched_date (fst result) = last_fetched_date d.
Proof.
  intros now d md result. unfold result, Database.add_new_match, Database.resolve_teams.
  destruct (Database.resolve_team now d _ _) as [d1 h] eqn:E1.
  destruct (Database.resolve_team now d1 _ _) as [d2 a] eqn:E2.
  destruct (resolve_team_core _ _ _ _ _ _ E1) as (M1 & P1 & W1 & x1 & C1 & L1 & R1).
  destruct (resolve_team_core _ _ _ _ _ _ E2) as (M2 & P2 & W2 & x2 & C2 & L2 & R2).
  assert (Hteams : exists new_teams,
            map team_core (teams d2) = map team_core (teams d) ++ map team_core new_teams /\
            (List.length new_teams <= 2)%nat /\
            forall t, In t new_teams ->
                      current_elo_rating t = 1500%R /\ updated_at t = now).
  { exists (x1 ++ x2). rewrite C2, C1, map_app, app_assoc.
    split; [reflexivity|]. split; [rewrite length_app; lia|].
    intros t Ht. apply in_app_or in Ht. destruct Ht; auto. }
  destruct (Database.existing_match d2 _ _ h a).
  - cbn [fst snd]. split; [left; split; [congruence|reflexivity]|].
    split; [exact Hteams|]. split; congruence.
  - destruct (Database.violates_integrity _ _); cbn [fst snd matches teams
      match_predictions last_fetched_date].
    + split; [left; split; [congruence|reflexivity]|].
      split; [exact Hteams|]. split; congruence.
    + split; [right; eexists; split; [rewrite M2, M1; reflexivity|reflexivity]|].
      split; [exact Hteams|]. split; congruence.
Qed.

(** *** The constraints of the schema *)

Lemma somes_app {A : Type} (l l' : list (option A)) :
  somes (l ++ l') = somes l ++ somes l'.
Proof.
  induction l as [|[x|] l IH]; simpl; [reflexivity| |exact IH].
  now rewrite IH.
Qed.

Lemma in_somes {A : Type} (x : A) (l : list (option A)) :
  In x (somes l) <-> In (Some x) l.
Proof.
  induction l as [|[y|] l IH]; simpl.
  - tauto.
  - rewrite IH. split; intros [H|H]; auto; left; congruence.
  - rewrite IH. split; [auto|intros [H|H]; [discriminate|auto]].
Qed.

Lemma has_api_id_none_not_in api ts :
  find (Database.has_api_id api) ts = None ->
  ~ In api (somes (map api_team_id ts)).
Proof.
  intros Hnone Hin. apply in_somes, in_map_iff in Hin.
  destruct Hin as (t & Hapi & Ht).
  pose proof (find_none _ _ Hnone t Ht) as Hf.
  unfold Database.has_api_id in Hf. rewrite Hapi, Z.eqb_refl in Hf. discriminate.
Qed.

Lemma set_api_id_absent tid api ts :
  ~ In tid (map team_id ts) -> Database.set_api_id tid api ts = ts.
Proof.
  unfold Database.set_api_id. induction ts as [|x ts IH]; simpl; [reflexivity|].
  intro H. destruct (team_id x =? tid) eqn:E.
  - apply Z.eqb_eq in E. exfalso. apply H. now left.
  - rewrite IH; [reflexivity|]. intro Hin. apply H. now right.
Qed.

Lemma set_api_id_unique tid api ts :
  NoDup (map team_id ts) ->
  ~ In api (somes (map api_team_id ts)) ->
  NoDup (somes (map api_team_id ts)) ->
  NoDup (somes (map api_team_id (Database.set_api_id tid api ts))).
Proof.
  induction ts as [|x ts IH]; simpl; intros Hids Hnot Hnd; [constructor|].
  inversion Hids as [|? ? Hx Hids']; subst.
  destruct (team_id x =? tid) eqn:E.
  - apply Z.eqb_eq in E. subst tid.
    fold (Database.set_api_id (team_id x) api ts).
    rewrite (set_api_id_absent _ _ _ Hx). cbn [api_team_id somes].
    destruct (api_team_id x) as [a|]; simpl in Hnot, Hnd.
    + inversion Hnd; subst. constructor; [tauto|assumption].
    + constructor; assumption.
  - fold (Database.set_api_id tid api ts).
    destruct (api_team_id x) as [a|] eqn:Ea; simpl in Hnot, Hnd |- *.
    + inversion Hnd as [|? ? Ha Hnd']; subst.
      constructor; [|apply IH; tauto].
      intro Hin. apply in_somes, in_map_iff in Hin.
      destruct Hin as (t & Hapi & Ht).
      unfold Database.set_api_id in Ht. apply in_map_iff in Ht.
      destruct Ht as (t0 & Ht0 & Hin0).
      destruct (team_id t0 =? tid); subst t; simpl in Hapi.
      * inversion Hapi; subst. tauto.
      * apply Ha, in_somes, in_map_iff. eauto.
    + apply IH; assumption.
Qed.

Lemma resolve_team_teams_ok now d api nm d' tid :
  Database.resolve_team now d api nm = (d', tid) ->
  teams_ok d -> teams_ok d'.
Proof.
  unfold Database.resolve_team, Database.team_by_api_id, Database.team_by_name.
  destruct (find (Database.has_api_id api) (teams d)) as [t|] eqn:Eapi.
  - intro H. inversion H; subst. trivial.
  - pose proof (has_api_id_none_not_in _ _ Eapi) as Hnot.
    destruct (find (fun t => String.eqb (name t) nm) (teams d)) as [t|].
    + intro H. inversion H; subst. intros (Hids & Hseq & Hapis).
      unfold teams_ok. cbn [teams teams_seq set_teams].
      assert (Hmap : map team_id (Database.set_api_id (team_id t) api (teams d))
                     = map team_id (teams d)).
      { unfold Database.set_api_id. rewrite map_map. apply map_ext.
        intro r. now destruct (team_id r =? team_id t). }
      split; [now rewrite Hmap|]. split; [|now apply set_api_id_unique].
      intros r Hr. unfold Database.set_api_id in Hr. apply in_map_iff in Hr.
      destruct Hr as (r0 & <- & Hr0). specialize (Hseq r0 Hr0).
      now destruct (team_id r0 =? team_id t).
    + unfold Database.insert_team. intro H. inversion H; subst.
      intros (Hids & Hseq & Hapis). unfold teams_ok. cbn [teams teams_seq].
      rewrite !map_app, somes_app. cbn [map team_id api_team_id somes].
      split; [|split].
      * apply NoDup_app; [exact Hids|repeat constructor; intros []|].
        intros x Hx [<-|[]]. apply in_map_iff in Hx.
        destruct Hx as (r & Hr & Hin). specialize (Hseq r Hin). lia.
      * intros r Hr. apply in_app_or in Hr. destruct Hr as [Hr|[<-|[]]].
        -- specialize (Hseq r Hr). lia.
        -- simpl. lia.
      * apply NoDup_app; [exact Hapis|repeat constructor; intros []|].
        intros x Hx [<-|[]]. contradiction.
Qed.

Lemma resolve_teams_teams_ok now d md d' h a :
  Database.resolve_teams now d md = (d', h, a) ->
  teams_ok d -> teams_ok d'.
Proof.
  unfold Database.resolve_teams.
  destruct (Database.resolve_team now d _ _) as [d1 h1] eqn:E1.
  destruct (Database.resolve_team now d1 _ _) as [d2 a2] eqn:E2.
  intro H. inversion H; subst. intro Hok.
  eapply resolve_team_teams_ok; [exact E2|].
  eapply resolve_team_teams_ok; [exact E1|exact Hok].
Qed.

Lemma violates_integrity_false ms r :
  Database.violates_integrity ms r = false ->
  match api_match_id r with
  | Some a => ~ In a (somes (map api_match_id ms))
  | None =>
    ~ In (triple r)
         (map triple (filter (fun m => match api_match_id m with
                                       | None => true
                                       | Some _ => false
                                       end) ms))
  end.
Proof.
  unfold Database.violates_integrity.
  destruct (api_match_id r) as [a|]; intros Hf Hin.
  - apply in_somes, in_map_iff in Hin. destruct Hin as (m & Hm & Hin).
    assert (Ht : existsb (Database.same_api_match_id a) ms = true).
    { apply existsb_exists. exists m. split; [exact Hin|].
      unfold Database.same_api_match_id. now rewrite Hm, Z.eqb_refl. }
    congruence.
  - apply in_map_iff in Hin. destruct Hin as (m & Htr & Hin).
    apply filter_In in Hin. destruct Hin as [Hin Hnull].
    assert (Ht : existsb (fun m => match api_match_id m with
                                   | None => Database.same_date_and_teams (date r)
                                               (home_team_id r) (away_team_id r) m
                                   | Some _ => false
                                   end) ms = true).
    { apply existsb_exists. exists m. split; [exact Hin|].
      destruct (api_match_id m); [discriminate|].
      now apply same_date_and_teams_triple. }
    congruence.
Qed.

Lemma schema_ok_teams_ok d : schema_ok d -> teams_ok d.
Proof. intros (H1 & H2 & H3 & _). now repeat split. Qed.

Lemma add_new_match_schema_ok now d md :
  schema_ok d -> schema_ok (fst (Database.add_new_match now d md)).
Proof.
  intro Hok. pose proof (schema_ok_teams_ok d Hok) as Hteams.
  destruct Hok as (_ & _ & _ & Hmids & Hmseq & Hmapi & Hmtr).
  unfold Database.add_new_match.
  destruct (Database.resolve_teams now d md) as [[d2 h] a] eqn:Eres.
  destruct (resolve_teams_teams_ok _ _ _ _ _ _ Eres Hteams) as (T1 & T2 & T3).
  destruct (resolve_teams_facts _ _ _ _ _ _ Eres) as (Hm & Hs & _).
  assert (Hok2 : schema_ok d2).
  { unfold schema_ok. rewrite Hm, Hs. repeat split; assumption. }
  destruct (Database.existing_match d2 _ _ h a); [exact Hok2|].
  destruct (Database.violates_integrity _ _) eqn:Ev; [exact Hok2|].
  apply violates_integrity_false in Ev. cbn [api_match_id triple date
    home_team_id away_team_id] in Ev.
  unfold schema_ok. cbn [fst teams matches teams_seq matches_seq].
  rewrite Hm in *. rewrite Hs.
  rewrite !map_app, somes_app, filter_app, map_app.
  cbn [map match_id api_match_id filter].
  split; [exact T1|]. split; [exact T2|]. split; [exact T3|].
  split; [|split; [|split]].
  - apply NoDup_app; [exact Hmids|repeat constructor; intros []|].
    intros x Hx [<-|[]]. apply in_map_iff in Hx.
    destruct Hx as (r & Hr & Hin). specialize (Hmseq r Hin). lia.
  - intros r Hr. apply in_app_or in Hr. destruct Hr as [Hr|[<-|[]]].
    + specialize (Hmseq r Hr). lia.
    + simpl. lia.
  - destruct (Database.md_match_id md) as [api|]; cbn [somes].
    + apply NoDup_app; [exact Hmapi|repeat constructor; intros []|].
      intros x Hx [<-|[]]. contradiction.
    + now rewrite app_nil_r.
  - destruct (Database.md_match_id md) as [api|]; cbn [map].
    + now rewrite app_nil_r.
    + apply NoDup_app; [exact Hmtr|repeat constructor; intros []|].
      intros x Hx [<-|[]]. contradiction.
Qed.

Lemma update_elo_ratings_schema_ok now d mid d' :
  Database.update_elo_ratings now d mid = Ok d' -> schema_ok d -> schema_ok d'.
Proof.
  intros Hup (H1 & H2 & H3 & H4 & H5 & H6 & H7).
  destruct (update_elo_ratings_frame _ _ _ _ Hup)
    as (Hm & _ & _ & Hts & Hms & Hids & _ & Hapis & _).
  unfold schema_ok. rewrite Hm, Hts, Hms, Hids, Hapis.
  repeat split; try assumption.
  intros t Ht. apply (in_map team_id) in Ht. rewrite Hids in Ht.
  apply in_map_iff in Ht. destruct Ht as (t0 & <- & Ht0). now apply H2.
Qed.

Lemma add_and_rate_schema_ok now d md :
  schema_ok d -> schema_ok (fst (Database.add_and_rate now d md)).
Proof.
  intro Hok. pose proof (add_new_match_schema_ok now d md Hok) as H1.
  unfold Database.add_and_rate.
  destruct (Database.add_new_match now d md) as [d1 [mid|]]; [|exact H1].
  destruct (mid =? 0); [exact H1|].
  destruct (Database.update_elo_ratings now d1 mid) as [d2|e] eqn:Eup; [|exact H1].
  exact (update_elo_ratings_schema_ok _ _ _ _ Eup H1).
Qed.

(** X6: add_new_match, alone or followed by update_elo_ratings, never
    breaks a constraint of the schema: on a store whose team ids, API team
    ids, match ids and API match ids are unique (and whose ids are not above
    the AUTOINCREMENT counters) they are still unique afterwards, and no two
    rows without API match id share a date and a pair of teams. *)
Theorem X6_add_new_match_keeps_the_schema :
  forall (now : Z) (d : db) (md : Database.match_data),
    schema_ok d ->
    schema_ok (fst (Database.add_new_match now d md)) /\
    schema_ok (fst (Database.add_and_rate now d md)).
Proof.
  intros now d md Hok. split.
  - now apply add_new_match_schema_ok.
  - now apply add_and_rate_schema_ok.
Qed.

Lemma schema_ok_empty_db : schema_ok empty_db.
Proof.
  unfold schema_ok, empty_db. cbn.
  repeat split; try constructor; intros ? [].
Defined.

Lemma X6_add_new_match_keeps_the_schema_witness :
  schema_ok (fst (Database.add_and_rate 1 empty_db (arsenal_chelsea (Some 9001)))).
Proof.
  exact (proj2 (X6_add_new_match_keeps_the_schema 1 empty_db
                  (arsenal_chelsea (Some 9001)) schema_ok_empty_db)).
Defined.

Lemma match_by_id_above ms mid :
  (forall m, In m ms -> match_id m < mid) -> match_by_id ms mid = None.
Proof.
  intro H. unfold match_by_id.
  destruct (find (fun m => match_id m =? mid) ms) as [m|] eqn:E; [|reflexivity].
  apply find_some in E. destruct E as [Hin Heq]. apply Z.eqb_eq in Heq.
  specialize (H m Hin). lia.
Qed.

(** X7: on a store that satisfies the schema, the id add_new_match returns
    is the id of the row it stored: looking it up gives the record's API
    match id, date, goals and result between two teams that have a row, every
    older id still gives its old row, and update_elo_ratings on the new id
    does not raise. *)
Theorem X7_added_match_is_found :
  forall (now : Z) (d d' : db) (md : Database.match_data) (mid : Z),
    schema_ok d ->
    Database.add_new_match now d md = (d', Some mid) ->
    (exists row,
        match_by_id (matches d') mid = Some row /\
        api_match_id row = Database.md_match_id md /\
        date row = Database.md_date md /\
        home_goals row = Database.md_home_goals md /\
        away_goals row = Database.md_away_goals md /\
        result row = Database.md_result md /\
        has_team (teams d') (home_team_id row) = true /\
        has_team (teams d') (away_team_id row) = true) /\
    (forall mid' m, match_by_id (matches d) mid' = Some m ->
                    match_by_id (matches d') mid' = Some m) /\
    (exists d'', Database.update_elo_ratings now d' mid = Ok d'').
Proof.
  intros now d d' md mid Hok. unfold Database.add_new_match.
  destruct (Database.resolve_teams now d md) as [[d2 h] a] eqn:Eres.
  destruct (resolve_teams_facts _ _ _ _ _ _ Eres) as (Hm & Hs & Hh & Ha & _ & _).
  destruct (Database.existing_match d2 _ _ h a); [discriminate|].
  destruct (Database.violates_integrity _ _); [discriminate|].
  intro H. inversion H; subst. clear H. cbn [matches teams].
  destruct Hok as (_ & _ & _ & _ & Hseq & _ & _).
  assert (Hnew : match_by_id (matches d2) (matches_seq d2 + 1) = None).
  { apply match_by_id_above. intros m Hin. rewrite Hm in Hin.
    specialize (Hseq m Hin). lia. }
  set (row := mk_match (matches_seq d2 + 1) (Database.md_match_id md) h a
                (Database.md_date md) (Database.md_home_goals md)
                (Database.md_away_goals md) (Database.md_result md)).
  assert (Hfind : match_by_id (matches d2 ++ [row]) (matches_seq d2 + 1) = Some row).
  { unfold match_by_id in *. rewrite (find_app_none _ _ _ Hnew). simpl.
    now rewrite Z.eqb_refl. }
  split; [|split].
  - exists row. repeat split; assumption.
  - intros mid' m Hold. unfold match_by_id in *. rewrite <- Hm in Hold.
    now apply find_app_some.
  - unfold Database.update_elo_ratings. cbn [matches teams]. rewrite Hfind.
    cbn [home_team_id away_team_id row].
    apply existsb_find in Hh. destruct Hh as [ht Hht].
    apply existsb_find in Ha. destruct Ha as [awt Hawt].
    unfold team_by_id. rewrite Hht, Hawt. eauto.
Qed.

Lemma X7_added_match_is_found_witness :
  exists row,
    match_by_id
      (matches (fst (Database.add_new_match 1 empty_db (arsenal_chelsea (Some 9001)))))
      1 = Some row /\
    api_match_id row = Some 9001.
Proof.
  destruct (X7_added_match_is_found 1 empty_db
              (fst (Database.add_new_match 1 empty_db (arsenal_chelsea (Some 9001))))
              (arsenal_chelsea (Some 9001)) 1 schema_ok_empty_db eq_refl)
    as ((row & Hfind & Hapi & _) & _).
  exists row. split; [exact Hfind|exact Hapi].
Defined.

(** ** Predictions *)

(** X8: a prediction is stored once.  insert_match_prediction stores the
    probabilities of a match that has none, so that get_prediction_for_match
    returns them; for a match that has a prediction it changes nothing; and
    in both cases the prediction of every other match, the teams and the
    matches are as before. *)
Theorem X8_prediction_is_stored_once :
  forall (d : db) (mid : Z) (p : R * R * R),
    let d' := Database.insert_match_prediction d mid p in
    (DatabaseReads.get_prediction_for_match d mid = None ->
     DatabaseReads.get_prediction_for_match d' mid = Some p) /\
    (DatabaseReads.get_prediction_for_match d mid <> None -> d' = d) /\
    (forall mid' q, DatabaseReads.get_prediction_for_match d mid' = Some q ->
                    DatabaseReads.get_prediction_for_match d' mid' = Some q) /\
    (forall mid', mid' <> mid ->
                  DatabaseReads.get_prediction_for_match d' mid' =
                  DatabaseReads.get_prediction_for_match d mid') /\
    teams d' = teams d /\ matches d' = matches d.
Proof.
  intros d mid p d'. unfold d', Database.insert_match_prediction,
    DatabaseReads.get_prediction_for_match.
  destruct (existsb (fun r => pred_match_id r =? mid) (match_predictions d)) eqn:Eex.
  - apply existsb_find in Eex. destruct Eex as [r Hr]. rewrite Hr.
    repeat split; auto; discriminate.
  - assert (Hnone : find (fun r => pred_match_id r =? mid) (match_predictions d) = None).
    { destruct (find _ (match_predictions d)) as [r|] eqn:E; [|reflexivity].
      assert (H : existsb (fun r => pred_match_id r =? mid) (match_predictions d) = true)
        by (apply existsb_find; eauto).
      congruence. }
    rewrite Hnone. cbn [match_predictions teams matches].
    split; [|split; [|split; [|split]]].
    + intros _. rewrite (find_app_none _ _ _ Hnone). simpl.
      rewrite Z.eqb_refl. simpl. now destruct p as [[? ?] ?].
    + intro H. now contradiction H.
    + intros mid' q Hq.
      destruct (find (fun r => pred_match_id r =? mid') (match_predictions d))
        as [r|] eqn:E; [|discriminate].
      now rewrite (find_app_some _ _ _ _ E).
    + intros mid' Hne.
      destruct (find (fun r => pred_match_id r =? mid') (match_predictions d))
        as [r|] eqn:E.
      * now rewrite (find_app_some _ _ _ _ E).
      * rewrite (find_app_none _ _ _ E). simpl.
        apply Z.eqb_neq in Hne. rewrite Z.eqb_sym in Hne. now rewrite Hne.
    + split; reflexivity.
Qed.

(** ** Feature computation *)

Lemma count_draws_bounds rows :
  0 <= Database.count_draws rows <= Z.of_nat (List.length rows).
Proof.
  unfold Database.count_draws. pose proof (filter_length_le (fun m => result m =? 0) rows).
  lia.
Qed.

Lemma last_5_length rows : (List.length (Database.last_5 rows) <= 5)%nat.
Proof. unfold Database.last_5. rewrite length_firstn. lia. Qed.

Lemma draw_tendency_bounds rows :
  (0 <= Database.or_zero (Database.draw_tendency rows) <= 1)%Q.
Proof.
  unfold Database.draw_tendency.
  destruct rows as [|m rows]; [split; discriminate|].
  cbn [Database.or_zero].
  pose proof (count_draws_bounds (m :: rows)) as [Hlo Hhi].
  set (n := List.length (m :: rows)) in *.
  assert (Hn : n <> 0%nat) by (unfold n; simpl; lia).
  unfold Qle. cbn [Qnum Qden].
  split; [lia|].
  assert (Hp : Z.pos (Pos.of_nat n) = Z.of_nat n).
  { destruct n as [|k]; [contradiction|].
    rewrite <- Pos.of_nat_succ, Zpos_P_of_succ_nat. lia. }
  rewrite Hp. lia.
Qed.

Lemma get_match_features_some d h a f :
  Database.get_match_features d h a = Some f ->
  exists hrow arow ht awt,
    Database.team_by_api_id (teams d) h = Some hrow /\
    Database.team_by_api_id (teams d) a = Some arow /\
    team_by_id (teams d) (team_id hrow) = Some ht /\
    team_by_id (teams d) (team_id arow) = Some awt /\
    Database.get_match_features_body d h a = Ok (Some f).
Proof.
  unfold Database.get_match_features.
  destruct (Database.get_match_features_body d h a) as [r|e] eqn:Eb; [|discriminate].
  intro H. subst r. revert Eb. unfold Database.get_match_features_body.
  destruct (Database.team_by_api_id (teams d) h) as [hrow|]; [|discriminate].
  destruct (Database.team_by_api_id (teams d) a) as [arow|]; [|discriminate].
  destruct (team_by_id (teams d) (team_id hrow)) as [ht|] eqn:Eh; [|discriminate].
  destruct (team_by_id (teams d) (team_id arow)) as [awt|] eqn:Ea; [|discriminate].
  intro H. exists hrow, arow, ht, awt. rewrite Eh, Ea. auto.
Qed.

(** X9: in the vector get_match_features returns, the two ratings are the
    stored ratings of the two teams, Elo_Difference is the home rating minus
    the away rating, the head-to-head draw count lies between 0 and 5, and
    the two draw tendencies lie between 0 and 1. *)
Theorem X9_feature_vector_is_in_range :
  forall (d : db) (h a : Z) (f : Database.features),
    Database.get_match_features d h a = Some f ->
    (exists hrow arow,
        Database.team_by_api_id (teams d) h = Some hrow /\
        Database.team_by_api_id (teams d) a = Some arow /\
        rating_of d (team_id hrow) = Some (Database.Home_Elo f) /\
        rating_of d (team_id arow) = Some (Database.Away_Elo f)) /\
    Database.Elo_Difference f = (Database.Home_Elo f - Database.Away_Elo f)%R /\
    0 <= Database.H2H_Draws_Last_5 f <= 5 /\
    (0 <= Database.Draw_Tendency_Home f <= 1)%Q /\
    (0 <= Database.Draw_Tendency_Away f <= 1)%Q.
Proof.
  intros d h a f Hf.
  destruct (get_match_features_some _ _ _ _ Hf)
    as (hrow & arow & ht & awt & Eh & Ea & Eht & Eawt & Hb).
  unfold Database.get_match_features_body in Hb.
  rewrite Eh, Ea, Eht, Eawt in Hb. inversion Hb; subst f; clear Hb.
  cbn [Database.Home_Elo Database.Away_Elo Database.Elo_Difference
       Database.H2H_Draws_Last_5 Database.Draw_Tendency_Home
       Database.Draw_Tendency_Away].
  split; [|split; [reflexivity|split; [|split; apply draw_tendency_bounds]]].
  - exists hrow, arow. unfold rating_of. rewrite Eht, Eawt. auto.
  - pose proof (count_draws_bounds (Database.last_5
        (filter (fun m => (home_team_id m =? team_id hrow) &&
                          (away_team_id m =? team_id arow)
                          || (home_team_id m =? team_id arow) &&
                             (away_team_id m =? team_id hrow)) (matches d)))) as Hc.
    pose proof (last_5_length
        (filter (fun m => (home_team_id m =? team_id hrow) &&
                          (away_team_id m =? team_id arow)
                          || (home_team_id m =? team_id arow) &&
                             (away_team_id m =? team_id hrow)) (matches d))) as Hl.
    lia.
Qed.

Lemma X9_feature_vector_is_in_range_witness :
  exists f,
    Database.get_match_features example_db 57 61 = Some f /\
    0 <= Database.H2H_Draws_Last_5 f <= 5.
Proof.
  exists (match Database.get_match_features example_db 57 61 with
          | Some f => f
          | None => Database.mk_features 0 0 0 0 0 0 0 0
          end).
  split; [reflexivity|].
  exact (proj1 (proj2 (proj2 (X9_feature_vector_is_in_range example_db 57 61 _ eq_refl)))).
Defined.

(** X10: get_match_features returns None exactly when one of the two API
    team ids has no row in teams. *)
Theorem X10_features_missing_iff_unknown_team :
  forall (d : db) (h a : Z),
    Database.get_match_features d h a = None <->
    Database.team_by_api_id (teams d) h = None \/
    Database.team_by_api_id (teams d) a = None.
Proof. exact get_match_features_none_iff. Qed.

(** X11: swapping the two sides swaps the two ratings, negates
    Elo_Difference and leaves the head-to-head draw count as it is. *)
Theorem X11_features_of_the_reverse_fixture :
  forall (d : db) (h a : Z) (f f' : Database.features),
    Database.get_match_features d h a = Some f ->
    Database.get_match_features d a h = Some f' ->
    Database.Home_Elo f' = Database.Away_Elo f /\
    Database.Away_Elo f' = Database.Home_Elo f /\
    Database.Elo_Difference f' = (- Database.Elo_Difference f)%R /\
    Database.H2H_Draws_Last_5 f' = Database.H2H_Draws_Last_5 f.
Proof.
  intros d h a f f' Hf Hf'.
  destruct (get_match_features_some _ _ _ _ Hf)
    as (hrow & arow & ht & awt & Eh & Ea & Eht & Eawt & Hb).
  destruct (get_match_features_some _ _ _ _ Hf') as (_ & _ & _ & _ & _ & _ & _ & _ & Hb').
  unfold Database.get_match_features_body in Hb, Hb'.
  rewrite Eh, Ea, Eht, Eawt in Hb, Hb'.
  inversion Hb; subst f. inversion Hb'; subst f'. clear Hb Hb'.
  cbn [Database.Home_Elo Database.Away_Elo Database.Elo_Difference
       Database.H2H_Draws_Last_5].
  repeat split; try lra.
  do 2 f_equal. apply filter_ext. intro m. apply orb_comm.
Qed.

Lemma X11_features_of_the_reverse_fixture_witness :
  exists f f',
    Database.get_match_features example_db 57 61 = Some f /\
    Database.get_match_features example_db 61 57 = Some f' /\
    Database.H2H_Draws_Last_5 f' = Database.H2H_Draws_Last_5 f.
Proof.
  exists (match Database.get_match_features example_db 57 61 with
          | Some f => f
          | None => Database.mk_features 0 0 0 0 0 0 0 0
          end),
         (match Database.get_match_features example_db 61 57 with
          | Some f => f
          | None => Database.mk_features 0 0 0 0 0 0 0 0
          end).
  split; [reflexivity|]. split; [reflexivity|].
  exact (proj2 (proj2 (proj2
           (X11_features_of_the_reverse_fixture example_db 57 61 _ _ eq_refl eq_refl)))).
Defined.

(** *** get_match_features2 *)

Lemma elo_query_absent_any ts tid cutoff :
  ~ In tid (map team_id ts) -> Database.elo_query ts tid cutoff = [].
Proof.
  unfold Database.elo_query.
  induction ts as [|x ts IH]; simpl; [reflexivity|].
  intro Hnotin.
  destruct (team_id x =? tid) eqn:E.
  - apply Z.eqb_eq in E. exfalso. apply Hnotin. now left.
  - simpl. apply IH. intro H. apply Hnotin. now right.
Qed.

(** The rating query returns the row of the team, when it was updated
    before the cutoff, and nothing else. *)
Lemma elo_query_of_row ts t cutoff :
  NoDup (map team_id ts) -> In t ts ->
  Database.elo_query ts (team_id t) cutoff =
  if match cutoff with
     | Some T => updated_at t <? T
     | None => true
     end
  then [t] else [].
Proof.
  intros Hnd Hin.
  induction ts as [|x ts IH]; [destruct Hin|].
  simpl in Hnd. inversion Hnd as [|? ? Hnotin Hnd']; subst.
  destruct Hin as [->|Hin].
  - pose proof (elo_query_absent_any ts (team_id t) cutoff Hnotin) as Habs.
    unfold Database.elo_query in *. simpl.
    rewrite Z.eqb_refl, Habs. simpl.
    now destruct (match cutoff with Some T => updated_at t <? T | None => true end).
  - specialize (IH Hnd' Hin).
    unfold Database.elo_query in *. simpl.
    destruct (team_id x =? team_id t) eqn:E; [|exact IH].
    apply Z.eqb_eq in E. exfalso. apply Hnotin. rewrite E. now apply in_map.
Qed.

(** X12: on a store with distinct team ids and for two known teams,
    get_match_features2 returns a vector only when it is given a cutoff and
    neither team was updated before it; the two ratings of the vector are
    then 1500.0 whatever the stored ratings are, and Elo_Difference is 0.  In
    every other case it raises TypeError. *)
Theorem X12_get_match_features2_rates_at_the_default :
  forall (d : db) (h a : Z) (cutoff : option Z) (hrow arow : team_row),
    NoDup (map team_id (teams d)) ->
    Database.team_by_api_id (teams d) h = Some hrow ->
    Database.team_by_api_id (teams d) a = Some arow ->
    match cutoff with
    | Some T =>
      if (T <=? updated_at hrow) && (T <=? updated_at arow)
      then exists f,
             Database.get_match_features2 d h a cutoff = Ok (Some f) /\
             Database.Home_Elo f = 1500%R /\
             Database.Away_Elo f = 1500%R /\
             Database.Elo_Difference f = 0%R
      else Database.get_match_features2 d h a cutoff = Raise TypeError
    | None => Database.get_match_features2 d h a cutoff = Raise TypeError
    end.
Proof.
  intros d h a cutoff hrow arow Hnd Eh Ea.
  unfold Database.get_match_features2. rewrite Eh, Ea.
  pose proof (find_some _ _ Eh) as [Hinh _].
  pose proof (find_some _ _ Ea) as [Hina _].
  rewrite (elo_query_of_row _ hrow cutoff Hnd Hinh).
  rewrite (elo_query_of_row _ arow cutoff Hnd Hina).
  destruct cutoff as [T|]; [|reflexivity].
  rewrite !Z.leb_antisym.
  destruct (updated_at hrow <? T); simpl; [reflexivity|].
  destruct (updated_at arow <? T); simpl; [reflexivity|].
  eexists. split; [reflexivity|]. cbn. repeat split. lra.
Qed.

Lemma X12_get_match_features2_rates_at_the_default_witness :
  exists f,
    Database.get_match_features2 store_with_later 57 61 (Some 20) = Ok (Some f) /\
    Database.Home_Elo f = 1500%R.
Proof.
  destruct (X12_get_match_features2_rates_at_the_default store_with_later 57 61
              (Some 20) (mk_team 1 (Some 57) "Arsenal" 1500%R 30)
              (mk_team 2 (Some 61) "Chelsea" 1500%R 30)) as (f & Hf & Hh & _).
  - repeat constructor; simpl; intuition discriminate.
  - reflexivity.
  - reflexivity.
  - exists f. split; [exact Hf|exact Hh].
Defined.

(** X13: with a cutoff, the draw tendencies and the average goal
    differences that get_match_features2 returns depend only on the events
    dated before the cutoff: two stores with the same teams and the same
    earlier events give the same four values. *)
Theorem X13_side_aggregates_ignore_later_events :
  forall (d d' : db) (h a T : Z) (f f' : Database.features),
    teams d' = teams d ->
    filter (fun m => date m <? T) (matches d') =
      filter (fun m => date m <? T) (matches d) ->
    Database.get_match_features2 d h a (Some T) = Ok (Some f) ->
    Database.get_match_features2 d' h a (Some T) = Ok (Some f') ->
    Database.Draw_Tendency_Home f' = Database.Draw_Tendency_Home f /\
    Database.Draw_Tendency_Away f' = Database.Draw_Tendency_Away f /\
    Database.Avg_Home_GD_Last_5 f' = Database.Avg_Home_GD_Last_5 f /\
    Database.Avg_Away_GD_Last_5 f' = Database.Avg_Away_GD_Last_5 f.
Proof. exact side_aggregates_depend_on_earlier_rows. Qed.

Lemma X13_side_aggregates_ignore_later_events_witness :
  exists f f',
    Database.get_match_features2 store_without_later 57 61 (Some 20) = Ok (Some f) /\
    Database.get_match_features2 store_with_later 57 61 (Some 20) = Ok (Some f') /\
    Database.Draw_Tendency_Home f' = Database.Draw_Tendency_Home f.
Proof.
  exists (match Database.get_match_features2 store_without_later 57 61 (Some 20) with
          | Ok (Some f) => f
          | _ => Database.mk_features 0 0 0 0 0 0 0 0
          end),
         (match Database.get_match_features2 store_with_later 57 61 (Some 20) with
          | Ok (Some f) => f
          | _ => Database.mk_features 0 0 0 0 0 0 0 0
          end).
  split; [reflexivity|]. split; [reflexivity|].
  exact (proj1 (X13_side_aggregates_ignore_later_events store_without_later
                  store_with_later 57 61 20 _ _ eq_refl eq_refl eq_refl eq_refl)).
Defined.

(** X14: when every stored event is dated before the cutoff, the five
    windowed aggregates of get_match_features2 are those of
    get_match_features. *)
Theorem X14_late_cutoff_gives_the_same_aggregates :
  forall (d : db) (h a T : Z) (f f2 : Database.features),
    (forall m, In m (matches d) -> date m < T) ->
    Database.get_match_features d h a = Some f ->
    Database.get_match_features2 d h a (Some T) = Ok (Some f2) ->
    Database.H2H_Draws_Last_5 f2 = Database.H2H_Draws_Last_5 f /\
    Database.Draw_Tendency_Home f2 = Database.Draw_Tendency_Home f /\
    Database.Draw_Tendency_Away f2 = Database.Draw_Tendency_Away f /\
    Database.Avg_Home_GD_Last_5 f2 = Database.Avg_Home_GD_Last_5 f /\
    Database.Avg_Away_GD_Last_5 f2 = Database.Avg_Away_GD_Last_5 f.
Proof.
  intros d h a T f f2 Hdates Hf Hf2.
  destruct (get_match_features_some _ _ _ _ Hf)
    as (hrow & arow & ht & awt & Eh & Ea & Eht & Eawt & Hb).
  unfold Database.get_match_features_body in Hb.
  rewrite Eh, Ea, Eht, Eawt in Hb. inversion Hb; subst f; clear Hb.
  unfold Database.get_match_features2 in Hf2. rewrite Eh, Ea in Hf2.
  destruct (Database.elo_of_cursor _) as [he|]; [|discriminate].
  destruct (Database.elo_of_cursor _) as [ae|]; [|discriminate].
  assert (Hbefore : forall m, In m (matches d) -> Database.before (Some T) m = true).
  { intros m Hm. unfold Database.before. apply Z.ltb_lt. now apply Hdates. }
  assert (H1 : filter (fun m => (home_team_id m =? team_id hrow) &&
                               (away_team_id m =? team_id arow)
                               || (home_team_id m =? team_id arow) &&
                                  (away_team_id m =? team_id hrow) &&
                                  Database.before (Some T) m) (matches d) =
               filter (fun m => (home_team_id m =? team_id hrow) &&
                               (away_team_id m =? team_id arow)
                               || (home_team_id m =? team_id arow) &&
                                  (away_team_id m =? team_id hrow)) (matches d)).
  { apply filter_ext_in. intros m Hm. now rewrite (Hbefore m Hm), andb_true_r. }
  assert (H2 : filter (fun m => (home_team_id m =? team_id hrow) &&
                               Database.before (Some T) m) (matches d) =
               filter (fun m => home_team_id m =? team_id hrow) (matches d)).
  { apply filter_ext_in. intros m Hm. now rewrite (Hbefore m Hm), andb_true_r. }
  assert (H3 : filter (fun m => (away_team_id m =? team_id arow) &&
                               Database.before (Some T) m) (matches d) =
               filter (fun m => away_team_id m =? team_id arow) (matches d)).
  { apply filter_ext_in. intros m Hm. now rewrite (Hbefore m Hm), andb_true_r. }
  rewrite H1, H2, H3 in Hf2.
  inversion Hf2; subst f2. cbn. repeat split.
Qed.

Lemma X14_late_cutoff_gives_the_same_aggregates_witness :
  exists f f2,
    Database.get_match_features store_with_later 57 61 = Some f /\
    Database.get_match_features2 store_with_later 57 61 (Some 30) = Ok (Some f2) /\
    Database.H2H_Draws_Last_5 f2 = Database.H2H_Draws_Last_5 f.
Proof.
  exists (match Database.get_match_features store_with_later 57 61 with
          | Some f => f
          | None => Database.mk_features 0 0 0 0 0 0 0 0
          end),
         (match Database.get_match_features2 store_with_later 57 61 (Some 30) with
          | Ok (Some f) => f
          | _ => Database.mk_features 0 0 0 0 0 0 0 0
          end).
  split; [reflexivity|]. split; [reflexivity|].
  refine (proj1 (X14_late_cutoff_gives_the_same_aggregates store_with_later 57 61 30
                   _ _ _ eq_refl eq_refl)).
  intros m [<-|[]]. reflexivity.
Defined.

(** ** The rebuilds *)

Lemma fixer_update_agrees now d mid :
  match_by_id (matches d) mid <> None ->
  EloFixer.update_elo_ratings now d mid = Database.update_elo_ratings now d mid.
Proof.
  unfold EloFixer.update_elo_ratings, Database.update_elo_ratings.
  destruct (match_by_id (matches d) mid); [reflexivity|congruence].
Qed.

Lemma historical_loop_frame now :
  forall ms processed d,
    let d' := fst (Rebuild.historical_loop now processed d ms) in
    matches d' = matches d /\
    match_predictions d' = match_predictions d /\
    last_fetched_date d' = last_fetched_date d /\
    map team_id (teams d') = map team_id (teams d) /\
    map name (teams d') = map name (teams d) /\
    map api_team_id (teams d') = map api_team_id (teams d).
Proof.
  induction ms as [|m ms IH]; intros processed d; cbn [Rebuild.historical_loop].
  - cbn. repeat split.
  - destruct (existsb _ processed); [apply IH|].
    destruct (Database.update_elo_ratings now d (match_id m)) as [d1|e] eqn:Eup;
      [|apply IH].
    destruct (update_elo_ratings_frame _ _ _ _ Eup)
      as (Hm & Hp & Hw & _ & _ & Hi & Hn & Ha & _).
    specialize (IH (match_id m :: processed) d1). cbv zeta in *.
    destruct IH as (I1 & I2 & I3 & I4 & I5 & I6).
    repeat split; congruence.
Qed.

(** The two loops do the same on ids that are ids of stored matches. *)
Lemma loops_agree now :
  forall ms processed d,
    (forall m, In m ms -> match_by_id (matches d) (match_id m) <> None) ->
    EloFixer.chronological_loop now processed d ms =
    Rebuild.historical_loop now processed d ms.
Proof.
  induction ms as [|m ms IH]; intros processed d Hknown; [reflexivity|].
  cbn [EloFixer.chronological_loop Rebuild.historical_loop].
  destruct (existsb _ processed).
  - apply IH. intros x Hx. apply Hknown. now right.
  - rewrite fixer_update_agrees by (apply Hknown; now left).
    destruct (Database.update_elo_ratings now d (match_id m)) as [d1|e] eqn:Eup.
    + apply IH. intros x Hx.
      destruct (update_elo_ratings_frame _ _ _ _ Eup) as (Hm & _).
      rewrite Hm. apply Hknown. now right.
    + apply IH. intros x Hx. apply Hknown. now right.
Qed.

Lemma stored_ids_are_known ms m :
  In m (matches_by_date ms) -> match_by_id ms (match_id m) <> None.
Proof.
  intros Hin Hnone.
  apply (Permutation_in _ (matches_by_date_perm ms)) in Hin.
  pose proof (find_none _ _ Hnone m Hin) as Hf. cbv beta in Hf.
  rewrite Z.eqb_refl in Hf. discriminate.
Qed.

(** X15: without a failing stage, fix_elo_ratings and
    process_historical_matches compute the same teams table on every store,
    and neither changes the matches. *)
Theorem X15_the_two_rebuilds_agree :
  forall (now : Z) (d : db) (backup0 : option db),
    exists d',
      EloFixer.fix_elo_ratings None now (EloFixer.mk_files (Some d) backup0) =
        (EloFixer.mk_files (Some d') (Some d), Ok tt) /\
      teams d' = teams (Rebuild.process_historical_matches now d) /\
      matches d' = matches d /\
      matches (Rebuild.process_historical_matches now d) = matches d.
Proof.
  intros now d backup0.
  unfold EloFixer.fix_elo_ratings, EloFixer.backup_database,
    EloFixer.process_matches_chronologically, EloFixer.reset_elo_ratings,
    Rebuild.process_historical_matches.
  cbn [EloFixer.db_path EloFixer.backup_path EloFixer.hits matches set_teams].
  set (d0 := set_teams d (reset_ratings (teams d))).
  rewrite (loops_agree now (matches_by_date (matches d)) [] d0)
    by (intros m Hm; now apply stored_ids_are_known).
  pose proof (historical_loop_frame now (matches_by_date (matches d)) [] d0) as Hf.
  cbv zeta in Hf.
  destruct (Rebuild.historical_loop now [] d0 (matches_by_date (matches d)))
    as [d1 processed] eqn:Eloop.
  cbn [fst] in Hf. destruct Hf as (Hm & _).
  exists d1. split; [reflexivity|].
  destruct (matches_by_date (matches d)) as [|m0 rest] eqn:Es.
  - cbn in Eloop. inversion Eloop; subst d1. repeat split.
  - destruct (max_date (matches d1)); cbn; repeat split; exact Hm.
Qed.

(** *** The rebuilt ratings depend on the events and the team ids only *)

Lemma ratings_team_by_id ts ts' x :
  ratings ts = ratings ts' ->
  option_map current_elo_rating (team_by_id ts x) =
  option_map current_elo_rating (team_by_id ts' x).
Proof.
  unfold ratings, team_by_id. revert ts'.
  induction ts as [|t ts IH]; intros [|t' ts'] H; try discriminate; [reflexivity|].
  simpl in H. inversion H as [[Hid Hr Hrest]]. simpl. rewrite Hid.
  destruct (team_id t' =? x); simpl; [now rewrite Hr|now apply IH].
Qed.

Lemma ratings_update_rating now now' x e ts ts' :
  ratings ts = ratings ts' ->
  ratings (update_rating now x e ts) = ratings (update_rating now' x e ts').
Proof.
  unfold ratings, update_rating. revert ts'.
  induction ts as [|t ts IH]; intros [|t' ts'] H; try discriminate; [reflexivity|].
  simpl in H. inversion H as [[Hid Hr Hrest]]. simpl. rewrite Hid.
  rewrite (IH ts' Hrest). f_equal.
  destruct (team_id t' =? x); simpl; congruence.
Qed.

Lemma update_elo_ratings_same_ratings now now' d d' mid :
  matches d' = matches d ->
  ratings (teams d') = ratings (teams d) ->
  match Database.update_elo_ratings now d mid,
        Database.update_elo_ratings now' d' mid with
  | Ok d1, Ok d1' =>
    matches d1' = matches d1 /\ ratings (teams d1') = ratings (teams d1)
  | Raise _, Raise _ => True
  | _, _ => False
  end.
Proof.
  intros Hm Hr. unfold Database.update_elo_ratings. rewrite Hm.
  destruct (match_by_id (matches d) mid) as [m|]; [|exact I].
  pose proof (ratings_team_by_id _ _ (home_team_id m) Hr) as Hh.
  pose proof (ratings_team_by_id _ _ (away_team_id m) Hr) as Ha.
  destruct (team_by_id (teams d') (home_team_id m)) as [ht'|];
    destruct (team_by_id (teams d) (home_team_id m)) as [ht|];
    simpl in Hh; try discriminate; [|exact I].
  destruct (team_by_id (teams d') (away_team_id m)) as [awt'|];
    destruct (team_by_id (teams d) (away_team_id m)) as [awt|];
    simpl in Ha; try discriminate; [|exact I].
  inversion Hh as [Hh']. inversion Ha as [Ha']. rewrite Hh', Ha'.
  cbn [matches teams set_teams]. split; [exact Hm|].
  now apply ratings_update_rating, ratings_update_rating.
Qed.

Lemma historical_loop_same_ratings now now' :
  forall ms processed d d',
    matches d' = matches d ->
    ratings (teams d') = ratings (teams d) ->
    ratings (teams (fst (Rebuild.historical_loop now' processed d' ms))) =
    ratings (teams (fst (Rebuild.historical_loop now processed d ms))).
Proof.
  induction ms as [|m ms IH]; intros processed d d' Hm Hr; [exact Hr|].
  cbn [Rebuild.historical_loop].
  destruct (existsb _ processed); [now apply IH|].
  pose proof (update_elo_ratings_same_ratings now now' d d' (match_id m) Hm Hr) as Hs.
  destruct (Database.update_elo_ratings now d (match_id m)) as [d1|e];
    destruct (Database.update_elo_ratings now' d' (match_id m)) as [d1'|e'];
    try contradiction.
  - destruct Hs. now apply IH.
  - now apply IH.
Qed.

Lemma ratings_reset ts ts' :
  map team_id ts' = map team_id ts ->
  ratings (reset_ratings ts') = ratings (reset_ratings ts).
Proof.
  intro H. unfold ratings, reset_ratings. rewrite !map_map. cbn [team_id current_elo_rating].
  rewrite <- (map_map team_id (fun i => (i, 1500%R)) ts').
  rewrite <- (map_map team_id (fun i => (i, 1500%R)) ts).
  now rewrite H.
Qed.

Lemma teams_of_process_historical_matches now d :
  teams (Rebuild.process_historical_matches now d) =
  teams (fst (Rebuild.historical_loop now [] (set_teams d (reset_ratings (teams d)))
                (matches_by_date (matches d)))).
Proof.
  unfold Rebuild.process_historical_matches. cbn [matches set_teams].
  destruct (matches_by_date (matches d)) as [|m0 rest] eqn:Es; [reflexivity|].
  destruct (Rebuild.historical_loop now [] _ (m0 :: rest)) as [d1 p].
  cbn [fst]. now destruct (max_date (matches d1)).
Qed.

Lemma process_historical_matches_frame now d :
  matches (Rebuild.process_historical_matches now d) = matches d /\
  match_predictions (Rebuild.process_historical_matches now d) = match_predictions d /\
  map team_id (teams (Rebuild.process_historical_matches now d)) = map team_id (teams d) /\
  map name (teams (Rebuild.process_historical_matches now d)) = map name (teams d) /\
  map api_team_id (teams (Rebuild.process_historical_matches now d))
    = map api_team_id (teams d).
Proof.
  assert (Hreset : map team_id (reset_ratings (teams d)) = map team_id (teams d) /\
                   map name (reset_ratings (teams d)) = map name (teams d) /\
                   map api_team_id (reset_ratings (teams d)) = map api_team_id (teams d)).
  { unfold reset_ratings. rewrite !map_map. repeat split. }
  destruct Hreset as (R1 & R2 & R3).
  pose proof (historical_loop_frame now (matches_by_date (matches d)) []
                (set_teams d (reset_ratings (teams d)))) as Hf.
  cbv zeta in Hf. cbn [matches match_predictions last_fetched_date teams set_teams] in Hf.
  destruct Hf as (F1 & F2 & _ & F4 & F5 & F6).
  rewrite teams_of_process_historical_matches.
  unfold Rebuild.process_historical_matches. cbn [matches set_teams].
  destruct (matches_by_date (matches d)) as [|m0 rest] eqn:Es.
  - cbn. repeat split; assumption.
  - destruct (Rebuild.historical_loop now [] _ (m0 :: rest)) as [d1 p].
    cbn [fst] in *.
    destruct (max_date (matches d1)); cbn [matches match_predictions
      Database.set_last_fetched_date]; repeat split; congruence.
Qed.

(** X16: the ratings process_historical_matches leaves depend on the
    stored events and on the ids of the teams only, not on the ratings or the
    timestamps it finds nor on the time it runs at; so running it a second
    time gives every team the rating the first run gave it. *)
Theorem X16_rebuild_is_repeatable :
  forall (now now' : Z) (d : db),
    ratings (teams (Rebuild.process_historical_matches now'
                      (Rebuild.process_historical_matches now d))) =
    ratings (teams (Rebuild.process_historical_matches now d)) /\
    forall d' : db,
      matches d' = matches d ->
      map team_id (teams d') = map team_id (teams d) ->
      ratings (teams (Rebuild.process_historical_matches now' d')) =
      ratings (teams (Rebuild.process_historical_matches now d)).
Proof.
  intros now now' d.
  assert (Hgen : forall d' : db,
             matches d' = matches d ->
             map team_id (teams d') = map team_id (teams d) ->
             ratings (teams (Rebuild.process_historical_matches now' d')) =
             ratings (teams (Rebuild.process_historical_matches now d))).
  { intros d' Hm Hids. rewrite !teams_of_process_historical_matches, Hm.
    apply historical_loop_same_ratings; cbn [matches teams set_teams];
      [exact Hm|now apply ratings_reset]. }
  split; [|exact Hgen].
  destruct (process_historical_matches_frame now d) as (Hm & _ & Hids & _).
  now apply Hgen.
Qed.

Lemma fold_max_ge_init l : forall a, a <= fold_left Z.max l a.
Proof.
  induction l as [|x l IH]; intro a; cbn; [lia|].
  specialize (IH (Z.max a x)). lia.
Qed.

Lemma fold_max_ge l : forall a x, In x l -> x <= fold_left Z.max l a.
Proof.
  induction l as [|y l IH]; intros a x Hin; [contradiction|].
  cbn. destruct Hin as [->|Hin]; [|now apply IH].
  pose proof (fold_max_ge_init l (Z.max a x)). lia.
Qed.

Lemma fold_max_in l : forall a, fold_left Z.max l a = a \/ In (fold_left Z.max l a) l.
Proof.
  induction l as [|y l IH]; intro a; cbn; [now left|].
  destruct (IH (Z.max a y)) as [H|H]; [|now right; right].
  rewrite H. destruct (Z.max_spec a y) as [[_ ->]|[_ ->]]; [right; now left|now left].
Qed.

Lemma max_date_spec ms day :
  max_date ms = Some day ->
  In day (map date ms) /\ forall m, In m ms -> date m <= day.
Proof.
  destruct ms as [|m0 rest]; [discriminate|]. cbn [max_date]. intros [= <-]. split.
  - cbn [map]. destruct (fold_max_in (map date rest) (date m0)) as [->|H];
      [now left|now right].
  - intros m [<-|Hin]; [apply fold_max_ge_init|].
    apply fold_max_ge. now apply in_map.
Qed.

(** X17: process_historical_matches rewrites ratings and timestamps of
    teams and the watermark, nothing else.  Over an empty matches table it
    only resets the ratings and leaves the watermark alone; otherwise the
    watermark becomes the latest stored match date. *)
Theorem X17_rebuild_frame_and_watermark :
  forall (now : Z) (d : db),
    let d' := Rebuild.process_historical_matches now d in
    matches d' = matches d /\
    match_predictions d' = match_predictions d /\
    map team_id (teams d') = map team_id (teams d) /\
    map name (teams d') = map name (teams d) /\
    map api_team_id (teams d') = map api_team_id (teams d) /\
    (matches d = [] ->
       last_fetched_date d' = last_fetched_date d /\
       teams d' = reset_ratings (teams d)) /\
    (matches d <> [] ->
       exists day,
         last_fetched_date d' = Some day /\
         In day (map date (matches d)) /\
         forall m, In m (matches d) -> date m <= day).
Proof.
  intros now d d'. subst d'.
  destruct (process_historical_matches_frame now d) as (F1 & F2 & F3 & F4 & F5).
  split; [exact F1|]. split; [exact F2|]. split; [exact F3|].
  split; [exact F4|]. split; [exact F5|].
  unfold Rebuild.process_historical_matches. cbn [matches set_teams].
  split.
  - intros ->. cbn. split; reflexivity.
  - intro Hne.
    destruct (matches_by_date (matches d)) as [|m0 rest] eqn:Es.
    + pose proof (matches_by_date_perm (matches d)) as Hp. rewrite Es in Hp.
      apply Permutation_nil in Hp. contradiction.
    + pose proof (historical_loop_frame now (m0 :: rest) []
                    (set_teams d (reset_ratings (teams d)))) as Hf.
      cbv zeta in Hf.
      destruct (Rebuild.historical_loop now [] _ (m0 :: rest)) as [d1 p].
      cbn [fst matches set_teams] in Hf. destruct Hf as (Hm & _).
      rewrite Hm.
      destruct (max_date (matches d)) as [day|] eqn:Emax.
      * exists day. split; [reflexivity|]. now apply max_date_spec.
      * destruct (matches d); [contradiction|discriminate].
Qed.

Lemma chronological_loop_frame now :
  forall ms processed d,
    let d' := fst (EloFixer.chronological_loop now processed d ms) in
    matches d' = matches d /\
    match_predictions d' = match_predictions d /\
    last_fetched_date d' = last_fetched_date d /\
    map team_id (teams d') = map team_id (teams d) /\
    map name (teams d') = map name (teams d) /\
    map api_team_id (teams d') = map api_team_id (teams d).
Proof.
  induction ms as [|m ms IH]; intros processed d; cbn [EloFixer.chronological_loop].
  - cbn. repeat split.
  - destruct (existsb _ processed); [apply IH|].
    destruct (EloFixer.update_elo_ratings now d (match_id m)) as [d1|e] eqn:Eup;
      [|apply IH].
    assert (Hfr : matches d1 = matches d /\
                  match_predictions d1 = match_predictions d /\
                  last_fetched_date d1 = last_fetched_date d /\
                  map team_id (teams d1) = map team_id (teams d) /\
                  map name (teams d1) = map name (teams d) /\
                  map api_team_id (teams d1) = map api_team_id (teams d)).
    { unfold EloFixer.update_elo_ratings in Eup.
      destruct (match_by_id (matches d) (match_id m)) eqn:Em.
      - assert (Eup' : Database.update_elo_ratings now d (match_id m) = Ok d1).
        { unfold Database.update_elo_ratings. rewrite Em. exact Eup. }
        destruct (update_elo_ratings_frame _ _ _ _ Eup')
          as (Hm & Hp & Hw & _ & _ & Hi & Hn & Ha & _).
        repeat split; assumption.
      - inversion Eup; subst d1. repeat split. }
    specialize (IH (match_id m :: processed) d1). cbv zeta in *.
    destruct IH as (I1 & I2 & I3 & I4 & I5 & I6).
    destruct Hfr as (H1 & H2 & H3 & H4 & H5 & H6).
    repeat split; congruence.
Qed.

(** X18: whatever stage fails, fix_elo_ratings run on an existing database
    file leaves a backup that is the database as it was, and a database file
    with the same matches, predictions, watermark and team ids, names and
    API ids; it returns normally exactly when no stage fails.  Without a
    database file it raises FileNotFoundError, and a backup left by an
    earlier run is copied into place. *)
Theorem X18_fix_elo_ratings_frame :
  forall (env : option EloFixer.fault) (now : Z),
    (forall (d : db) (backup0 : option db),
        exists d',
          fst (EloFixer.fix_elo_ratings env now (EloFixer.mk_files (Some d) backup0))
            = EloFixer.mk_files (Some d') (Some d) /\
          matches d' = matches d /\
          match_predictions d' = match_predictions d /\
          last_fetched_date d' = last_fetched_date d /\
          map team_id (teams d') = map team_id (teams d) /\
          map name (teams d') = map name (teams d) /\
          map api_team_id (teams d') = map api_team_id (teams d) /\
          (snd (EloFixer.fix_elo_ratings env now (EloFixer.mk_files (Some d) backup0))
             = Ok tt <-> env = None)) /\
    (forall backup0 : option db,
        EloFixer.fix_elo_ratings env now (EloFixer.mk_files None backup0) =
          (EloFixer.mk_files backup0 backup0, Raise FileNotFoundError)).
Proof.
  intros env now. split.
  - intros d backup0. destruct env as [f|].
    + exists d.
      assert (E : EloFixer.fix_elo_ratings (Some f) now (EloFixer.mk_files (Some d) backup0)
                  = (EloFixer.mk_files (Some d) (Some d), Raise OperationalError)).
      { unfold EloFixer.fix_elo_ratings, EloFixer.backup_database,
          EloFixer.process_matches_chronologically.
        cbn [EloFixer.db_path EloFixer.backup_path].
        destruct f; cbn [EloFixer.hits EloFixer.fault_eqb EloFixer.backup_path];
          try reflexivity;
          destruct (EloFixer.chronological_loop _ _ _ _); reflexivity. }
      rewrite E. cbn [fst snd]. repeat split; try reflexivity; discriminate.
    + unfold EloFixer.fix_elo_ratings, EloFixer.backup_database,
        EloFixer.process_matches_chronologically, EloFixer.reset_elo_ratings.
      cbn [EloFixer.db_path EloFixer.backup_path EloFixer.hits matches set_teams].
      pose proof (chronological_loop_frame now (matches_by_date (matches d)) []
                    (set_teams d (reset_ratings (teams d)))) as Hf.
      cbv zeta in Hf.
      destruct (EloFixer.chronological_loop now [] _ _) as [d1 p].
      cbn [fst snd matches match_predictions last_fetched_date teams set_teams] in *.
      destruct Hf as (H1 & H2 & H3 & H4 & H5 & H6).
      exists d1. unfold reset_ratings in *. rewrite !map_map in *.
      cbn [team_id name api_team_id] in *.
      repeat split; assumption.
  - intros [b|]; reflexivity.
Qed.

(** ** The synchronisation pass *)

Lemma date_chunks_loop_shape end_date size :
  0 <= size ->
  forall fuel current_start chunks,
    date_chunks_loop fuel current_start end_date size = Some chunks ->
    (chunks = [] <-> end_date <= current_start) /\
    (forall c, hd_error chunks = Some c -> fst c = current_start) /\
    (forall pre s e post, chunks = pre ++ (s, e) :: post ->
       current_start <= s /\ s < end_date /\ s <= e /\ e <= end_date /\
       e = Z.min (s + timedelta_days size) end_date /\
       (post = [] -> end_date <= e + timedelta_days 1) /\
       (forall c, hd_error post = Some c -> fst c = e + timedelta_days 1)).
Proof.
  intro Hsize.
  induction fuel as [|f IH]; intros current_start chunks; cbn [date_chunks_loop].
  - destruct (current_start <? end_date) eqn:E; [discriminate|].
    intros [= <-]. apply Z.ltb_ge in E. split; [tauto|].
    split; [intros c; discriminate|].
    intros [|p pre] s e post H; discriminate.
  - destruct (current_start <? end_date) eqn:E.
    + apply Z.ltb_lt in E.
      set (chunk_end := Z.min (current_start + timedelta_days size) end_date).
      destruct (date_chunks_loop f (chunk_end + timedelta_days 1) end_date size)
        as [chunks'|] eqn:Eloop; [|discriminate].
      cbn [option_map]. intros [= <-].
      destruct (IH _ _ Eloop) as (Hnil & Hhd & Hall).
      assert (Hce : current_start <= chunk_end /\ chunk_end <= end_date).
      { subst chunk_end. unfold timedelta_days, day_us. lia. }
      split; [split; [discriminate|lia]|].
      split; [intros c [= <-]; reflexivity|].
      intros [|p pre] s e post Heq.
      * cbn [app] in Heq. inversion Heq; subst s e post.
        split; [lia|]. split; [exact E|]. split; [tauto|]. split; [tauto|].
        split; [reflexivity|]. split; [apply Hnil|].
        intros c Hc. exact (Hhd c Hc).
      * cbn [app] in Heq. inversion Heq as [[Hp Hrest]].
        destruct (Hall pre s e post Hrest) as (H1 & H2).
        split; [|exact H2]. unfold timedelta_days, day_us in *. lia.
    + apply Z.ltb_ge in E. intros [= <-]. split; [tauto|].
      split; [intros c; discriminate|].
      intros [|p pre] s e post H; discriminate.
Qed.

Lemma date_of_next_day x : date_of (x + timedelta_days 1) = date_of x + 1.
Proof.
  unfold date_of, timedelta_days. rewrite Z.mul_1_l.
  replace (x + day_us) with (x + 1 * day_us) by lia.
  rewrite Z.div_add by (unfold day_us; lia). reflexivity.
Qed.

(** X19: for a chunk size that is not negative _get_date_chunks comes to an
    end.  There is no chunk exactly when the range is empty; the first chunk
    starts at start_date; every chunk starts before end_date, ends no later
    than end_date and spans chunk_size days unless end_date cuts it; the next
    chunk starts one day after its end, so that from one chunk to the next
    no date is asked for twice and none is left out; and the last chunk ends
    at end_date or up to one day before it, so that the date of end_date
    itself can be left out. *)
Theorem X19_date_chunks_tile_the_range :
  forall (start_date end_date size : Z),
    0 <= size ->
    exists chunks,
      _get_date_chunks start_date end_date size = Some chunks /\
      (chunks = [] <-> end_date <= start_date) /\
      (forall c, hd_error chunks = Some c -> fst c = start_date) /\
      (forall pre s e post, chunks = pre ++ (s, e) :: post ->
         start_date <= s /\ s < end_date /\ s <= e /\ e <= end_date /\
         e = Z.min (s + timedelta_days size) end_date /\
         (post = [] -> end_date <= e + timedelta_days 1) /\
         (forall c, hd_error post = Some c ->
            fst c = e + timedelta_days 1 /\ date_of (fst c) = date_of e + 1)).
Proof.
  intros start_date end_date size Hsize.
  destruct (_get_date_chunks_some start_date end_date size Hsize) as [chunks Hc].
  exists chunks. split; [exact Hc|].
  destruct (date_chunks_loop_shape end_date size Hsize _ _ _ Hc)
    as (Hnil & Hhd & Hall).
  split; [exact Hnil|]. split; [exact Hhd|].
  intros pre s e post Heq.
  destruct (Hall pre s e post Heq) as (H1 & H2 & H3 & H4 & H5 & H6 & H7).
  split; [exact H1|]. split; [exact H2|]. split; [exact H3|].
  split; [exact H4|]. split; [exact H5|]. split; [exact H6|].
  intros c H. rewrite (H7 c H). split; [reflexivity|apply date_of_next_day].
Qed.

Lemma X19_date_chunks_tile_the_range_witness :
  _get_date_chunks 0 (6 * day_us) 5 = Some [(0, 5 * day_us)] /\
  exists chunks,
    _get_date_chunks 0 (6 * day_us) 5 = Some chunks /\
    (chunks = [] <-> 6 * day_us <= 0).
Proof.
  split; [reflexivity|].
  destruct (X19_date_chunks_tile_the_range 0 (6 * day_us) 5) as (chunks & H & Hn & _);
    [lia|].
  exists chunks. split; assumption.
Defined.

Lemma append_matches_spec :
  forall upstream all_matches,
    exists extra,
      append_matches upstream all_matches = all_matches ++ extra /\
      (forall m, In m extra -> In (Some m) upstream) /\
      (~ In None upstream -> forall m, In (Some m) upstream -> In m extra).
Proof.
  induction upstream as [|[m0|] rest IH]; intros all_matches; cbn [append_matches].
  - exists []. rewrite app_nil_r. split; [reflexivity|]. split; intros; contradiction.
  - destruct (IH (all_matches ++ [m0])) as (extra & He & Hin & Hall).
    exists (m0 :: extra). rewrite He, <- app_assoc. split; [reflexivity|]. split.
    + intros m [<-|Hm]; [now left|right; now apply Hin].
    + intros Hno m [[= <-]|Hm]; [now left|].
      right. apply Hall; [|exact Hm]. intro H. apply Hno. now right.
  - exists []. rewrite app_nil_r. split; [reflexivity|]. split; [intros; contradiction|].
    intros Hno. exfalso. apply Hno. now left.
Qed.

(** X20: the loop over the chunks only appends to all_matches.  What it
    appends was sent for one of the chunks, and a reply whose matches could
    all be read is kept whole, whatever the other requests resolved to. *)
Theorem X20_fetch_chunks_appends_what_was_sent :
  forall (env : environment) (chunks : list (Z * Z))
         (all_matches : list raw_match) (asked : list (Z * Z)),
    exists extra,
      fst (fetch_chunks env chunks all_matches asked) = all_matches ++ extra /\
      (forall m, In m extra ->
         exists c upstream,
           In c chunks /\
           request env (date_of (fst c)) (date_of (snd c)) = Data (Some upstream) /\
           In (Some m) upstream) /\
      (forall c upstream m,
         In c chunks ->
         request env (date_of (fst c)) (date_of (snd c)) = Data (Some upstream) ->
         ~ In None upstream ->
         In (Some m) upstream -> In m extra) /\
      ((forall c, In c chunks ->
          exists e, request env (date_of (fst c)) (date_of (snd c)) = ErrorDict e) ->
       extra = []).
Proof.
  intros env. induction chunks as [|[s e] chunks IH]; intros all_matches asked.
  - exists []. cbn. rewrite app_nil_r. split; [reflexivity|].
    split; [intros m []|]. split; [intros c u m []|reflexivity].
  - cbn [fetch_chunks fst snd].
    destruct (request env (date_of s) (date_of e)) as [[upstream|]|err] eqn:Er.
    + destruct (append_matches_spec upstream all_matches) as (x1 & Hx1 & Hin1 & Hall1).
      rewrite Hx1.
      destruct (IH (all_matches ++ x1) (asked ++ [(date_of s, date_of e)]))
        as (x2 & Hx2 & Hin2 & Hall2 & _).
      exists (x1 ++ x2). rewrite Hx2, <- app_assoc. split; [reflexivity|]. split.
      * intros m Hm. apply in_app_or in Hm. destruct Hm as [Hm|Hm].
        -- exists (s, e), upstream. split; [now left|]. split; [exact Er|now apply Hin1].
        -- destruct (Hin2 m Hm) as (c & u & Hc & Hr & Hu).
           exists c, u. split; [now right|]. split; assumption.
      * split.
        -- intros c u m [<-|Hc] Hr Hno Hm; apply in_or_app.
           ++ cbn [fst snd] in Hr. rewrite Er in Hr. inversion Hr; subst u.
              left. now apply Hall1.
           ++ right. now apply (Hall2 c u m).
        -- intros Herr. destruct (Herr (s, e)) as [e0 He0]; [now left|].
           cbn [fst snd] in He0. congruence.
    + destruct (IH all_matches (asked ++ [(date_of s, date_of e)]))
        as (x2 & Hx2 & Hin2 & Hall2 & Hnone).
      exists x2. split; [exact Hx2|]. split.
      * intros m Hm. destruct (Hin2 m Hm) as (c & u & Hc & Hr & Hu).
        exists c, u. split; [now right|]. split; assumption.
      * split.
        -- intros c u m [<-|Hc] Hr Hno Hm.
           ++ cbn [fst snd] in Hr. congruence.
           ++ now apply (Hall2 c u m).
        -- intros Herr. apply Hnone. intros c Hc. apply Herr. now right.
    + destruct (IH all_matches (asked ++ [(date_of s, date_of e)]))
        as (x2 & Hx2 & Hin2 & Hall2 & Hnone).
      exists x2. split; [exact Hx2|]. split.
      * intros m Hm. destruct (Hin2 m Hm) as (c & u & Hc & Hr & Hu).
        exists c, u. split; [now right|]. split; assumption.
      * split.
        -- intros c u m [<-|Hc] Hr Hno Hm.
           ++ cbn [fst snd] in Hr. congruence.
           ++ now apply (Hall2 c u m).
        -- intros Herr. apply Hnone. intros c Hc. apply Herr. now right.
Qed.

(** X21: _get_season_end_date never gets to the reply of the API: its
    request is made without the endpoint, so it answers with the clock.  A
    pass always comes to an end and changes nothing but the watermark, and
    the requests it makes depend on the stored dates and the clock only, not
    on what the API or the model answer. *)
Theorem X21_a_pass_only_moves_the_watermark :
  forall (predict : Database.features -> R * R * R) (env : environment) (d : db),
    _get_season_end_date env = season_clock env /\
    exists asked,
      update_matches predict env d =
        Some (Database.set_last_fetched_date d (date_of (clock env)), asked) /\
      forall predict' season_reply request',
        update_matches predict'
          (mk_environment (season_clock env) (clock env) season_reply request') d =
        Some (Database.set_last_fetched_date d (date_of (clock env)), asked).
Proof.
  intros predict env d. split; [reflexivity|].
  assert (Hend : forall e, _get_season_end_date e = season_clock e) by reflexivity.
  unfold update_matches. rewrite Hend.
  destruct (match get_last_match_date d with
            | Some l => date_of (season_clock env) <=? date_of l
            | None => false
            end) eqn:Eover.
  - exists []. split; [reflexivity|]. intros predict' r q.
    rewrite Hend. cbn [season_clock clock]. rewrite Eover. reflexivity.
  - destruct (season_clock env + timedelta_days 1 <? _) eqn:Einv.
    + exists []. split; [reflexivity|]. intros predict' r q.
      rewrite Hend. cbn [season_clock clock]. rewrite Eover, Einv. reflexivity.
    + match goal with
      | |- context [_get_date_chunks ?a ?b chunk_size] =>
        destruct (_get_date_chunks_some a b chunk_size) as [chunks Hc];
          [unfold chunk_size; lia|]
      end.
      rewrite Hc.
      exists (map (fun c => (date_of (fst c), date_of (snd c))) chunks). split.
      * pose proof (fetch_chunks_asked env chunks [] []) as Ha.
        destruct (fetch_chunks env chunks [] []) as [all_matches asked].
        cbn [snd app] in Ha. subst asked.
        rewrite process_new_matches_stores_nothing. now destruct all_matches.
      * intros predict' r q. rewrite Hend. cbn [season_clock clock].
        rewrite Eover, Einv, Hc.
        pose proof (fetch_chunks_asked
                      (mk_environment (season_clock env) (clock env) r q)
                      chunks [] []) as Ha.
        destruct (fetch_chunks _ chunks [] []) as [all_matches asked].
        cbn [snd app] in Ha. subst asked.
        rewrite process_new_matches_stores_nothing. now destruct all_matches.
Qed.

(** ** Requests *)

Section RequestOrder.
Context {payload : Type} (float : string -> option Q)
        (reply : nat -> http_reply payload).

(** Replies that are not decisive are skipped, each at the price of one
    sleep, as long as a later attempt is left. *)
Lemma request_loop_skips :
  forall n attempt remaining slept,
    (attempt + n < 4)%nat ->
    (forall b, (attempt <= b < attempt + n)%nat -> retryable (reply b) = true) ->
    exists extra,
      List.length extra = n /\
      request_loop float reply attempt (n + remaining) slept =
      request_loop float reply (attempt + n) remaining (slept ++ extra).
Proof.
  induction n as [|n IH]; intros attempt remaining slept Hlt Hre.
  - exists []. rewrite app_nil_r, Nat.add_0_r. split; reflexivity.
  - assert (Hr : retryable (reply attempt) = true) by (apply Hre; lia).
    assert (Ha : (attempt <? max_retries)%nat = true)
      by (apply Nat.ltb_lt; unfold max_retries; lia).
    assert (Hnext : forall w,
               exists extra,
                 List.length extra = S n /\
                 request_loop float reply (S attempt) (n + remaining)
                              (slept ++ [(attempt, w)]) =
                 request_loop float reply (attempt + S n) remaining (slept ++ extra)).
    { intro w.
      destruct (IH (S attempt) remaining (slept ++ [(attempt, w)])) as (x & Hx & Hq);
        [lia|intros b Hb; apply Hre; lia|].
      exists ((attempt, w) :: x). split; [cbn; now rewrite Hx|].
      rewrite Hq. replace (S attempt + n)%nat with (attempt + S n)%nat by lia.
      now rewrite <- app_assoc. }
    cbn [Nat.add request_loop]. rewrite Ha.
    destruct (reply attempt) as [|[data|e]|body|status]; try discriminate.
    + apply Hnext.
    + apply Hnext.
    + destruct (wait_time_of float attempt body); apply Hnext.
Qed.

End RequestOrder.

(** X22: the first reply that is a readable 200 or a status other than 200
    and 429 decides the request: the payload or the status comes back, after
    one sleep for each earlier attempt.  When none of the four attempts is
    decisive the result is an error that names no status, after three sleeps
    at least. *)
Theorem X22_first_decisive_reply_wins :
  forall (payload : Type) (float : string -> option Q)
         (reply : nat -> http_reply payload) (a : nat),
    (a <= 4)%nat ->
    (forall b, (b < a)%nat -> retryable (reply b) = true) ->
    let result := _make_request float reply in
    (forall data, (a < 4)%nat -> reply a = Status200 (Ok data) ->
       fst result = Data data /\ List.length (snd result) = a) /\
    (forall status, (a < 4)%nat -> reply a = StatusOther status ->
       fst result = ErrorDict (RequestFailedWithStatus status) /\
       List.length (snd result) = a) /\
    (a = 4%nat ->
       (fst result = ErrorDict RequestErrorAfterAttempts /\
        List.length (snd result) = 3%nat) \/
       (fst result = ErrorDict FailedToCompleteRequest /\
        List.length (snd result) = 4%nat)).
Proof.
  intros payload float reply a Hle Hre result. subst result.
  unfold _make_request.
  split; [|split].
  - intros data Hlt Hrep.
    destruct (request_loop_skips float reply a 0 (4 - a) [] ltac:(lia)) as (x & Hx & Hq);
      [intros b Hb; apply Hre; lia|].
    replace (max_retries + 1)%nat with (a + (4 - a))%nat by (unfold max_retries; lia).
    rewrite Hq. cbn [Nat.add app].
    destruct (4 - a)%nat as [|k] eqn:Ek; [lia|].
    cbn [request_loop]. rewrite Hrep. cbn [fst snd]. split; [reflexivity|exact Hx].
  - intros status Hlt Hrep.
    destruct (request_loop_skips float reply a 0 (4 - a) [] ltac:(lia)) as (x & Hx & Hq);
      [intros b Hb; apply Hre; lia|].
    replace (max_retries + 1)%nat with (a + (4 - a))%nat by (unfold max_retries; lia).
    rewrite Hq. cbn [Nat.add app].
    destruct (4 - a)%nat as [|k] eqn:Ek; [lia|].
    cbn [request_loop]. rewrite Hrep. cbn [fst snd]. split; [reflexivity|exact Hx].
  - intros ->.
    destruct (request_loop_skips float reply 3 0 1 [] ltac:(lia)) as (x & Hx & Hq);
      [intros b Hb; apply Hre; lia|].
    change (max_retries + 1)%nat with (3 + 1)%nat. rewrite Hq. cbn [Nat.add app].
    assert (Hr : retryable (reply 3%nat) = true) by (apply Hre; lia).
    cbn [request_loop]. change (3 <? max_retries)%nat with false.
    destruct (reply 3%nat) as [|[data|e]|body|status]; try discriminate.
    + left. split; [reflexivity|exact Hx].
    + left. split; [reflexivity|exact Hx].
    + destruct (wait_time_of float 3 body).
      * right. cbn [fst snd]. split; [reflexivity|].
        rewrite length_app, Hx. reflexivity.
      * left. split; [reflexivity|exact Hx].
Qed.

Lemma X22_first_decisive_reply_wins_witness :
  fst (_make_request float_decimal (limited_once "3")) = Data tt /\
  List.length (snd (_make_request float_decimal (limited_once "3"))) = 1%nat.
Proof.
  refine (proj1 (X22_first_decisive_reply_wins unit float_decimal (limited_once "3") 1
                   _ _) tt _ _).
  - lia.
  - intros b Hb. assert (b = 0%nat) as -> by lia. reflexivity.
  - lia.
  - reflexivity.
Defined.

(** *** The wait a 429 reply states *)

Lemma chars_append (x y : string) :
  list_ascii_of_string (x ++ y) = (list_ascii_of_string x ++ list_ascii_of_string y)%list.
Proof. induction x as [|c x IH]; cbn; [reflexivity|now rewrite IH]. Qed.

Lemma substring_0_0 (s : string) : substring 0 0 s = EmptyString.
Proof. now destruct s. Qed.

Lemma append_empty (x : string) : (x ++ EmptyString)%string = x.
Proof. induction x as [|c x IH]; cbn; [reflexivity|now rewrite IH]. Qed.

Lemma substring_whole (s : string) : substring 0 (String.length s) s = s.
Proof. induction s as [|c s IH]; cbn; [reflexivity|now rewrite IH]. Qed.

Lemma substring_0_append (x y : string) (n : nat) :
  substring 0 (String.length x + n) (x ++ y) = (x ++ substring 0 n y)%string.
Proof. induction x as [|c x IH]; cbn; [reflexivity|now rewrite IH]. Qed.

Lemma substring_skip_append (x y : string) (n m : nat) :
  substring (String.length x + n) m (x ++ y) = substring n m y.
Proof. induction x as [|c x IH]; cbn; [reflexivity|exact IH]. Qed.

Lemma length_append (x y : string) :
  String.length (x ++ y) = (String.length x + String.length y)%nat.
Proof. induction x as [|c x IH]; cbn; [reflexivity|now rewrite IH]. Qed.

Lemma prefix_append (x y : string) : prefix x (x ++ y) = true.
Proof.
  apply prefix_correct.
  rewrite <- (Nat.add_0_r (String.length x)), substring_0_append.
  rewrite substring_0_0. apply append_empty.
Qed.

(** An occurrence of [sep] does not start inside a string that is without
    the first character of [sep]. *)
Lemma index_skip (c0 : ascii) (sep x y : string) :
  ~ In c0 (list_ascii_of_string x) ->
  index 0 (String c0 sep) (x ++ y) =
  option_map (Nat.add (String.length x)) (index 0 (String c0 sep) y).
Proof.
  induction x as [|c x IH]; intro Hno.
  - cbn [append String.length]. now destruct (index 0 (String c0 sep) y).
  - cbn [append String.length index prefix].
    destruct (ascii_dec c0 c) as [->|Hne]; [exfalso; apply Hno; now left|].
    rewrite IH by (intro H; apply Hno; now right).
    now destruct (index 0 (String c0 sep) y).
Qed.

Lemma find_sep_skip (c0 : ascii) (sep x y : string) :
  ~ In c0 (list_ascii_of_string x) ->
  find_sep (String c0 sep) (x ++ String c0 sep ++ y) = Some (x, y).
Proof.
  intro Hno. unfold find_sep. rewrite index_skip by exact Hno.
  assert (Hi : index 0 (String c0 sep) (String c0 sep ++ y) = Some 0%nat).
  { change (String c0 sep ++ y)%string with (String c0 (sep ++ y)).
    cbn [index]. change (String c0 (sep ++ y)) with (String c0 sep ++ y)%string.
    now rewrite prefix_append. }
  rewrite Hi. cbn [option_map]. f_equal. f_equal.
  - rewrite substring_0_append. rewrite substring_0_0. apply append_empty.
  - rewrite !length_append, Nat.add_0_r.
    replace (String.length x + (String.length (String c0 sep) + String.length y)
             - (String.length x + String.length (String c0 sep)))%nat
      with (String.length y) by lia.
    rewrite substring_skip_append.
    rewrite <- (Nat.add_0_r (String.length (String c0 sep))), substring_skip_append.
    apply substring_whole.
Qed.

Lemma split_0_skip (c0 : ascii) (sep x y : string) :
  ~ In c0 (list_ascii_of_string x) ->
  exists y', split_0 (String c0 sep) (x ++ y) = (x ++ y')%string.
Proof.
  intro Hno. unfold split_0, find_sep. rewrite index_skip by exact Hno.
  destruct (index 0 (String c0 sep) y) as [j|]; cbn [option_map].
  - exists (substring 0 j y). apply substring_0_append.
  - now exists y.
Qed.

(** X23: a 429 reply whose message reads ... Wait <w> seconds ..., with no
    W before the first Wait and neither a W nor a blank in <w>, makes
    wait_time_of hand <w> to float(); the wait is what float() returns, and
    the exponential delay when float() raises ValueError. *)
Theorem X23_stated_wait_is_parsed :
  forall (float : string -> option Q) (attempt : nat) (pre w post : string),
    ~ In "W"%char (list_ascii_of_string pre) ->
    ~ In "W"%char (list_ascii_of_string w) ->
    ~ In " "%char (list_ascii_of_string w) ->
    wait_time_of float attempt
      (Some (JObject (Some (JString
         (pre ++ "Wait " ++ w ++ " seconds" ++ post)%string)))) =
    Ok (match float w with
        | Some seconds => seconds
        | None => exponential_delay attempt
        end).
Proof.
  intros float attempt pre w post Hpre HwW Hwb.
  unfold wait_time_of, split_1.
  rewrite (find_sep_skip "W" "ait " pre (w ++ " seconds" ++ post) Hpre).
  assert (Hno : ~ In "W"%char (list_ascii_of_string (w ++ " seconds"))).
  { rewrite chars_append. intro H. apply in_app_or in H. destruct H as [H|H];
      [exact (HwW H)|].
    cbn in H. repeat (destruct H as [H|H]; [discriminate H|]). exact H. }
  destruct (split_0_skip "W" "ait " (w ++ " seconds") post Hno) as [post' Hs].
  assert (Ha : ((w ++ " seconds") ++ post = w ++ " seconds" ++ post)%string).
  { clear. induction w as [|c w IH]; cbn; [reflexivity|now rewrite IH]. }
  rewrite Ha in Hs. rewrite Hs.
  assert (Hb : ((w ++ " seconds") ++ post' = w ++ " seconds" ++ post')%string).
  { clear. induction w as [|c w IH]; cbn; [reflexivity|now rewrite IH]. }
  rewrite Hb. unfold split_0 at 1.
  rewrite (find_sep_skip " " "seconds" w post' Hwb).
  now destruct (float w).
Qed.

Lemma X23_stated_wait_is_parsed_witness :
  wait_time_of float_decimal 0
    (Some (JObject (Some (JString
       ("You reached your request limit. " ++ "Wait " ++ "34" ++ " seconds" ++ ".")%string))))
  = Ok (match float_decimal "34" with
        | Some seconds => seconds
        | None => exponential_delay 0
        end).
Proof.
  apply (X23_stated_wait_is_parsed float_decimal 0
           "You reached your request limit. " "34" ".");
    intro H; cbn in H;
    repeat (destruct H as [H|H]; [discriminate H|]); exact H.
Defined.

(** ** The current matchday and the fixtures *)

Lemma swallow_if_known_facts (s : Matchday.service) (e : exn) :
  fst (Matchday.swallow_if_known s e) = s /\
  (snd (Matchday.swallow_if_known s e) = Ok tt <->
   Matchday.current_matchday s <> None).
Proof.
  unfold Matchday.swallow_if_known.
  destruct (Matchday.current_matchday s); cbn; split; try reflexivity;
    split; congruence.
Qed.

Lemma update_current_matchday_cases now reply s :
  let r := Matchday.update_current_matchday now reply s in
  (fst r = s /\ (snd r = Ok tt <-> Matchday.current_matchday s <> None)) \/
  (snd r = Ok tt /\
   exists m, m <= 38 /\ fst r = Matchday.mk_service (Some m) (Some now)).
Proof.
  unfold Matchday.update_current_matchday.
  destruct (match Matchday.last_matchday_update s, Matchday.current_matchday s with
            | Some last, Some _ => now - last <? Matchday.update_interval
            | _, _ => false
            end) eqn:Ecache.
  - left. cbn. split; [reflexivity|]. split; [|reflexivity]. intros _.
    destruct (Matchday.last_matchday_update s); [|discriminate].
    destruct (Matchday.current_matchday s); [discriminate|discriminate].
  - destruct reply as [data|err]; [|left; apply swallow_if_known_facts].
    destruct (Matchday.endDate data) as [end_date|e];
      [|left; apply swallow_if_known_facts].
    destruct (end_date <? now).
    + right. cbn. split; [reflexivity|]. exists 38. split; [lia|reflexivity].
    + destruct (Matchday.currentMatchday data) as [m|e];
        [|left; apply swallow_if_known_facts].
      right. cbn. split; [reflexivity|].
      exists (Z.min m Matchday.max_matchday).
      split; [unfold Matchday.max_matchday; lia|reflexivity].
Qed.

(** X24: update_current_matchday returns normally exactly when a matchday
    is known afterwards, so that get_current_matchday does not raise after
    it; when it raises the service is as before, with no matchday.  It
    either leaves the service alone or stamps it with the time of the call,
    it never stores a matchday above 38, and within six hours of the last
    update it does not look at the reply. *)
Theorem X24_matchday_is_known_and_capped :
  forall (now : Z) (reply : api_result Matchday.competition) (s : Matchday.service),
    let s' := fst (Matchday.update_current_matchday now reply s) in
    let r := snd (Matchday.update_current_matchday now reply s) in
    (r = Ok tt <-> Matchday.current_matchday s' <> None) /\
    (r = Ok tt <-> exists m, Matchday.get_current_matchday s' = Ok m) /\
    (r <> Ok tt -> s' = s /\ Matchday.current_matchday s = None) /\
    (s' = s \/ Matchday.last_matchday_update s' = Some now) /\
    ((forall m, Matchday.current_matchday s = Some m -> m <= 38) ->
     forall m, Matchday.current_matchday s' = Some m -> m <= 38) /\
    (forall last m,
        Matchday.last_matchday_update s = Some last ->
        Matchday.current_matchday s = Some m ->
        now - last < Matchday.update_interval ->
        s' = s /\ r = Ok tt).
Proof.
  intros now reply s s' r. subst s' r.
  pose proof (update_current_matchday_cases now reply s) as Hc. cbv zeta in Hc.
  assert (H1 : snd (Matchday.update_current_matchday now reply s) = Ok tt <->
               Matchday.current_matchday
                 (fst (Matchday.update_current_matchday now reply s)) <> None).
  { destruct Hc as [(Hs & Hr)|(Hr & m & Hm & Hs)]; rewrite Hs.
    - exact Hr.
    - cbn. split; [discriminate|intros _; exact Hr]. }
  split; [exact H1|]. split; [|split; [|split; [|split]]].
  - rewrite H1. unfold Matchday.get_current_matchday.
    destruct (Matchday.current_matchday
                (fst (Matchday.update_current_matchday now reply s))) as [m|].
    + split; [intros _; now exists m|intros _; discriminate].
    + split; [congruence|intros [m Hm]; discriminate].
  - intro Hne. destruct Hc as [(Hs & Hr)|(Hr & _)]; [|contradiction].
    split; [exact Hs|].
    destruct (Matchday.current_matchday s) eqn:E; [|reflexivity].
    exfalso. apply Hne, Hr. discriminate.
  - destruct Hc as [(Hs & _)|(_ & m & _ & Hs)]; [now left|right].
    now rewrite Hs.
  - intros Hcap m Hm.
    destruct Hc as [(Hs & _)|(_ & m' & Hm' & Hs)]; rewrite Hs in Hm.
    + now apply Hcap.
    + cbn in Hm. inversion Hm; subst. exact Hm'.
  - intros last m Hl Hm Hlt. unfold Matchday.update_current_matchday.
    rewrite Hl, Hm. apply Z.ltb_lt in Hlt. rewrite Hlt. split; reflexivity.
Qed.

Lemma build_fixtures_some upstream fixtures :
  Matchday.build_fixtures upstream = Some fixtures -> upstream = map Some fixtures.
Proof.
  revert fixtures.
  induction upstream as [|[f|] rest IH]; intros fixtures; cbn [Matchday.build_fixtures].
  - now intros [= <-].
  - destruct (Matchday.build_fixtures rest) as [l|]; [|discriminate].
    intros [= <-]. cbn. now rewrite (IH l eq_refl).
  - discriminate.
Qed.

Lemma build_fixtures_none upstream :
  Matchday.build_fixtures upstream = None <-> In None upstream.
Proof.
  induction upstream as [|[f|] rest IH]; cbn [Matchday.build_fixtures].
  - split; [discriminate|intros []].
  - destruct (Matchday.build_fixtures rest) as [l|]; cbn.
    + split; [discriminate|]. intros [H|H]; [discriminate|].
      now apply IH in H.
    + split; [intros _; right; now apply IH|reflexivity].
  - split; [intros _; now left|reflexivity].
Qed.

(** X25: get_upcoming_fixtures never asks for a matchday above 38 and
    returns its fixtures ordered by date.  A list that is not empty holds
    every match of the reply for that matchday once; one match that cannot
    be read empties the whole list.  With a matchday given the service is
    left as it was. *)
Theorem X25_fixtures_are_all_or_nothing :
  forall (env : Matchday.fixtures_environment) (matchday : option Z)
         (s : Matchday.service),
    let s' := fst (fst (Matchday.get_upcoming_fixtures env matchday s)) in
    let asked := snd (fst (Matchday.get_upcoming_fixtures env matchday s)) in
    let fixtures := snd (Matchday.get_upcoming_fixtures env matchday s) in
    Sorted (fun a b => Matchday.fx_date a <= Matchday.fx_date b) fixtures /\
    (forall a, asked = Some a -> a <= 38) /\
    (forall m, matchday = Some m ->
               s' = s /\ (asked = None \/ asked = Some (Z.min m 38))) /\
    (fixtures <> [] ->
     exists a upstream,
       asked = Some a /\
       Matchday.matches_reply env a = Data (Some upstream) /\
       Permutation (map Some fixtures) upstream) /\
    (forall a upstream,
        asked = Some a ->
        Matchday.matches_reply env a = Data (Some upstream) ->
        In None upstream -> fixtures = []).
Proof.
  intros env matchday s s' asked fixtures. subst s' asked fixtures.
  unfold Matchday.get_upcoming_fixtures.
  set (start := match matchday with
                | Some m => (s, Ok m)
                | None =>
                  match Matchday.update_current_matchday
                          (Matchday.update_clock env) (Matchday.update_reply env) s with
                  | (s', Raise e) => (s', Raise e)
                  | (s', Ok _) => (s', Matchday.get_current_matchday s')
                  end
                end).
  assert (Hstart : forall m, matchday = Some m -> start = (s, Ok m))
    by (intros m ->; reflexivity).
  destruct start as [s1 known].
  assert (Hempty : forall a : option Z,
             (forall x, a = Some x -> x <= 38) ->
             (forall m, matchday = Some m -> a = None \/ a = Some (Z.min m 38)) ->
             Sorted (fun a b => Matchday.fx_date a <= Matchday.fx_date b) [] /\
             (forall x, a = Some x -> x <= 38) /\
             (forall m, matchday = Some m ->
                        s1 = s /\ (a = None \/ a = Some (Z.min m 38))) /\
             (@nil Matchday.fixture <> [] ->
              exists x upstream,
                a = Some x /\
                Matchday.matches_reply env x = Data (Some upstream) /\
                Permutation (map Some (@nil Matchday.fixture)) upstream)).
  { intros a Ha Hm. split; [constructor|]. split; [exact Ha|]. split.
    - intros m E. split; [|now apply Hm]. specialize (Hstart m E). congruence.
    - intro H. now contradiction H. }
  assert (Hnone : forall x : Z, None = Some x -> x <= 38) by discriminate.
  assert (Hleft : forall m : Z, matchday = Some m ->
                                @None Z = None \/ @None Z = Some (Z.min m 38))
    by (intros; now left).
  destruct known as [m|e].
  2:{ cbn [fst snd]. destruct (Hempty None Hnone Hleft) as (A & B & C & D).
      repeat (split; [assumption|]). intros a u [=]. }
  destruct (Matchday.competition_reply env) as [data|err].
  2:{ cbn [fst snd]. destruct (Hempty None Hnone Hleft) as (A & B & C & D).
      repeat (split; [assumption|]). intros a u [=]. }
  destruct (Matchday.endDate data) as [end_date|e].
  2:{ cbn [fst snd]. destruct (Hempty None Hnone Hleft) as (A & B & C & D).
      repeat (split; [assumption|]). intros a u [=]. }
  destruct (end_date <? Matchday.fixtures_clock env).
  { cbn [fst snd]. destruct (Hempty None Hnone Hleft) as (A & B & C & D).
    repeat (split; [assumption|]). intros a u [=]. }
  assert (Hcap : forall x, Some (Z.min m Matchday.max_matchday) = Some x -> x <= 38)
    by (intros x [= <-]; unfold Matchday.max_matchday; lia).
  assert (Hright : forall m0 : Z, matchday = Some m0 ->
             Some (Z.min m Matchday.max_matchday) = None \/
             Some (Z.min m Matchday.max_matchday) = Some (Z.min m0 38)).
  { intros m0 E. right. specialize (Hstart m0 E). inversion Hstart. reflexivity. }
  destruct (Matchday.matches_reply env (Z.min m Matchday.max_matchday))
    as [[upstream|]|err] eqn:Er.
  2:{ cbn [fst snd]. destruct (Hempty _ Hcap Hright) as (A & B & C & D).
      repeat (split; [assumption|]). reflexivity. }
  2:{ cbn [fst snd]. destruct (Hempty _ Hcap Hright) as (A & B & C & D).
      repeat (split; [assumption|]). reflexivity. }
  destruct (Matchday.build_fixtures upstream) as [fixtures|] eqn:Eb.
  2:{ cbn [fst snd]. destruct (Hempty _ Hcap Hright) as (A & B & C & D).
      repeat (split; [assumption|]). reflexivity. }
  cbn [fst snd]. split; [apply (sort_by_sorted Matchday.fx_date)|].
  split; [exact Hcap|]. split.
  { intros m0 E. split; [|now apply Hright]. specialize (Hstart m0 E). congruence. }
  split.
  - intros _. exists (Z.min m Matchday.max_matchday), upstream.
    split; [reflexivity|]. split; [exact Er|].
    rewrite (build_fixtures_some _ _ Eb). apply Permutation_map.
    apply (sort_by_perm Matchday.fx_date).
  - intros a u [= <-] Hu Hin. rewrite Er in Hu. inversion Hu; subst u.
    apply build_fixtures_none in Hin. congruence.
Qed.

(** ** The model service and the prediction endpoint *)

Lemma clip_bounds (x a_min a_max : R) :
  (a_min <= a_max)%R ->
  (a_min <= ModelService.clip x a_min a_max <= a_max)%R.
Proof.
  intro H. unfold ModelService.clip, Rmin, Rmax.
  destruct (Rle_dec x a_min); destruct (Rle_dec a_max _); lra.
Qed.

Lemma clip_inside (x a_min a_max : R) :
  (a_min <= x <= a_max)%R -> ModelService.clip x a_min a_max = x.
Proof.
  intro H. unfold ModelService.clip, Rmin, Rmax.
  destruct (Rle_dec x a_min); destruct (Rle_dec a_max _); lra.
Qed.

(** X26: whatever the scaler does, every value prepare_features returns
    lies between -3 and 3, and a scaled value already in that range is passed
    on unchanged; with a scaler that keeps the width of the row there are
    eight of them.  The last raw value is Home_Elo minus Away_Elo as
    computed again from the first two, not the Elo_Difference of the
    feature dict. *)
Theorem X26_prepared_features_are_clipped :
  forall (transform : list R -> list R) (f : Database.features),
    (forall l, List.length (transform l) = List.length l) ->
    List.length (ModelService.prepare_features transform f) = 8%nat /\
    (forall x, In x (ModelService.prepare_features transform f) ->
               (-3 <= x <= 3)%R) /\
    (forall i, (-3 <= nth i (transform (ModelService.feature_values f)) 0 <= 3)%R ->
               nth i (ModelService.prepare_features transform f) 0%R =
               nth i (transform (ModelService.feature_values f)) 0%R) /\
    (nth 7 (ModelService.feature_values f) 0 =
     nth 1 (ModelService.feature_values f) 0 -
     nth 0 (ModelService.feature_values f) 0)%R.
Proof.
  intros transform f Hlen. unfold ModelService.prepare_features.
  split; [now rewrite length_map, Hlen|]. split; [|split; [|reflexivity]].
  - intros x Hx. apply in_map_iff in Hx. destruct Hx as (y & <- & _).
    apply clip_bounds. lra.
  - intros i Hi.
    destruct (Nat.lt_ge_cases i (List.length (transform (ModelService.feature_values f))))
      as [Hlt|Hge].
    + rewrite (nth_indep _ 0%R (ModelService.clip 0 (-3) 3)) by (now rewrite length_map).
      rewrite (map_nth (fun x => ModelService.clip x (-3) 3)).
      now apply clip_inside.
    + rewrite !nth_overflow; [reflexivity|exact Hge|now rewrite length_map].
Qed.

Lemma X26_prepared_features_are_clipped_witness :
  List.length (ModelService.prepare_features (fun l => l)
                 (Database.mk_features 1500 1500 0 0 0 0 0 0)) = 8%nat.
Proof.
  exact (proj1 (X26_prepared_features_are_clipped (fun l => l)
                  (Database.mk_features 1500 1500 0 0 0 0 0 0)
                  (fun l => eq_refl))).
Defined.

Lemma insert_match_prediction_keeps d mid p :
  let d' := Database.insert_match_prediction d mid p in
  teams d' = teams d /\ matches d' = matches d /\
  last_fetched_date d' = last_fetched_date d /\
  (exists extra, match_predictions d' = match_predictions d ++ extra /\
                 (List.length extra <= 1)%nat) /\
  forall mid' q, DatabaseReads.get_prediction_for_match d mid' = Some q ->
                 DatabaseReads.get_prediction_for_match d' mid' = Some q.
Proof.
  cbv zeta. unfold Database.insert_match_prediction.
  destruct (existsb _ (match_predictions d)).
  - repeat split; auto. exists []. rewrite app_nil_r. split; [reflexivity|cbn; lia].
  - cbn [teams matches last_fetched_date match_predictions].
    repeat split; auto.
    + eexists. split; [reflexivity|cbn; lia].
    + intros mid' q. unfold DatabaseReads.get_prediction_for_match.
      cbn [match_predictions].
      destruct (find (fun r => pred_match_id r =? mid') (match_predictions d))
        as [r|] eqn:E; [|discriminate].
      now rewrite (find_app_some _ _ _ _ E).
Qed.

(** X27: POST /predict/ answers an unknown team with status 500, never with
    the 404 its body raises, and then leaves the store alone; with both
    teams known it returns the prediction and the features.  In every case
    it changes neither teams nor matches nor the watermark, adds one stored
    prediction at most and overwrites none. *)
Theorem X27_predict_endpoint :
  forall (transform : list R -> list R)
         (predict_proba : list R -> outcome (R * R * R))
         (today : Z) (d : db) (home_api_id away_api_id : Z),
    let d' := fst (Main.predict_match_new transform predict_proba today d
                     home_api_id away_api_id) in
    let r := snd (Main.predict_match_new transform predict_proba today d
                    home_api_id away_api_id) in
    (Database.team_by_api_id (teams d) home_api_id = None \/
     Database.team_by_api_id (teams d) away_api_id = None ->
     r = Main.HTTPException 500 /\ d' = d) /\
    (Database.team_by_api_id (teams d) home_api_id <> None ->
     Database.team_by_api_id (teams d) away_api_id <> None ->
     exists feats,
       Database.get_match_features d home_api_id away_api_id = Some feats /\
       r = Main.Returns
             (Main.mk_prediction_response
                (ModelService.predict predict_proba
                   (ModelService.prepare_features transform feats))
                feats)) /\
    r <> Main.HTTPException 404 /\
    teams d' = teams d /\ matches d' = matches d /\
    last_fetched_date d' = last_fetched_date d /\
    (exists extra, match_predictions d' = match_predictions d ++ extra /\
                   (List.length extra <= 1)%nat) /\
    (forall mid q, DatabaseReads.get_prediction_for_match d mid = Some q ->
                   DatabaseReads.get_prediction_for_match d' mid = Some q).
Proof.
  intros transform predict_proba today d h a d' r. subst d' r.
  unfold Main.predict_match_new, Main.predict_match_new_body.
  pose proof (get_match_features_none_iff d h a) as Hnone.
  destruct (Database.get_match_features d h a) as [feats|].
  - cbn [fst snd].
    set (probs := ModelService.predict predict_proba
                    (ModelService.prepare_features transform feats)).
    assert (Hk : forall o : option match_row,
               let d' := match o with
                         | Some m => Database.insert_match_prediction d (match_id m) probs
                         | None => d
                         end in
               teams d' = teams d /\ matches d' = matches d /\
               last_fetched_date d' = last_fetched_date d /\
               (exists extra, match_predictions d' = match_predictions d ++ extra /\
                              (List.length extra <= 1)%nat) /\
               forall mid q, DatabaseReads.get_prediction_for_match d mid = Some q ->
                             DatabaseReads.get_prediction_for_match d' mid = Some q).
    { intros [m|]; [apply insert_match_prediction_keeps|].
      cbv zeta. repeat split; auto. exists []. rewrite app_nil_r.
      split; [reflexivity|cbn; lia]. }
    specialize (Hk (Main.next_match today d h a)). cbv zeta in Hk.
    destruct Hk as (K1 & K2 & K3 & K4 & K5).
    split.
    { intro H. apply Hnone in H. discriminate. }
    split.
    { intros _ _. exists feats. split; reflexivity. }
    split; [discriminate|].
    split; [exact K1|]. split; [exact K2|]. split; [exact K3|].
    split; [exact K4|exact K5].
  - cbn [fst snd]. split; [intros _; split; reflexivity|].
    split.
    { intros Hh Ha. destruct (proj1 Hnone eq_refl); contradiction. }
    split; [discriminate|].
    split; [reflexivity|]. split; [reflexivity|]. split; [reflexivity|].
    split; [exists []; rewrite app_nil_r; split; [reflexivity|cbn; lia]|].
    intros mid q H. exact H.
Qed.

(** ** Backfilling predictions *)

Lemma get_match_features_same_tables d d' h a :
  teams d' = teams d -> matches d' = matches d ->
  Database.get_match_features d' h a = Database.get_match_features d h a.
Proof.
  intros Ht Hm.
  unfold Database.get_match_features, Database.get_match_features_body.
  now rewrite Ht, Hm.
Qed.

Lemma features_of_same_tables d d' h a :
  teams d' = teams d -> matches d' = matches d ->
  Backfill.features_of d' h a = Backfill.features_of d h a.
Proof.
  intros Ht Hm. unfold Backfill.features_of.
  destruct h; [|reflexivity]. destruct a; [|reflexivity].
  now apply get_match_features_same_tables.
Qed.

Section BackfillFacts.
Variable transform : list R -> list R.
Variable predict_proba : list R -> outcome (R * R * R).

Lemma backfill_loop_keeps :
  forall rows d count,
    let d' := fst (Backfill.backfill_loop transform predict_proba d rows count) in
    let count' := snd (Backfill.backfill_loop transform predict_proba d rows count) in
    teams d' = teams d /\ matches d' = matches d /\
    last_fetched_date d' = last_fetched_date d /\
    (forall mid q, DatabaseReads.get_prediction_for_match d mid = Some q ->
                   DatabaseReads.get_prediction_for_match d' mid = Some q) /\
    (exists extra,
        match_predictions d' = match_predictions d ++ extra /\
        count' = count + Z.of_nat (List.length extra) /\
        forall r, In r extra ->
          exists h a, In (pred_match_id r, h, a) rows /\
                      Backfill.features_of d h a <> None) /\
    (forall mid h a, In (mid, h, a) rows ->
        DatabaseReads.get_prediction_for_match d' mid <> None \/
        Backfill.features_of d h a = None).
Proof.
  induction rows as [|[[mid h] a] rows IH]; intros d count.
  - cbn [Backfill.backfill_loop fst snd].
    split; [reflexivity|]. split; [reflexivity|]. split; [reflexivity|].
    split; [intros mid q H; exact H|]. split.
    + exists []. rewrite app_nil_r. split; [reflexivity|].
      split; [cbn; lia|intros r []].
    + intros mid h a [].
  - cbn [Backfill.backfill_loop].
    destruct (DatabaseReads.get_prediction_for_match d mid) as [q0|] eqn:Ep.
    + specialize (IH d count). cbv zeta in IH.
      destruct IH as (I1 & I2 & I3 & I4 & (extra & I5 & I6 & I7) & I8).
      split; [exact I1|]. split; [exact I2|]. split; [exact I3|].
      split; [exact I4|]. split.
      * exists extra. split; [exact I5|]. split; [exact I6|].
        intros r Hr. destruct (I7 r Hr) as (h' & a' & Hin & Hf).
        exists h', a'. split; [now right|exact Hf].
      * intros mid' h' a' [[= <- <- <-]|Hin]; [|now apply I8].
        left. rewrite (I4 _ _ Ep). discriminate.
    + destruct (Backfill.features_of d h a) as [feats|] eqn:Ef.
      * set (probs := ModelService.predict predict_proba
                        (ModelService.prepare_features transform feats)).
        pose proof (insert_match_prediction_keeps d mid probs) as Hk.
        cbv zeta in Hk. destruct Hk as (K1 & K2 & K3 & _ & K5).
        assert (Hnew : match_predictions (Database.insert_match_prediction d mid probs)
                       = match_predictions d ++
                         [mk_prediction mid (fst (fst probs)) (snd (fst probs))
                                        (snd probs)] /\
                       DatabaseReads.get_prediction_for_match
                         (Database.insert_match_prediction d mid probs) mid <> None).
        { unfold Database.insert_match_prediction.
          unfold DatabaseReads.get_prediction_for_match in Ep |- *.
          destruct (find (fun r => pred_match_id r =? mid) (match_predictions d))
            as [r0|] eqn:Efind; [discriminate|].
          destruct (existsb (fun r => pred_match_id r =? mid) (match_predictions d))
            eqn:Eex.
          - apply existsb_find in Eex. destruct Eex as [r Hr]. congruence.
          - cbn [match_predictions]. split; [reflexivity|].
            rewrite (find_app_none _ _ _ Efind). cbn. rewrite Z.eqb_refl. discriminate. }
        destruct Hnew as (Hnew & Hstored).
        specialize (IH (Database.insert_match_prediction d mid probs) (count + 1)).
        cbv zeta in IH.
        destruct IH as (I1 & I2 & I3 & I4 & (extra & I5 & I6 & I7) & I8).
        split; [congruence|]. split; [congruence|]. split; [congruence|].
        split; [intros mid' q Hq; now apply I4, K5|]. split.
        -- exists (mk_prediction mid (fst (fst probs)) (snd (fst probs)) (snd probs)
                     :: extra).
           split; [rewrite I5, Hnew, <- app_assoc; reflexivity|].
           split; [rewrite I6; cbn [List.length]; lia|].
           intros r [<-|Hr].
           ++ exists h, a. cbn [pred_match_id]. split; [now left|].
              rewrite Ef. discriminate.
           ++ destruct (I7 r Hr) as (h' & a' & Hin & Hf).
              exists h', a'. split; [now right|].
              now rewrite <- (features_of_same_tables d _ h' a' K1 K2).
        -- intros mid' h' a' [[= <- <- <-]|Hin].
           ++ left.
              destruct (DatabaseReads.get_prediction_for_match
                          (Database.insert_match_prediction d mid probs) mid)
                as [q|] eqn:Eq; [|now contradiction Hstored].
              rewrite (I4 _ _ Eq). discriminate.
           ++ destruct (I8 mid' h' a' Hin) as [H|H]; [now left|right].
              now rewrite <- (features_of_same_tables d _ h' a' K1 K2).
      * specialize (IH d count). cbv zeta in IH.
        destruct IH as (I1 & I2 & I3 & I4 & (extra & I5 & I6 & I7) & I8).
        split; [exact I1|]. split; [exact I2|]. split; [exact I3|].
        split; [exact I4|]. split.
        -- exists extra. split; [exact I5|]. split; [exact I6|].
           intros r Hr. destruct (I7 r Hr) as (h' & a' & Hin & Hf).
           exists h', a'. split; [now right|exact Hf].
        -- intros mid' h' a' [[= <- <- <-]|Hin]; [now right|now apply I8].
Qed.

Lemma backfill_loop_nothing_to_do :
  forall rows d count,
    (forall mid h a, In (mid, h, a) rows ->
        DatabaseReads.get_prediction_for_match d mid <> None \/
        Backfill.features_of d h a = None) ->
    Backfill.backfill_loop transform predict_proba d rows count = (d, count).
Proof.
  induction rows as [|[[mid h] a] rows IH]; intros d count Hall; [reflexivity|].
  cbn [Backfill.backfill_loop].
  assert (Hrest : forall mid' h' a', In (mid', h', a') rows ->
             DatabaseReads.get_prediction_for_match d mid' <> None \/
             Backfill.features_of d h' a' = None)
    by (intros; apply Hall; now right).
  destruct (DatabaseReads.get_prediction_for_match d mid) eqn:Ep; [now apply IH|].
  destruct (Hall mid h a (or_introl eq_refl)) as [H|H]; [now contradiction H|].
  rewrite H. now apply IH.
Qed.

Lemma season_rows_same_tables season_start now d d' :
  teams d' = teams d -> matches d' = matches d ->
  Backfill.season_rows season_start now d' = Backfill.season_rows season_start now d.
Proof. intros Ht Hm. unfold Backfill.season_rows. now rewrite Ht, Hm. Qed.

End BackfillFacts.

Lemma team_by_id_api_team_id ts ts' x :
  map team_id ts' = map team_id ts ->
  map api_team_id ts' = map api_team_id ts ->
  option_map api_team_id (team_by_id ts' x) = option_map api_team_id (team_by_id ts x).
Proof.
  unfold team_by_id. revert ts'.
  induction ts as [|t ts IH]; intros [|t' ts'] Hi Ha; try discriminate; [reflexivity|].
  cbn in Hi, Ha. inversion Hi as [[Hi1 Hi2]]. inversion Ha as [[Ha1 Ha2]].
  cbn [find]. rewrite Hi1.
  destruct (team_id t =? x); [cbn; now rewrite Ha1|now apply IH].
Qed.

Lemma team_by_api_id_none_same ts ts' x :
  map api_team_id ts' = map api_team_id ts ->
  (Database.team_by_api_id ts' x = None <-> Database.team_by_api_id ts x = None).
Proof.
  unfold Database.team_by_api_id. revert ts'.
  induction ts as [|t ts IH]; intros [|t' ts'] Ha; try discriminate; [reflexivity|].
  cbn in Ha. inversion Ha as [[Ha1 Ha2]]. cbn [find].
  unfold Database.has_api_id at 1 3. rewrite Ha1.
  destruct (match api_team_id t with Some a => a =? x | None => false end).
  - split; discriminate.
  - now apply IH.
Qed.

Lemma features_of_none_same_api d d' h a :
  map api_team_id (teams d') = map api_team_id (teams d) ->
  Backfill.features_of d h a = None -> Backfill.features_of d' h a = None.
Proof.
  intros Hapi. unfold Backfill.features_of.
  destruct h as [h|]; [|reflexivity]. destruct a as [a|]; [|reflexivity].
  rewrite !get_match_features_none_iff.
  intros [H|H]; [left|right]; now apply (team_by_api_id_none_same _ _ _ Hapi).
Qed.

Lemma season_rows_same_idents season_start now d d' :
  matches d' = matches d ->
  map team_id (teams d') = map team_id (teams d) ->
  map api_team_id (teams d') = map api_team_id (teams d) ->
  Backfill.season_rows season_start now d' = Backfill.season_rows season_start now d.
Proof.
  intros Hm Hi Ha. unfold Backfill.season_rows. rewrite Hm.
  induction (matches_by_date _) as [|m ms IH]; [reflexivity|].
  cbn [flat_map]. rewrite IH. f_equal.
  pose proof (team_by_id_api_team_id _ _ (home_team_id m) Hi Ha) as Hh.
  pose proof (team_by_id_api_team_id _ _ (away_team_id m) Hi Ha) as Haw.
  destruct (team_by_id (teams d') (home_team_id m)) as [ht'|];
    destruct (team_by_id (teams d) (home_team_id m)) as [ht|];
    cbn in Hh; try discriminate; [|reflexivity].
  destruct (team_by_id (teams d') (away_team_id m)) as [awt'|];
    destruct (team_by_id (teams d) (away_team_id m)) as [awt|];
    cbn in Haw; try discriminate; [|reflexivity].
  congruence.
Qed.

(** What Database() does to the rows at start-up: nothing when the rebuild
    is not due, and otherwise what process_historical_matches does. *)
Lemma _init_db_frame skip started f :
  let d := Startup.content f in
  let d1 := Startup.content (Startup._init_db skip started f) in
  matches d1 = matches d /\
  match_predictions d1 = match_predictions d /\
  map team_id (teams d1) = map team_id (teams d) /\
  map name (teams d1) = map name (teams d) /\
  map api_team_id (teams d1) = map api_team_id (teams d) /\
  (Startup.historical_matches_processed f = Some true -> d1 = d) /\
  Startup.matches_table_exists (Startup._init_db skip started f) = true.
Proof.
  cbv zeta.
  destruct (process_historical_matches_frame started (Startup.content f))
    as (F1 & F2 & F3 & F4 & F5).
  unfold Startup._init_db.
  destruct (Startup.historical_matches_processed f) as [[|]|];
    [|destruct (negb false && negb skip)
     |destruct (Startup.matches_table_exists f && negb skip)];
    cbn [negb andb Startup.content Startup.matches_table_exists];
    repeat split; auto; discriminate.
Qed.

(** X28: the backfill script, its start-up included.  Teams, watermark and
    the settings row are as Database() leaves them at start-up (untouched
    when 'historical_matches_processed' is 'true', rebuilt otherwise);
    besides, the script only adds predictions: the matches and the id, name
    and API id of every team are unchanged, no stored prediction is
    overwritten, and the count it prints is the number of predictions it
    added, each for a stored match dated after the season start and not
    after now.  A second run adds nothing, and changes nothing at all
    unless the file was new. *)
Theorem X28_backfill_only_adds_and_is_idempotent :
  forall (transform : list R -> list R)
         (predict_proba : list R -> outcome (R * R * R))
         (started season_start now : Z) (f : Startup.database_file),
    let f1 := Startup._init_db false started f in
    let f' := fst (Backfill.main transform predict_proba started season_start now f) in
    let count := snd (Backfill.main transform predict_proba started season_start now f) in
    let d := Startup.content f in
    let d' := Startup.content f' in
    teams d' = teams (Startup.content f1) /\
    last_fetched_date d' = last_fetched_date (Startup.content f1) /\
    Startup.historical_matches_processed f' = Startup.historical_matches_processed f1 /\
    (Startup.historical_matches_processed f = Some true ->
     teams d' = teams d /\ last_fetched_date d' = last_fetched_date d) /\
    matches d' = matches d /\
    map team_id (teams d') = map team_id (teams d) /\
    map name (teams d') = map name (teams d) /\
    map api_team_id (teams d') = map api_team_id (teams d) /\
    (forall mid q, DatabaseReads.get_prediction_for_match d mid = Some q ->
                   DatabaseReads.get_prediction_for_match d' mid = Some q) /\
    (exists extra,
        match_predictions d' = match_predictions d ++ extra /\
        count = Z.of_nat (List.length extra) /\
        forall r, In r extra ->
          exists m, In m (matches d) /\ match_id m = pred_match_id r /\
                    season_start < date m <= now) /\
    (forall started',
        let r2 := Backfill.main transform predict_proba started' season_start now f' in
        snd r2 = 0 /\
        match_predictions (Startup.content (fst r2)) = match_predictions d' /\
        (Startup.matches_table_exists f = true \/
         Startup.historical_matches_processed f <> None ->
         fst r2 = f')).
Proof.
  intros transform predict_proba started season_start now f f1 f' count d d'.
  subst f' count d'. unfold Backfill.main. fold f1.
  pose proof (_init_db_frame false started f) as Hinit. cbv zeta in Hinit.
  fold f1 d in Hinit. destruct Hinit as (J1 & J2 & J3 & J4 & J5 & J6 & J7).
  pose proof (backfill_loop_keeps transform predict_proba
                (Backfill.season_rows season_start now (Startup.content f1))
                (Startup.content f1) 0) as Hk.
  cbv zeta in Hk.
  destruct (Backfill.backfill_loop transform predict_proba (Startup.content f1)
              (Backfill.season_rows season_start now (Startup.content f1)) 0)
    as [d' count] eqn:Eloop.
  cbn [fst snd Startup.content Startup.historical_matches_processed] in *.
  destruct Hk as (K1 & K2 & K3 & K4 & (extra & K5 & K6 & K7) & K8).
  split; [exact K1|]. split; [exact K3|]. split; [reflexivity|].
  split; [intro Hflag; rewrite K1, K3, (J6 Hflag); split; reflexivity|].
  split; [congruence|]. split; [congruence|]. split; [congruence|].
  split; [congruence|].
  split.
  { intros mid q Hq. apply K4.
    unfold DatabaseReads.get_prediction_for_match in *. now rewrite J2. }
  split.
  { exists extra. split; [rewrite K5, J2; reflexivity|]. split; [lia|].
    intros r Hr. destruct (K7 r Hr) as (h & a & Hin & _).
    unfold Backfill.season_rows in Hin. apply in_flat_map in Hin.
    destruct Hin as (m & Hm & Hrow).
    apply (Permutation_in _ (matches_by_date_perm _)) in Hm.
    apply filter_In in Hm. destruct Hm as (Hm & Hwin).
    apply andb_true_iff in Hwin. destruct Hwin as (H1 & H2).
    apply Z.ltb_lt in H1. apply Z.leb_le in H2.
    exists m. split; [now rewrite <- J1|]. split; [|lia].
    destruct (team_by_id (teams (Startup.content f1)) (home_team_id m));
      [|destruct Hrow].
    destruct (team_by_id (teams (Startup.content f1)) (away_team_id m));
      [|destruct Hrow].
    destruct Hrow as [[= <- _ _]|[]]. reflexivity. }
  intros started'.
  set (g := Startup.mk_database_file (Startup.matches_table_exists f1)
              (Startup.historical_matches_processed f1) d').
  pose proof (_init_db_frame false started' g) as Hinit2. cbv zeta in Hinit2.
  destruct Hinit2 as (L1 & L2 & L3 & L4 & L5 & L6 & L7).
  set (g1 := Startup._init_db false started' g) in *.
  cbn [Startup.content g] in L1, L2, L3, L4, L5, L6.
  assert (Hrows : Backfill.season_rows season_start now (Startup.content g1) =
                  Backfill.season_rows season_start now (Startup.content f1)).
  { rewrite (season_rows_same_idents season_start now d' _ L1 L3 L5).
    now apply season_rows_same_tables. }
  assert (Hnothing :
            Backfill.backfill_loop transform predict_proba (Startup.content g1)
              (Backfill.season_rows season_start now (Startup.content g1)) 0
            = (Startup.content g1, 0)).
  { rewrite Hrows. apply backfill_loop_nothing_to_do.
    intros mid h a Hin. destruct (K8 mid h a Hin) as [H|H]; [left|right].
    - unfold DatabaseReads.get_prediction_for_match in *. now rewrite L2.
    - apply (features_of_none_same_api d').
      + exact L5.
      + now rewrite (features_of_same_tables (Startup.content f1) d' h a K1 K2). }
  cbv zeta. rewrite Hnothing. cbn [fst snd Startup.content].
  split; [reflexivity|]. split; [exact L2|].
  intro Hold.
  assert (Hflag : Startup.historical_matches_processed f1 = Some true).
  { unfold f1, Startup._init_db.
    destruct (Startup.historical_matches_processed f) as [[|]|] eqn:E;
      cbn [negb andb Startup.historical_matches_processed]; try reflexivity.
    destruct Hold as [->|H]; [reflexivity|now contradiction H]. }
  assert (Hg1 : g1 = g).
  { unfold g1, Startup._init_db, g.
    cbn [Startup.historical_matches_processed Startup.content
         Startup.matches_table_exists].
    rewrite Hflag, J7. reflexivity. }
  rewrite Hg1. reflexivity.
Qed.

(** ** Start-up *)

(** X29: the rebuild at start-up happens once.  Database() on a file that
    has the matches table or the settings row, without
    skip_historical_processing, ends with the row set to 'true', and then no
    later Database() changes the file.  On a new file the first Database()
    sets the row to 'false' and rebuilds nothing, so that it is the second
    one that rebuilds, over the matches stored by then.  With
    skip_historical_processing the rows of the tables are never changed, and
    whenever they are, they are those process_historical_matches leaves. *)
Theorem X29_start_up_rebuilds_once :
  forall (now : Z) (f : Startup.database_file),
    (Startup.matches_table_exists f = true \/
     Startup.historical_matches_processed f <> None ->
     Startup.is_historical_matches_processed (Startup._init_db false now f) = true /\
     forall skip' now',
       Startup._init_db skip' now' (Startup._init_db false now f) =
       Startup._init_db false now f) /\
    (Startup.matches_table_exists f = false ->
     Startup.historical_matches_processed f = None ->
     Startup._init_db false now f =
       Startup.mk_database_file true (Some false) (Startup.content f) /\
     forall now',
       Startup._init_db false now' (Startup._init_db false now f) =
       Startup.mk_database_file true (Some true)
         (Rebuild.process_historical_matches now' (Startup.content f))) /\
    Startup.content (Startup._init_db true now f) = Startup.content f /\
    (forall skip,
        Startup.content (Startup._init_db skip now f) = Startup.content f \/
        Startup.content (Startup._init_db skip now f) =
          Rebuild.process_historical_matches now (Startup.content f) /\
        Startup.is_historical_matches_processed f = false /\
        Startup.is_historical_matches_processed (Startup._init_db skip now f) = true).
Proof.
  intros now [ex [[|]|] c]; unfold Startup._init_db, Startup.is_historical_matches_processed;
    cbn [Startup.historical_matches_processed Startup.matches_table_exists
         Startup.content negb andb].
  - split; [intros _; split; [reflexivity|intros [|] now'; reflexivity]|].
    split; [intros _ [=]|]. split; [reflexivity|].
    intros [|]; left; reflexivity.
  - split; [intros _; split; [reflexivity|intros [|] now'; reflexivity]|].
    split; [intros _ [=]|]. split; [reflexivity|].
    intros [|]; [left; reflexivity|right; repeat split; reflexivity].
  - split.
    + intros [->|H]; [|now contradiction H].
      split; [reflexivity|intros [|] now'; reflexivity].
    + split.
      * intros -> _. split; [reflexivity|]. intro now'. reflexivity.
      * split; [now rewrite andb_false_r|].
        intros [|]; [left; now rewrite andb_false_r|].
        destruct ex; [right; repeat split; reflexivity|left; reflexivity].
Qed.

Lemma X29_start_up_rebuilds_once_witness :
  Startup.is_historical_matches_processed
    (Startup._init_db false 5 (Startup.mk_database_file true None example_db)) = true.
Proof.
  exact (proj1 (proj1 (X29_start_up_rebuilds_once 5
                         (Startup.mk_database_file true None example_db))
                      (or_introl eq_refl))).
Defined.
